(** * DuckPond: per-tenant connection manager with an LRU handle cache

    A shallow embedding of [src/cache/LRUCache.ts] and [src/DuckPond.ts].

    - A JavaScript [Map] keeps its keys in insertion order; it is modelled
      as an association list whose head is the oldest key.
    - [Date] values are milliseconds since the epoch, an integer ([Z]).
    - The query engine and the wall clock are outside the repository.  They
      are modelled by a [World] of oracles indexed by the number of external
      interactions made so far, so every theorem quantified over a [World]
      holds for every behaviour of the engine and every sequence of clock
      readings.
    - A public method runs from its call to the settlement of its promise
      as one state transformer; a value it raises is a rejected promise.
      The one piece of code that outlives the call that started it is a
      [detachUser] whose promise is dropped: [DuckPond.evictLRU] and the
      timer callback start it inside [forEach(async ...)].  Under the
      [duckdb] strategy such a call is suspended at its [await]; it is
      kept in [inFlight] and resumed when the scheduler oracle says so,
      either while a later call awaits the engine or as an event between
      calls.  Timer callbacks are events between calls. *)

From Stdlib Require Import String List ZArith Bool Lia Arith.
Import ListNotations.
Open Scope string_scope.
Open Scope list_scope.
Open Scope Z_scope.

Set Implicit Arguments.

(** ** Values of [src/types.ts] *)

(** An opaque engine connection ([DuckDBConnection]), named by the index of
    the engine call that created it. *)
Definition DuckDBConnection := nat.

(** interface UserDatabase *)
Record UserDatabase := mkUserDatabase {
  userId : string;
  connection : DuckDBConnection;
  lastAccess : Z;
  attached : bool;
  memoryUsage : option Z
}.

(** [item.lastAccess = t] *)
Definition set_lastAccess (t : Z) (item : UserDatabase) : UserDatabase :=
  {| userId := userId item; connection := connection item; lastAccess := t;
     attached := attached item; memoryUsage := memoryUsage item |}.

(** ** JavaScript [Map<string, T>] in insertion order *)

Module JsMap.

Definition t := list (string * UserDatabase).

Fixpoint get (key : string) (m : t) : option UserDatabase :=
  match m with
  | [] => None
  | (k, v) :: rest => if String.eqb k key then Some v else get key rest
  end.

Definition has (key : string) (m : t) : bool :=
  match get key m with Some _ => true | None => false end.

(** [Map.prototype.delete]: the map without the key. *)
Definition remove (key : string) (m : t) : t :=
  filter (fun kv => negb (String.eqb (fst kv) key)) m.

(** The boolean returned by [Map.prototype.delete]. *)
Definition delete (key : string) (m : t) : bool * t :=
  (has key m, remove key m).

(** [Map.prototype.set]: an existing key keeps its position, a new key
    goes last. *)
Fixpoint set (key : string) (value : UserDatabase) (m : t) : t :=
  match m with
  | [] => [(key, value)]
  | (k, v) :: rest =>
      if String.eqb k key then (k, value) :: rest
      else (k, v) :: set key value rest
  end.

Definition size (m : t) : Z := Z.of_nat (List.length m).

Definition keys (m : t) : list string := map fst m.

Definition values (m : t) : list UserDatabase := map snd m.

End JsMap.

(** ** [class LRUCache]

    The values of the map are modelled by value: [get] and [set] store the
    item with its new [lastAccess], where the code assigns
    [item.lastAccess] on the object the map holds.  The two agree as long
    as no object is stored under two keys, which is how [DuckPond] uses the
    class (every [cache.set] is given a new object literal);
    [LRUCacheRef] below is the class over shared objects, and
    [set_by_value] and [get_by_value] relate the two. *)

Module LRUCache.

Record t := mk {
  cache : JsMap.t;
  maxSize : Z
}.

(** [constructor(maxSize)] *)
Definition new (maxSize : Z) : t := {| cache := []; maxSize := maxSize |}.

(** [get(key)], where [now] is the value of [new Date()] taken on a hit.
    The refreshed item is the one kept in the map and the one returned:
    both are the same object. *)
Definition get (now : Z) (key : string) (c : t) : option UserDatabase * t :=
  match JsMap.get key (cache c) with
  | None => (None, c)
  | Some item =>
      let m1 := JsMap.remove key (cache c) in
      let item' := set_lastAccess now item in
      let m2 := JsMap.set key item' m1 in
      (Some item', {| cache := m2; maxSize := maxSize c |})
  end.

Definition has (key : string) (c : t) : bool := JsMap.has key (cache c).

(** [getLRU()]: the first key of the map. *)
Definition getLRU (c : t) : option string :=
  match cache c with
  | [] => None
  | (k, _) :: _ => Some k
  end.

(** [private evictLRU()] *)
Definition evictLRU (c : t) : t :=
  match getLRU c with
  | None => c
  | Some key => {| cache := JsMap.remove key (cache c); maxSize := maxSize c |}
  end.

(** [set(key, value)], where [now] is the value of [new Date()]. *)
Definition set (now : Z) (key : string) (value : UserDatabase) (c : t) : t :=
  let c1 := if JsMap.has key (cache c)
            then {| cache := JsMap.remove key (cache c); maxSize := maxSize c |}
            else c in
  let c2 := if JsMap.size (cache c1) >=? maxSize c1 then evictLRU c1 else c1 in
  {| cache := JsMap.set key (set_lastAccess now value) (cache c2);
     maxSize := maxSize c2 |}.

(** [delete(key)] *)
Definition delete (key : string) (c : t) : bool * t :=
  let (deleted, m) := JsMap.delete key (cache c) in
  (deleted, {| cache := m; maxSize := maxSize c |}).

(** [getStale(timeoutMs)], where [now] is the value of [Date.now()]. *)
Definition getStale (now : Z) (timeoutMs : Z) (c : t) : list string :=
  map fst
    (filter (fun kv => now - lastAccess (snd kv) >? timeoutMs) (cache c)).

Definition size (c : t) : Z := JsMap.size (cache c).

(** [clear()] *)
Definition clear (c : t) : t := {| cache := []; maxSize := maxSize c |}.

Definition values (c : t) : list UserDatabase := JsMap.values (cache c).

Definition keys (c : t) : list string := JsMap.keys (cache c).

(** [values.sort((a, b) => a.lastAccess.getTime() - b.lastAccess.getTime())]:
    [Array.prototype.sort] is stable, so that values with the same
    [lastAccess] keep the order they have in the array.  [insert_by_lastAccess
    x l] puts [x], which stood before the values of [l] in the array, into
    the sorted [l]: before the first value that the comparator does not put
    before [x]. *)
Fixpoint insert_by_lastAccess (x : UserDatabase) (l : list UserDatabase)
    : list UserDatabase :=
  match l with
  | [] => [x]
  | y :: rest =>
      if lastAccess y - lastAccess x <? 0
      then y :: insert_by_lastAccess x rest
      else x :: l
  end.

Definition sort_by_lastAccess (l : list UserDatabase) : list UserDatabase :=
  fold_right insert_by_lastAccess [] l.

(** The result of [getStats()], without [utilizationPercent], which is a
    floating-point quotient.  [oldestAccessTime] is
    [Option(sorted[0]).map((item) => item.lastAccess)]. *)
Record Stats := mkStats {
  stats_size : Z;
  stats_maxSize : Z;
  oldestAccessTime : option Z
}.

Definition getStats (c : t) : Stats :=
  let sorted := sort_by_lastAccess (values c) in
  {| stats_size := JsMap.size (cache c);
     stats_maxSize := maxSize c;
     oldestAccessTime := option_map lastAccess (hd_error sorted) |}.

(** The operations of the class that a client can call, for statements
    about arbitrary call sequences. *)
Inductive Op :=
| OpGet (now : Z) (key : string)
| OpSet (now : Z) (key : string) (value : UserDatabase)
| OpDelete (key : string)
| OpClear.

Definition step (c : t) (o : Op) : t :=
  match o with
  | OpGet now key => snd (get now key c)
  | OpSet now key value => set now key value c
  | OpDelete key => snd (delete key c)
  | OpClear => clear c
  end.

Definition run (ops : list Op) (c : t) : t := fold_left step ops c.

End LRUCache.

(** ** Configuration, errors and results ([src/types.ts], [src/utils/errors.ts]) *)

Inductive CacheType := CacheDisk | CacheMemory | CacheNoop.

Inductive Strategy := Parquet | Duckdb | Hybrid.

Definition is_duckdb (s : Strategy) : bool :=
  match s with Duckdb => true | _ => false end.

Record R2Config := mkR2 {
  r2_accountId : string;
  r2_accessKeyId : string;
  r2_secretAccessKey : string;
  r2_bucket : string
}.

Record S3Config := mkS3 {
  s3_region : string;
  s3_accessKeyId : string;
  s3_secretAccessKey : string;
  s3_bucket : string;
  s3_endpoint : option string
}.

(** interface DuckPondConfig: every setting is optional. *)
Record DuckPondConfig := mkConfig {
  cfg_r2 : option R2Config;
  cfg_s3 : option S3Config;
  cfg_memoryLimit : option string;
  cfg_threads : option Z;
  cfg_tempDir : option string;
  cfg_maxActiveUsers : option Z;
  cfg_evictionTimeout : option Z;
  cfg_cacheType : option CacheType;
  cfg_cacheDir : option string;
  cfg_strategy : option Strategy
}.

(** type ResolvedConfig *)
Record ResolvedConfig := mkResolved {
  memoryLimit : string;
  threads : Z;
  tempDir : string;
  maxActiveUsers : Z;
  evictionTimeout : Z;
  cacheType : CacheType;
  cacheDir : string;
  strategy : Strategy;
  r2 : option R2Config;
  s3 : option S3Config
}.

(** [x || d] on an optional string: [undefined] and the empty string are
    falsy. *)
Definition or_string (x : option string) (d : string) : string :=
  match x with
  | Some s => if String.eqb s "" then d else s
  | None => d
  end.

(** [x || d] on an optional number: [undefined] and [0] are falsy. *)
Definition or_number (x : option Z) (d : Z) : Z :=
  match x with
  | Some n => if n =? 0 then d else n
  | None => d
  end.

Definition or_else {A : Type} (x : option A) (d : A) : A :=
  match x with Some a => a | None => d end.

(** enum ErrorCode *)
Inductive ErrorCode :=
| CONNECTION_FAILED | CONNECTION_TIMEOUT | R2_CONNECTION_ERROR
| S3_CONNECTION_ERROR | USER_NOT_FOUND | USER_ALREADY_EXISTS
| USER_NOT_ATTACHED | QUERY_EXECUTION_ERROR | QUERY_TIMEOUT | INVALID_SQL
| MEMORY_LIMIT_EXCEEDED | STORAGE_ERROR | STORAGE_QUOTA_EXCEEDED
| INVALID_CONFIG | NOT_INITIALIZED | UNKNOWN_ERROR.

(** A value raised by [throw]: an [Error] with its message, or any other
    value, of which only [String(value)] is ever observed. *)
Inductive JsValue :=
| JsError (message : string)
| JsOther (asString : string).

(** interface DuckPondError *)
Record DuckPondError := mkError {
  code : ErrorCode;
  message : string;
  cause : option JsValue;
  context : option (list (string * string))
}.

Inductive Either (L R : Type) :=
| Left (l : L)
| Right (r : R).
Arguments Left {L R} l.
Arguments Right {L R} r.

Definition DuckPondResult (A : Type) := Either DuckPondError A.

Definition isLeft {L R : Type} (e : Either L R) : bool :=
  match e with Left _ => true | Right _ => false end.

Definition isRight {L R : Type} (e : Either L R) : bool :=
  match e with Left _ => false | Right _ => true end.

Definition createError {A : Type} (c : ErrorCode) (msg : string)
    (cause : option JsValue) (context : option (list (string * string)))
    : DuckPondResult A :=
  Left {| code := c; message := msg; cause := cause; context := context |}.

Definition success {A : Type} (value : A) : DuckPondResult A := Right value.

Definition toDuckPondError (error : JsValue) (defaultCode : ErrorCode)
    : DuckPondError :=
  match error with
  | JsError msg =>
      {| code := defaultCode; message := msg; cause := Some error;
         context := None |}
  | JsOther s =>
      {| code := defaultCode; message := s; cause := None; context := None |}
  end.

Module Errors.

Definition r2ConnectionError {A : Type} (msg : string) (cause : JsValue)
    : DuckPondResult A :=
  createError R2_CONNECTION_ERROR msg (Some cause) None.

Definition userNotFound {A : Type} (userId : string) : DuckPondResult A :=
  createError USER_NOT_FOUND ("User not found: " ++ userId)%string None
    (Some [("userId", userId)]).

Definition storageError {A : Type} (msg : string) (cause : JsValue)
    : DuckPondResult A :=
  createError STORAGE_ERROR msg (Some cause) None.

Definition notInitialized {A : Type} : DuckPondResult A :=
  createError NOT_INITIALIZED "DuckPond not initialized. Call init() first."
    None None.

End Errors.

(** ** The engine boundary and the clock *)

(** An opaque [DuckDBInstance], named by the index of the call that created
    it. *)
Definition DuckDBInstance := nat.

(** A timer handle returned by [setInterval]. *)
Definition Timeout := nat.

(** The statements [DuckPond.ts] sends to [conn.run], with the values it
    interpolates into them; [UserSql] is a statement given by the caller. *)
Inductive Sql :=
| CreateR2Secret (accountId accessKeyId secretAccessKey : string)
| CreateS3Secret (region : string) (endpoint : option string)
    (accessKeyId secretAccessKey : string)
| LoadHttpfs
| SetCacheType (c : CacheType)
| SetPerformance (memoryLimit : string) (threads : Z)
| Attach (dbPath alias : string)
| Detach (alias : string)
| UserSql (text : string).

(** The rows of a result are opaque records. *)
Definition Row := string.

(** How a call ends: it returns a value or raises one. *)
Inductive Completion (A : Type) :=
| Normal (a : A)
| Throw (e : JsValue).
Arguments Normal {A} a.
Arguments Throw {A} e.

(** Everything outside the repository.  The [nat] argument is the number of
    external interactions made before this one, so an oracle may answer
    differently each time it is asked.  For the engine calls [None] means
    that the promise resolves and [Some e] that it rejects with [e].
    [sched n] lists, by position, the suspended detach calls whose engine
    promise settles while the caller waits for interaction [n]. *)
Record World := mkWorld {
  clock : nat -> Z;
  instance_create : nat -> option JsValue;
  instance_connect : nat -> DuckDBInstance -> option JsValue;
  conn_run : nat -> DuckDBConnection -> Sql -> option JsValue;
  result_getRowObjects : nat -> DuckDBConnection -> Sql -> Completion (list Row);
  sched : nat -> list nat
}.

(** ** State of a [DuckPond] object and of the runtime around it *)

(** A [detachUser] call suspended at [await userDb.connection.run(...)]:
    the tenant it is detaching and how the engine call will end. *)
Record Suspended := mkSuspended {
  suspendedUser : string;
  suspendedOutcome : option JsValue
}.

Record Pond := mkPond {
  (* fields of class DuckPond *)
  instance : option DuckDBInstance;
  cache : LRUCache.t;
  config : ResolvedConfig;
  evictionTimer : option Timeout;
  initialized : bool;
  (* the runtime *)
  tick : nat;                    (* external interactions made so far *)
  inFlight : list Suspended;     (* detach calls nobody awaits, not yet settled *)
  activeTimers : list Timeout    (* intervals set and not cleared *)
}.

Definition with_instance (i : option DuckDBInstance) (s : Pond) : Pond :=
  mkPond i (cache s) (config s) (evictionTimer s) (initialized s)
    (tick s) (inFlight s) (activeTimers s).

Definition with_cache (c : LRUCache.t) (s : Pond) : Pond :=
  mkPond (instance s) c (config s) (evictionTimer s) (initialized s)
    (tick s) (inFlight s) (activeTimers s).

Definition with_evictionTimer (t : option Timeout) (s : Pond) : Pond :=
  mkPond (instance s) (cache s) (config s) t (initialized s)
    (tick s) (inFlight s) (activeTimers s).

Definition with_initialized (b : bool) (s : Pond) : Pond :=
  mkPond (instance s) (cache s) (config s) (evictionTimer s) b
    (tick s) (inFlight s) (activeTimers s).

Definition with_tick (n : nat) (s : Pond) : Pond :=
  mkPond (instance s) (cache s) (config s) (evictionTimer s) (initialized s)
    n (inFlight s) (activeTimers s).

Definition with_inFlight (l : list Suspended) (s : Pond) : Pond :=
  mkPond (instance s) (cache s) (config s) (evictionTimer s) (initialized s)
    (tick s) l (activeTimers s).

Definition with_activeTimers (l : list Timeout) (s : Pond) : Pond :=
  mkPond (instance s) (cache s) (config s) (evictionTimer s) (initialized s)
    (tick s) (inFlight s) l.

(** [constructor(config)]: defaults applied with [||]. *)
Definition resolve (cfg : DuckPondConfig) : ResolvedConfig :=
  {| memoryLimit := or_string (cfg_memoryLimit cfg) "4GB";
     threads := or_number (cfg_threads cfg) 4;
     tempDir := or_string (cfg_tempDir cfg) "/tmp/duckpond";
     maxActiveUsers := or_number (cfg_maxActiveUsers cfg) 10;
     evictionTimeout := or_number (cfg_evictionTimeout cfg) 300000;
     cacheType := or_else (cfg_cacheType cfg) CacheDisk;
     cacheDir := or_string (cfg_cacheDir cfg) "/tmp/duckpond-cache";
     strategy := or_else (cfg_strategy cfg) Parquet;
     r2 := cfg_r2 cfg;
     s3 := cfg_s3 cfg |}.

Definition new_DuckPond (cfg : DuckPondConfig) : Pond :=
  let rc := resolve cfg in
  {| instance := None;
     cache := LRUCache.new (maxActiveUsers rc);
     config := rc;
     evictionTimer := None;
     initialized := false;
     tick := 0%nat;
     inFlight := [];
     activeTimers := [] |}.

(** ** Asynchronous code as state passing

    A computation takes the state and ends normally or by raising a value;
    the state it leaves behind is kept in both cases. *)

Definition M (A : Type) := Pond -> Completion A * Pond.

Definition ret {A : Type} (a : A) : M A := fun s => (Normal a, s).

Definition throw {A : Type} (e : JsValue) : M A := fun s => (Throw e, s).

Definition bind {A B : Type} (m : M A) (f : A -> M B) : M B :=
  fun s =>
    match m s with
    | (Normal a, s') => f a s'
    | (Throw e, s') => (Throw e, s')
    end.

(** [try { m } catch (error) { h error }] *)
Definition try_catch {A : Type} (m : M A) (h : JsValue -> M A) : M A :=
  fun s =>
    match m s with
    | (Normal a, s') => (Normal a, s')
    | (Throw e, s') => h e s'
    end.

Definition gets {A : Type} (f : Pond -> A) : M A := fun s => (Normal (f s), s).

Definition modify (f : Pond -> Pond) : M unit := fun s => (Normal tt, f s).

Declare Scope pond_scope.
Delimit Scope pond_scope with pond.
Notation "x <- m ;; k" := (bind m (fun x => k))
  (at level 61, m at next level, right associativity) : pond_scope.
Notation "m ;; k" := (bind m (fun _ => k))
  (at level 61, right associativity) : pond_scope.
Open Scope pond_scope.

Fixpoint mapM {A B : Type} (f : A -> M B) (l : list A) : M (list B) :=
  match l with
  | [] => ret []
  | x :: rest => y <- f x ;; ys <- mapM f rest ;; ret (y :: ys)
  end.

Fixpoint forEach {A : Type} (f : A -> M unit) (l : list A) : M unit :=
  match l with
  | [] => ret tt
  | x :: rest => f x ;; forEach f rest
  end.

(** The element at position [i] and the list without it. *)
Fixpoint extract {A : Type} (i : nat) (l : list A) : option (A * list A) :=
  match l, i with
  | [], _ => None
  | x :: rest, O => Some (x, rest)
  | x :: rest, S j =>
      match extract j rest with
      | Some (y, rest') => Some (y, x :: rest')
      | None => None
      end
  end.

(** How a call of [detachUser] stands when it first gives up control: it
    has returned, or it waits for the engine. *)
Inductive Started :=
| Returned (r : DuckPondResult unit)
| Awaiting (p : Suspended).

Definition awaiting (l : list Started) : list Suspended :=
  flat_map (fun st => match st with Returned _ => [] | Awaiting p => [p] end) l.

(** ** [class DuckPond] *)

Section DuckPond.

Variable w : World.

(** One external interaction: its index. *)
Definition interact : M nat :=
  fun s => (Normal (tick s), with_tick (S (tick s)) s).

(** [new Date()] and [Date.now()] *)
Definition new_Date : M Z := n <- interact ;; ret (clock w n).

(** [this.cache.get(key)]; the clock is read on a hit only. *)
Definition cache_get (key : string) : M (option UserDatabase) :=
  fun s =>
    match LRUCache.get (clock w (tick s)) key (cache s) with
    | (Some item, c) =>
        (Normal (Some item), with_tick (S (tick s)) (with_cache c s))
    | (None, _) => (Normal None, s)
    end.

(** [this.cache.set(key, value)] *)
Definition cache_set (key : string) (value : UserDatabase) : M unit :=
  now <- new_Date ;;
  modify (fun s => with_cache (LRUCache.set now key value (cache s)) s).

(** [this.cache.delete(key)] *)
Definition cache_delete (key : string) : M bool :=
  fun s =>
    let (deleted, c) := LRUCache.delete key (cache s) in
    (Normal deleted, with_cache c s).

(** The rest of [detachUser] after [await userDb.connection.run(...)]. *)
Definition detachUser_resume (p : Suspended) : M (DuckPondResult unit) :=
  match suspendedOutcome p with
  | None => _ <- cache_delete (suspendedUser p) ;; ret (success tt)
  | Some error => ret (Errors.storageError "Failed to detach user" error)
  end.

(** The suspended detach at position [i] runs to its end; nobody receives
    its result. *)
Definition settle (i : nat) : M unit :=
  fun s =>
    match extract i (inFlight s) with
    | None => (Normal tt, s)
    | Some (p, rest) =>
        (_ <- detachUser_resume p ;; ret tt) (with_inFlight rest s)
    end.

(** Control goes back to the event loop while an engine promise is
    pending: the suspended detach calls chosen by the scheduler finish. *)
Definition yield : M unit :=
  n <- interact ;; forEach settle (sched w n).

(** [await p] for an engine promise [p] that ends as [r]. *)
Definition await {A : Type} (r : Completion A) : M A :=
  yield ;; (fun s => (r, s)).

Definition completion_of {A : Type} (a : A) (o : option JsValue) : Completion A :=
  match o with None => Normal a | Some e => Throw e end.

(** [await DuckDBInstance.create(":memory:")] *)
Definition DuckDBInstance_create : M DuckDBInstance :=
  n <- interact ;; await (completion_of n (instance_create w n)).

(** [await instance.connect()] *)
Definition connect (inst : DuckDBInstance) : M DuckDBConnection :=
  n <- interact ;; await (completion_of n (instance_connect w n inst)).

(** [await conn.run(sql)] *)
Definition run (conn : DuckDBConnection) (sql : Sql) : M unit :=
  n <- interact ;; await (completion_of tt (conn_run w n conn sql)).

(** [await resultObj.getRowObjects()] *)
Definition getRowObjects (conn : DuckDBConnection) (sql : Sql) : M (list Row) :=
  n <- interact ;; await (result_getRowObjects w n conn sql).

(** [detachUser(userId)] up to the point where it first gives up control. *)
Definition detachUser_start (userId : string) : M Started :=
  cached <- cache_get userId ;;
  match cached with
  | None => ret (Returned (success tt))
  | Some userDb =>
      cfg <- gets config ;;
      if is_duckdb (strategy cfg) then
        n <- interact ;;
        ret (Awaiting
               {| suspendedUser := userId;
                  suspendedOutcome :=
                    conn_run w n (connection userDb)
                      (Detach ("user_" ++ userId)%string) |})
      else
        _ <- cache_delete userId ;;
        ret (Returned (success tt))
  end.

(** [await this.detachUser(userId)] *)
Definition detachUser (userId : string) : M (DuckPondResult unit) :=
  st <- detachUser_start userId ;;
  match st with
  | Returned r => ret r
  | Awaiting p => yield ;; detachUser_resume p
  end.

(** [this.detachUser(userId)] inside a callback whose promise is dropped:
    what is left of the call after its first [await] joins [inFlight]. *)
Definition detachUser_detached (userId : string) : M unit :=
  st <- detachUser_start userId ;;
  match st with
  | Returned _ => ret tt
  | Awaiting p => modify (fun s => with_inFlight (inFlight s ++ [p]) s)
  end.

(** [private evictLRU()] *)
Definition evictLRU : M unit :=
  c <- gets cache ;;
  match LRUCache.getLRU c with
  | None => ret tt
  | Some userId => detachUser_detached userId
  end.

(** [private startEvictionTimer()] *)
Definition startEvictionTimer : M unit :=
  timer <- interact ;;
  modify (fun s =>
    with_evictionTimer (Some timer)
      (with_activeTimers (activeTimers s ++ [timer]) s)).

(** The callback given to [setInterval]. *)
Definition evictionTimer_callback : M unit :=
  now <- new_Date ;;
  c <- gets cache ;;
  cfg <- gets config ;;
  forEach detachUser_detached (LRUCache.getStale now (evictionTimeout cfg) c).

(** [private setupCloudStorage()] *)
Definition setupCloudStorage : M (DuckPondResult unit) :=
  i <- gets instance ;;
  match i with
  | None => ret Errors.notInitialized
  | Some inst =>
      conn <- connect inst ;;
      cfg <- gets config ;;
      try_catch
        (match r2 cfg, s3 cfg with
         | Some r, _ =>
             run conn (CreateR2Secret (r2_accountId r) (r2_accessKeyId r)
                         (r2_secretAccessKey r))
         | None, Some s =>
             run conn (CreateS3Secret (s3_region s)
                         (match s3_endpoint s with
                          | Some e => if String.eqb e "" then None else Some e
                          | None => None
                          end)
                         (s3_accessKeyId s) (s3_secretAccessKey s))
         | None, None => ret tt
         end ;;
         match r2 cfg, s3 cfg with
         | None, None => ret tt
         | _, _ => run conn LoadHttpfs ;; run conn (SetCacheType (cacheType cfg))
         end ;;
         run conn (SetPerformance (memoryLimit cfg) (threads cfg)) ;;
         ret (success tt))
        (fun error =>
           ret (Errors.r2ConnectionError "Failed to setup cloud storage" error))
  end.

(** [init()] *)
Definition init : M (DuckPondResult unit) :=
  b <- gets initialized ;;
  if b then ret (success tt)
  else
    try_catch
      (inst <- DuckDBInstance_create ;;
       modify (with_instance (Some inst)) ;;
       setupResult <- setupCloudStorage ;;
       match setupResult with
       | Left error =>
           throw (JsError (or_string (Some (message error))
                             "Cloud storage setup failed"))
       | Right _ =>
           startEvictionTimer ;;
           modify (with_initialized true) ;;
           ret (success tt)
       end)
      (fun error => ret (Left (toDuckPondError error CONNECTION_FAILED))).

(** [private attachUserDatabase(conn, userId)] *)
Definition attachUserDatabase (conn : DuckDBConnection) (userId : string)
    : M (DuckPondResult unit) :=
  cfg <- gets config ;;
  try_catch
    (let bucket :=
       match r2 cfg with
       | Some r => if String.eqb (r2_bucket r) ""
                   then option_map s3_bucket (s3 cfg)
                   else Some (r2_bucket r)
       | None => option_map s3_bucket (s3 cfg)
       end in
     let protocol := match r2 cfg with Some _ => "r2" | None => "s3" end in
     (if is_duckdb (strategy cfg) then
        let dbPath :=
          (protocol ++ "://" ++ or_else bucket "undefined" ++ "/users/"
             ++ userId ++ "/database.duckdb")%string in
        run conn (Attach dbPath ("user_" ++ userId)%string)
      else ret tt) ;;
     ret (success tt))
    (fun error =>
       ret (Errors.storageError "Failed to attach user database" error)).

(** [getUserConnection(userId)] *)
Definition getUserConnection (userId : string)
    : M (DuckPondResult DuckDBConnection) :=
  b <- gets initialized ;;
  if negb b then ret Errors.notInitialized
  else
    cached <- cache_get userId ;;
    match cached with
    | Some userDb => ret (success (connection userDb))
    | None =>
        c <- gets cache ;;
        cfg <- gets config ;;
        (if LRUCache.size c >=? maxActiveUsers cfg then evictLRU else ret tt) ;;
        i <- gets instance ;;
        match i with
        | None => ret Errors.notInitialized
        | Some inst =>
            conn <- connect inst ;;
            attachResult <- attachUserDatabase conn userId ;;
            match attachResult with
            | Left error => ret (Left error)
            | Right _ =>
                now <- new_Date ;;
                cache_set userId
                  {| userId := userId; connection := conn; lastAccess := now;
                     attached := true; memoryUsage := None |} ;;
                ret (success conn)
            end
        end
    end.

(** [query(userId, sql)] *)
Definition query (userId : string) (sql : string)
    : M (DuckPondResult (list Row)) :=
  connResult <- getUserConnection userId ;;
  match connResult with
  | Left error => ret (Left error)
  | Right conn =>
      try_catch
        (run conn (UserSql sql) ;;
         rows <- getRowObjects conn (UserSql sql) ;;
         ret (success rows))
        (fun error => ret (Left (toDuckPondError error QUERY_EXECUTION_ERROR)))
  end.

(** [execute(userId, sql)] *)
Definition execute (userId : string) (sql : string) : M (DuckPondResult unit) :=
  connResult <- getUserConnection userId ;;
  match connResult with
  | Left error => ret (Left error)
  | Right conn =>
      try_catch
        (run conn (UserSql sql) ;; ret (success tt))
        (fun error => ret (Left (toDuckPondError error QUERY_EXECUTION_ERROR)))
  end.

(** [isAttached(userId)] *)
Definition isAttached (userId : string) (s : Pond) : bool :=
  LRUCache.has userId (cache s).

(** interface UserStats *)
Record UserStats := mkUserStats {
  stats_userId : string;
  stats_attached : bool;
  stats_lastAccess : Z;
  stats_memoryUsage : Z;
  stats_storageUsage : Z;
  stats_queryCount : Z
}.

(** [getUserStats(userId)] *)
Definition getUserStats (userId : string) : M (DuckPondResult UserStats) :=
  cached <- cache_get userId ;;
  ret (success
         {| stats_userId := userId;
            stats_attached := match cached with Some _ => true | None => false end;
            stats_lastAccess :=
              match cached with Some u => lastAccess u | None => 0 end;
            stats_memoryUsage :=
              match cached with
              | Some u => or_number (memoryUsage u) 0
              | None => 0
              end;
            stats_storageUsage := 0;
            stats_queryCount := 0 |}).

(** interface ListUsersResult, without [utilizationPercent], which is a
    floating-point quotient. *)
Record ListUsersResult := mkListUsers {
  users : list string;
  count : Z;
  list_maxActiveUsers : Z
}.

(** [listUsers()] *)
Definition listUsers (s : Pond) : ListUsersResult :=
  let stats := LRUCache.getStats (cache s) in
  let keys := LRUCache.keys (cache s) in
  {| users := keys;
     count := LRUCache.stats_size stats;
     list_maxActiveUsers := LRUCache.stats_maxSize stats |}.

(** [clearInterval(timer)] *)
Definition clearInterval (timer : Timeout) : M unit :=
  modify (fun s =>
    with_activeTimers
      (filter (fun t => negb (Nat.eqb t timer)) (activeTimers s)) s).

(** [await Promise.all(promises)] for the promises of started [detachUser]
    calls: control returns once each of them has run to its end. *)
Definition Promise_all (started : list Started) : M unit :=
  match awaiting started with
  | [] => ret tt
  | ps => yield ;; forEach (fun p => _ <- detachUser_resume p ;; ret tt) ps
  end.

(** [close()] *)
Definition close : M (DuckPondResult unit) :=
  t <- gets evictionTimer ;;
  match t with Some timer => clearInterval timer | None => ret tt end ;;
  c <- gets cache ;;
  detachPromises <- mapM detachUser_start (LRUCache.keys c) ;;
  Promise_all detachPromises ;;
  modify (with_instance None) ;;
  modify (with_initialized false) ;;
  ret (success tt).

(** ** Sequences of calls and events *)

Inductive Call :=
| CallInit
| CallGetUserConnection (userId : string)
| CallQuery (userId sql : string)
| CallExecute (userId sql : string)
| CallDetachUser (userId : string)
| CallGetUserStats (userId : string)
| CallIsAttached (userId : string)
| CallListUsers
| CallClose
| TimerFires (timer : Timeout)
| Settles (i : nat).

(** The state after a call or an event; a raised value leaves the state it
    was raised in. *)
Definition step (s : Pond) (c : Call) : Pond :=
  match c with
  | CallInit => snd (init s)
  | CallGetUserConnection u => snd (getUserConnection u s)
  | CallQuery u sql => snd (query u sql s)
  | CallExecute u sql => snd (execute u sql s)
  | CallDetachUser u => snd (detachUser u s)
  | CallGetUserStats u => snd (getUserStats u s)
  | CallIsAttached _ => s
  | CallListUsers => s
  | CallClose => snd (close s)
  | TimerFires timer =>
      if existsb (Nat.eqb timer) (activeTimers s)
      then snd (evictionTimer_callback s)
      else s
  | Settles i => snd (settle i s)
  end.

(** A client that makes its calls one after another, awaiting each before
    it makes the next; between two calls the timer may fire and suspended
    detach calls may finish.  (Inside a call, the suspended detach calls are
    the only other code that runs: see [yield].) *)
Definition run_calls (calls : list Call) (s : Pond) : Pond :=
  fold_left step calls s.

End DuckPond.

(** ** Vocabulary of the statements *)

(** Invariant of the class: the capacity is [n] and at most [n] entries are held. *)
Definition bounded (n : Z) (c : LRUCache.t) : Prop :=
  LRUCache.maxSize c = n /\ LRUCache.size c <= n.

(** The keys of a [Map] are distinct. *)
Definition distinct (c : LRUCache.t) : Prop := NoDup (LRUCache.keys c).

(** [m] keeps the invariant [I], whether it returns or raises. *)
Definition preserves (I : Pond -> Prop) {A : Type} (m : M A) : Prop :=
  forall s, I s -> I (snd (m s)).

(** ** A world in which every engine call succeeds *)

Definition calm : World :=
  {| clock := fun n => 1000 * Z.of_nat n;
     instance_create := fun _ => None;
     instance_connect := fun _ _ => None;
     conn_run := fun _ _ _ => None;
     result_getRowObjects := fun _ _ _ => Normal [];
     sched := fun _ => [] |}.

Definition config_with (maxUsers : Z) (st : Strategy) : DuckPondConfig :=
  {| cfg_r2 := None; cfg_s3 := None; cfg_memoryLimit := Some "1GB";
     cfg_threads := None; cfg_tempDir := None;
     cfg_maxActiveUsers := Some maxUsers; cfg_evictionTimeout := None;
     cfg_cacheType := None; cfg_cacheDir := None; cfg_strategy := Some st |}.

(** The statistics [getUserStats] reports for a tenant that is not cached. *)
Definition stats_absent (userId : string) : UserStats :=
  {| stats_userId := userId; stats_attached := false; stats_lastAccess := 0;
     stats_memoryUsage := 0; stats_storageUsage := 0; stats_queryCount := 0 |}.


(** How the engine ends a [query] whose statement it receives as
    interaction [n]: [conn.run] rejects, or else [getRowObjects], two
    interactions later, returns the rows or rejects. *)
Definition engine_query (w : World) (n : nat) (conn : DuckDBConnection)
    (sql : string) : Completion (list Row) :=
  match conn_run w n conn (UserSql sql) with
  | Some e => Throw e
  | None => result_getRowObjects w (S (S n)) conn (UserSql sql)
  end.

(** ** Sample states *)

Definition tenant (u : string) (conn : DuckDBConnection) (t : Z) : UserDatabase :=
  {| userId := u; connection := conn; lastAccess := t; attached := true;
     memoryUsage := None |}.

(** An initialized manager that holds the given entries. *)
Definition pond_with (st : Strategy) (maxUsers : Z) (entries : JsMap.t) : Pond :=
  {| instance := Some 0%nat;
     cache := LRUCache.mk entries maxUsers;
     config := resolve (config_with maxUsers st);
     evictionTimer := Some 6%nat;
     initialized := true;
     tick := 100%nat;
     inFlight := [];
     activeTimers := [6%nat] |}.

(** A world in which the engine rejects every [DETACH]. *)
Definition detach_fails : World :=
  {| clock := fun n => 1000 * Z.of_nat n;
     instance_create := fun _ => None;
     instance_connect := fun _ _ => None;
     conn_run := fun _ _ sql =>
       match sql with
       | Detach _ => Some (JsError "Catalog Error: database is in use")
       | _ => None
       end;
     result_getRowObjects := fun _ _ _ => Normal [];
     sched := fun _ => [0%nat] |}.

(** A world in which the engine rejects every caller statement. *)
Definition query_fails : World :=
  {| clock := fun n => 1000 * Z.of_nat n;
     instance_create := fun _ => None;
     instance_connect := fun _ _ => None;
     conn_run := fun _ _ sql =>
       match sql with
       | UserSql _ =>
           Some (JsError "Catalog Error: Table nonexistent_table does not exist")
       | _ => None
       end;
     result_getRowObjects := fun _ _ _ => Normal [];
     sched := fun _ => [] |}.

(** A world in which [instance.connect()] rejects from interaction 7 on,
    that is, once [init] is over. *)
Definition connect_fails : World :=
  {| clock := fun n => 1000 * Z.of_nat n;
     instance_create := fun _ => None;
     instance_connect := fun n _ =>
       if (n <? 7)%nat then None else Some (JsError "IO Error: out of memory");
     conn_run := fun _ _ _ => None;
     result_getRowObjects := fun _ _ _ => Normal [];
     sched := fun _ => [] |}.

(** [m] returns a value from every state: it never raises. *)
Definition never_throws {A : Type} (m : M A) : Prop :=
  forall s, exists a, fst (m s) = Normal a.

(** The engine accepts whatever it is asked as interaction [n]. *)
Definition engine_ok (w : World) (n : nat) : Prop :=
  instance_create w n = None
  /\ (forall inst, instance_connect w n inst = None)
  /\ (forall conn sql, conn_run w n conn sql = None).

(** [s'] differs from [s] at most by external interactions having been
    made. *)
Definition only_ticks (s s' : Pond) : Prop :=
  instance s' = instance s /\ cache s' = cache s /\ config s' = config s
  /\ evictionTimer s' = evictionTimer s /\ initialized s' = initialized s
  /\ inFlight s' = inFlight s /\ activeTimers s' = activeTimers s
  /\ (tick s <= tick s')%nat.



(** The call returned, and what it returned is a success. *)
Definition isRight_result {A : Type} (r : Completion (DuckPondResult A)) : bool :=
  match r with Normal (Right _) => true | _ => false end.

(** ** The cache seen as its list of keys, oldest first *)

Definition mem (key : string) (ks : list string) : bool :=
  existsb (String.eqb key) ks.

Definition without (key : string) (ks : list string) : list string :=
  filter (fun k => negb (String.eqb k key)) ks.

(** The keys left when the first one is evicted. *)
Definition evict_first (ks : list string) : list string :=
  match ks with
  | [] => []
  | k :: _ => without k ks
  end.

(** The keys after [LRUCache.get key]. *)
Definition keys_get (key : string) (ks : list string) : list string :=
  if mem key ks then without key ks ++ [key] else ks.

(** The keys after [LRUCache.set key _] in a cache of capacity [maxSize]. *)
Definition keys_set (maxSize : Z) (key : string) (ks : list string)
    : list string :=
  let ks1 := if mem key ks then without key ks else ks in
  let ks2 := if Z.of_nat (List.length ks1) >=? maxSize
             then evict_first ks1 else ks1 in
  ks2 ++ [key].

(** The keys after a successful [getUserConnection key] when detaching has
    no engine step: a hit refreshes the key; a miss first evicts the oldest
    key if the manager is at [capacity], then inserts. *)
Definition keys_acquire (capacity maxSize : Z) (key : string)
    (ks : list string) : list string :=
  if mem key ks then keys_get key ks
  else
    keys_set maxSize key
      (if Z.of_nat (List.length ks) >=? capacity then evict_first ks else ks).



(** The tenant has no entry in the cache. *)
Definition absent (key : string) (s : Pond) : Prop :=
  JsMap.get key (LRUCache.cache (cache s)) = None.

(** The fields of [s] that only [init] and [close] write are those of [s0]. *)
Definition same_control (s0 s : Pond) : Prop :=
  instance s = instance s0 /\ config s = config s0
  /\ evictionTimer s = evictionTimer s0 /\ initialized s = initialized s0
  /\ activeTimers s = activeTimers s0.

(** Every [DETACH] the engine is asked to run succeeds. *)
Definition detach_succeeds (w : World) : Prop :=
  forall n conn alias, conn_run w n conn (Detach alias) = None.

(** A started [detachUser] has removed the tenant, or waits for a
    [DETACH] that will succeed. *)
Definition covered (key : string) (started : list Started) (s : Pond) : Prop :=
  absent key s
  \/ exists p, In p (awaiting started)
               /\ suspendedUser p = key /\ suspendedOutcome p = None.


(** For a [getUserConnection] that starts in [s] with nothing in flight
    and has to evict under [duckdb]: the engine accepts the [DETACH] it is
    sent (interaction [tick s + 1]) and the scheduler lets the suspended
    detach finish while the call awaits [instance.connect()] (interaction
    [tick s + 3]) or [ATTACH] (interaction [tick s + 5]), that is, before
    the new tenant is inserted. *)
Definition detach_settles_in_time (w : World) (s : Pond) : Prop :=
  (forall conn alias, conn_run w (S (tick s)) conn (Detach alias) = None)
  /\ (In 0%nat (sched w (3 + tick s)) \/ In 0%nat (sched w (5 + tick s))).

(** The eviction that [getUserConnection userId] may need in [s] is over
    before the new tenant is inserted: the tenant is cached, or the manager
    is below capacity, or detaching has no engine step, or the detach
    settles in time. *)
Definition eviction_in_order (w : World) (userId : string) (s : Pond) : Prop :=
  isAttached userId s = true
  \/ LRUCache.size (cache s) < maxActiveUsers (config s)
  \/ is_duckdb (strategy (config s)) = false
  \/ detach_settles_in_time w s.

(** A world in which every engine call succeeds and every suspended detach
    finishes at the next opportunity. *)
Definition prompt : World :=
  {| clock := fun n => 1000 * Z.of_nat n;
     instance_create := fun _ => None;
     instance_connect := fun _ _ => None;
     conn_run := fun _ _ _ => None;
     result_getRowObjects := fun _ _ _ => Normal [];
     sched := fun _ => [0%nat] |}.

(** The state of a manager on which [init] has not succeeded yet. *)
Definition pristine (s : Pond) : Prop :=
  initialized s = false /\ LRUCache.cache (cache s) = []
  /\ inFlight s = [] /\ activeTimers s = [].

(** ** Detach calls that nobody awaits *)

(** A [detachUser userId] that an eviction or the idle sweep started and did
    not await is still in flight after the engine accepted its [DETACH]:
    when it is resumed it removes the tenant. *)
Definition pending_detach (userId : string) (s : Pond) : bool :=
  existsb
    (fun p =>
       String.eqb (suspendedUser p) userId
       && match suspendedOutcome p with None => true | Some _ => false end)
    (inFlight s).

(** The tenant is cached and no pending detach will remove it. *)
Definition kept (userId : string) (s : Pond) : Prop :=
  isAttached userId s = true /\ pending_detach userId s = false.

(** A configuration whose idle timeout is [timeout] milliseconds. *)
Definition config_idle (maxUsers : Z) (st : Strategy) (timeout : Z)
    : DuckPondConfig :=
  {| cfg_r2 := None; cfg_s3 := None; cfg_memoryLimit := Some "1GB";
     cfg_threads := None; cfg_tempDir := None;
     cfg_maxActiveUsers := Some maxUsers; cfg_evictionTimeout := Some timeout;
     cfg_cacheType := None; cfg_cacheDir := None; cfg_strategy := Some st |}.

(** A world in which the engine rejects the statements of the caller and
    accepts everything else, and every suspended detach finishes at the
    next opportunity. *)
Definition query_fails_prompt : World :=
  {| clock := fun n => 1000 * Z.of_nat n;
     instance_create := fun _ => None;
     instance_connect := fun _ _ => None;
     conn_run := fun _ _ sql =>
       match sql with
       | UserSql _ =>
           Some (JsError "Catalog Error: Table nonexistent_table does not exist")
       | _ => None
       end;
     result_getRowObjects := fun _ _ _ => Normal [];
     sched := fun _ => [0%nat] |}.

(** A world in which the engine accepts the [DETACH] statements it is sent
    before interaction [n] and rejects the later ones, and every suspended
    detach finishes at the next opportunity. *)
Definition detach_fails_from (n : nat) : World :=
  {| clock := fun n => 1000 * Z.of_nat n;
     instance_create := fun _ => None;
     instance_connect := fun _ _ => None;
     conn_run := fun k _ sql =>
       match sql with
       | Detach _ =>
           if (k <? n)%nat then None
           else Some (JsError "Catalog Error: database is in use")
       | _ => None
       end;
     result_getRowObjects := fun _ _ _ => Normal [];
     sched := fun _ => [0%nat] |}.

(** ** Vocabulary of the further properties *)

(** An entry as [getUserConnection] builds it: stored under the tenant's
    own id and marked attached. *)
Definition entry_ok (kv : string * UserDatabase) : Prop :=
  userId (snd kv) = fst kv /\ attached (snd kv) = true.

Definition entries_ok (c : LRUCache.t) : Prop :=
  forall kv, In kv (LRUCache.cache c) -> entry_ok kv.

(** At most one interval is running, the one the manager holds, and none
    runs while the manager is not initialized. *)
Definition timers_ok (s : Pond) : Prop :=
  (activeTimers s = []
   \/ exists timer, activeTimers s = [timer] /\ evictionTimer s = Some timer)
  /\ (initialized s = false -> activeTimers s = []).

(** The entry was used at most [timeout] before [now]. *)
Definition fresh (now timeout : Z) (kv : string * UserDatabase) : bool :=
  negb (now - lastAccess (snd kv) >? timeout).

(** The fields that only [startEvictionTimer], [clearInterval] and the
    writes of [initialized] change. *)
Definition held (a : list Timeout) (t : option Timeout) (b : bool) (s : Pond)
    : Prop :=
  activeTimers s = a /\ evictionTimer s = t /\ initialized s = b.

(** The call asks for tenant [k]: it goes through [getUserConnection k]. *)
Definition names (k : string) (c : Call) : bool :=
  match c with
  | CallGetUserConnection u | CallQuery u _ | CallExecute u _ => String.eqb u k
  | _ => false
  end.

(** A world in which the engine rejects every [ATTACH]. *)
Definition attach_fails : World :=
  {| clock := fun n => 1000 * Z.of_nat n;
     instance_create := fun _ => None;
     instance_connect := fun _ _ => None;
     conn_run := fun _ _ sql =>
       match sql with
       | Attach _ _ => Some (JsError "IO Error: cannot open database")
       | _ => None
       end;
     result_getRowObjects := fun _ _ _ => Normal [];
     sched := fun _ => [0%nat] |}.

(** An initialized manager has its engine instance. *)
Definition ready (s : Pond) : Prop :=
  initialized s = true -> instance s <> None.

(** ** [class LRUCache] over shared objects

    The class as it behaves for a client that keeps the objects it stores:
    the map holds references, and [get] and [set] assign [lastAccess] on
    the object itself, so that the assignment shows under every key that
    holds the object. *)

Module LRUCacheRef.

(** A [UserDatabase] object, named by its address. *)
Definition Ref := nat.

(** What each object holds. *)
Definition Heap := Ref -> UserDatabase.

(** [o.lastAccess = now] for the object [o] at [r]. *)
Definition stamp (now : Z) (r : Ref) (h : Heap) : Heap :=
  fun r' => if Nat.eqb r' r then set_lastAccess now (h r') else h r'.

(** [Map<string, T>] in insertion order, its values being references. *)
Definition RefMap := list (string * Ref).

(** [Map.prototype.get] *)
Fixpoint lookup (key : string) (m : RefMap) : option Ref :=
  match m with
  | [] => None
  | (k, r) :: rest => if String.eqb k key then Some r else lookup key rest
  end.

(** [Map.prototype.delete] *)
Definition remove (key : string) (m : RefMap) : RefMap :=
  filter (fun kr => negb (String.eqb (fst kr) key)) m.

(** [Map.prototype.set] *)
Fixpoint insert (key : string) (r : Ref) (m : RefMap) : RefMap :=
  match m with
  | [] => [(key, r)]
  | (k, r0) :: rest =>
      if String.eqb k key then (k, r) :: rest
      else (k, r0) :: insert key r rest
  end.

Record t := mk {
  heap : Heap;
  cache : RefMap;
  maxSize : Z
}.

Definition has (key : string) (c : t) : bool :=
  match lookup key (cache c) with Some _ => true | None => false end.

Definition size (c : t) : Z := Z.of_nat (List.length (cache c)).

Definition keys (c : t) : list string := map fst (cache c).

(** [getLRU()] *)
Definition getLRU (c : t) : option string :=
  match cache c with
  | [] => None
  | (k, _) :: _ => Some k
  end.

(** [private evictLRU()] *)
Definition evictLRU (c : t) : t :=
  match getLRU c with
  | None => c
  | Some key =>
      {| heap := heap c; cache := remove key (cache c); maxSize := maxSize c |}
  end.

(** [get(key)]: the object found is moved to the end of the map and its
    [lastAccess] is assigned; the object itself is returned. *)
Definition get (now : Z) (key : string) (c : t) : option Ref * t :=
  match lookup key (cache c) with
  | None => (None, c)
  | Some item =>
      (Some item,
       {| heap := stamp now item (heap c);
          cache := insert key item (remove key (cache c));
          maxSize := maxSize c |})
  end.

(** [set(key, value)]: [lastAccess] is assigned on the object of the
    caller, which is then what the map holds. *)
Definition set (now : Z) (key : string) (value : Ref) (c : t) : t :=
  let c1 := if has key c
            then {| heap := heap c; cache := remove key (cache c);
                    maxSize := maxSize c |}
            else c in
  let c2 := if size c1 >=? maxSize c1 then evictLRU c1 else c1 in
  {| heap := stamp now value (heap c2);
     cache := insert key value (cache c2);
     maxSize := maxSize c2 |}.

(** [delete(key)] *)
Definition delete (key : string) (c : t) : bool * t :=
  (has key c,
   {| heap := heap c; cache := remove key (cache c); maxSize := maxSize c |}).

(** What the map holds under each key, by value. *)
Definition entries (c : t) : JsMap.t :=
  map (fun kr => (fst kr, heap c (snd kr))) (cache c).

(** The cache seen by value: the state of [LRUCache]. *)
Definition by_value (c : t) : LRUCache.t :=
  LRUCache.mk (entries c) (maxSize c).

(** No object is stored under two keys. *)
Definition unshared (c : t) : Prop := NoDup (map snd (cache c)).

(** The object [r] is not stored. *)
Definition unstored (r : Ref) (c : t) : Prop := ~ In r (map snd (cache c)).

End LRUCacheRef.

(** ** Facts about the insertion-ordered map *)

Section JsMapFacts.

Implicit Types (m : JsMap.t) (k key : string) (v : UserDatabase).

Lemma remove_length m key :
  (List.length (JsMap.remove key m) <= List.length m)%nat.
Proof. apply filter_length_le. Qed.

Lemma get_remove_same m key : JsMap.get key (JsMap.remove key m) = None.
Proof.
  induction m as [|[k v] m IH]; simpl; auto.
  destruct (String.eqb_spec k key) as [->|Hne]; simpl; auto.
  destruct (String.eqb_spec k key); [contradiction|auto].
Qed.

Lemma get_remove_other m key k :
  k <> key -> JsMap.get k (JsMap.remove key m) = JsMap.get k m.
Proof.
  intros Hne. induction m as [|[k' v] m IH]; simpl; auto.
  destruct (String.eqb_spec k' key) as [->|Hne']; simpl.
  - destruct (String.eqb_spec key k); [congruence|auto].
  - destruct (String.eqb_spec k' k); auto.
Qed.

Lemma set_fresh m key v :
  JsMap.get key m = None -> JsMap.set key v m = m ++ [(key, v)].
Proof.
  induction m as [|[k v'] m IH]; simpl; auto.
  destruct (String.eqb_spec k key); [discriminate|].
  intros H. now rewrite IH.
Qed.

Lemma remove_strict m key :
  JsMap.has key m = true ->
  (List.length (JsMap.remove key m) < List.length m)%nat.
Proof.
  unfold JsMap.has.
  induction m as [|[k v] m IH]; simpl; [discriminate|].
  destruct (String.eqb_spec k key) as [->|Hne]; simpl; intros H.
  - pose proof (remove_length m key). lia.
  - apply IH in H. lia.
Qed.

Lemma get_app m1 m2 key :
  JsMap.get key (m1 ++ m2) =
  match JsMap.get key m1 with Some v => Some v | None => JsMap.get key m2 end.
Proof.
  induction m1 as [|[k v] m1 IH]; simpl; auto.
  destruct (String.eqb k key); auto.
Qed.

Lemma get_In_keys m key :
  JsMap.get key m <> None <-> In key (JsMap.keys m).
Proof.
  induction m as [|[k v] m IH]; simpl; [tauto|].
  destruct (String.eqb_spec k key) as [->|Hne].
  - split; [auto|discriminate].
  - rewrite IH. split; [auto|intros [?|?]; [contradiction|auto]].
Qed.

Lemma has_In_keys m key :
  JsMap.has key m = true <-> In key (JsMap.keys m).
Proof.
  rewrite <- get_In_keys. unfold JsMap.has.
  destruct (JsMap.get key m); split; congruence.
Qed.

Lemma keys_remove m key :
  JsMap.keys (JsMap.remove key m) =
  filter (fun k => negb (String.eqb k key)) (JsMap.keys m).
Proof.
  induction m as [|[k v] m IH]; simpl; auto.
  destruct (String.eqb k key); simpl; now rewrite IH.
Qed.

Lemma keys_app m1 m2 :
  JsMap.keys (m1 ++ m2) = JsMap.keys m1 ++ JsMap.keys m2.
Proof. apply map_app. Qed.

Lemma NoDup_keys_remove m key :
  NoDup (JsMap.keys m) -> NoDup (JsMap.keys (JsMap.remove key m)).
Proof. rewrite keys_remove. apply NoDup_filter. Qed.

Lemma NoDup_keys_snoc m key v :
  NoDup (JsMap.keys m) -> JsMap.get key m = None ->
  NoDup (JsMap.keys (m ++ [(key, v)])).
Proof.
  intros Hnd Hget. rewrite keys_app. simpl.
  apply NoDup_app; auto.
  - constructor; [simpl; tauto|constructor].
  - intros x Hx [<-|[]]. apply get_In_keys in Hx. congruence.
Qed.

End JsMapFacts.


(** ** Capacity and key uniqueness of [LRUCache] *)

Section LRUCacheFacts.

Implicit Types (c : LRUCache.t) (key : string) (value : UserDatabase).


Lemma get_present now key c item :
  JsMap.get key (LRUCache.cache c) = Some item ->
  LRUCache.get now key c =
  (Some (set_lastAccess now item),
   LRUCache.mk
     (JsMap.remove key (LRUCache.cache c) ++ [(key, set_lastAccess now item)])
     (LRUCache.maxSize c)).
Proof.
  intros H. unfold LRUCache.get. rewrite H.
  now rewrite set_fresh by apply get_remove_same.
Qed.

Lemma get_absent now key c :
  JsMap.get key (LRUCache.cache c) = None -> LRUCache.get now key c = (None, c).
Proof. intros H. unfold LRUCache.get. now rewrite H. Qed.

Lemma bounded_new n : 0 <= n -> bounded n (LRUCache.new n).
Proof. intros H. split; [reflexivity|]. unfold LRUCache.size, JsMap.size. simpl. lia. Qed.

Lemma bounded_get n now key c :
  bounded n c -> bounded n (snd (LRUCache.get now key c)).
Proof.
  intros [Hm Hs]. destruct (JsMap.get key (LRUCache.cache c)) as [item|] eqn:E.
  - rewrite (get_present now _ _ E). split; [exact Hm|].
    unfold LRUCache.size, JsMap.size in *. simpl.
    assert (JsMap.has key (LRUCache.cache c) = true) as Hh
      by (unfold JsMap.has; now rewrite E).
    apply remove_strict in Hh. rewrite length_app. simpl. lia.
  - rewrite (get_absent now _ _ E). now split.
Qed.

Lemma bounded_delete n key c :
  bounded n c -> bounded n (snd (LRUCache.delete key c)).
Proof.
  intros [Hm Hs]. split; [exact Hm|].
  unfold LRUCache.size, JsMap.size in *. simpl.
  pose proof (remove_length (LRUCache.cache c) key). lia.
Qed.

Lemma bounded_clear n c : 0 <= n -> bounded n c -> bounded n (LRUCache.clear c).
Proof.
  intros Hn [Hm _]. split; [exact Hm|].
  unfold LRUCache.size, JsMap.size. simpl. lia.
Qed.

Lemma set_length key value (m : JsMap.t) :
  (List.length (JsMap.set key value m) <= S (List.length m))%nat.
Proof.
  induction m as [|[k v] m IH]; simpl; [lia|].
  destruct (String.eqb k key); simpl; lia.
Qed.

Lemma evictLRU_length c :
  LRUCache.cache c <> [] ->
  (List.length (LRUCache.cache (LRUCache.evictLRU c))
   < List.length (LRUCache.cache c))%nat.
Proof.
  unfold LRUCache.evictLRU, LRUCache.getLRU.
  destruct c as [[|[k v] m] n]; simpl; [congruence|]. intros _.
  apply (remove_strict ((k, v) :: m) k). unfold JsMap.has. simpl.
  now rewrite String.eqb_refl.
Qed.

Lemma evictLRU_maxSize c :
  LRUCache.maxSize (LRUCache.evictLRU c) = LRUCache.maxSize c.
Proof. unfold LRUCache.evictLRU. now destruct (LRUCache.getLRU c). Qed.

(** [set] never leaves more than [maxSize] entries when [maxSize] is
    positive, whatever the size before the call. *)
Lemma bounded_set n now key value c :
  0 < n -> bounded n c -> bounded n (LRUCache.set now key value c).
Proof.
  intros Hn [Hm Hs]. unfold LRUCache.set.
  set (c1 := if JsMap.has key (LRUCache.cache c) then _ else c).
  assert (bounded n c1) as [Hm1 Hs1].
  { subst c1. destruct (JsMap.has key (LRUCache.cache c)); [|now split].
    split; [exact Hm|]. unfold LRUCache.size, JsMap.size in *. simpl.
    pose proof (remove_length (LRUCache.cache c) key). lia. }
  clearbody c1.
  set (c2 := if JsMap.size (LRUCache.cache c1) >=? LRUCache.maxSize c1 then _ else c1).
  assert (LRUCache.maxSize c2 = n /\ LRUCache.size c2 < n) as [Hm2 Hs2].
  { subst c2. unfold LRUCache.size, JsMap.size in *.
    destruct (Z.geb_spec (Z.of_nat (List.length (LRUCache.cache c1)))
                (LRUCache.maxSize c1)) as [Hge|Hlt].
    - rewrite evictLRU_maxSize. split; [exact Hm1|].
      assert (LRUCache.cache c1 <> []) as Hne.
      { intros E. rewrite E in Hge. simpl in Hge. lia. }
      apply evictLRU_length in Hne. lia.
    - split; [exact Hm1|lia]. }
  clearbody c2. split; [exact Hm2|].
  unfold LRUCache.size, JsMap.size in *. simpl.
  pose proof (set_length key (set_lastAccess now value) (LRUCache.cache c2)). lia.
Qed.

Lemma bounded_step n c o :
  0 < n -> bounded n c -> bounded n (LRUCache.step c o).
Proof.
  intros Hn Hb. destruct o; simpl.
  - now apply bounded_get.
  - now apply bounded_set.
  - now apply bounded_delete.
  - apply bounded_clear; [lia|exact Hb].
Qed.

Lemma bounded_run n ops c :
  0 < n -> bounded n c -> bounded n (LRUCache.run ops c).
Proof.
  intros Hn. revert c. induction ops as [|o ops IH]; intros c Hb; simpl; auto.
  apply IH. now apply bounded_step.
Qed.

End LRUCacheFacts.

(** ** State invariants of monadic code *)


Section Preserves.

Variable I : Pond -> Prop.

Lemma preserves_ret {A : Type} (a : A) : preserves I (ret a).
Proof. intros s H. exact H. Qed.

Lemma preserves_throw {A : Type} (e : JsValue) : preserves I (@throw A e).
Proof. intros s H. exact H. Qed.

Lemma preserves_gets {A : Type} (f : Pond -> A) : preserves I (gets f).
Proof. intros s H. exact H. Qed.

Lemma preserves_bind {A B : Type} (m : M A) (f : A -> M B) :
  preserves I m -> (forall a, preserves I (f a)) -> preserves I (bind m f).
Proof.
  intros Hm Hf s H. unfold bind. specialize (Hm s H).
  destruct (m s) as [[a|e] s']; simpl in *; [now apply Hf|exact Hm].
Qed.

Lemma preserves_try_catch {A : Type} (m : M A) (h : JsValue -> M A) :
  preserves I m -> (forall e, preserves I (h e)) -> preserves I (try_catch m h).
Proof.
  intros Hm Hh s H. unfold try_catch. specialize (Hm s H).
  destruct (m s) as [[a|e] s']; simpl in *; [exact Hm|now apply Hh].
Qed.

Lemma preserves_forEach {A : Type} (f : A -> M unit) (l : list A) :
  (forall a, preserves I (f a)) -> preserves I (forEach f l).
Proof.
  intros Hf. induction l as [|x l IH]; simpl.
  - apply preserves_ret.
  - apply preserves_bind; auto.
Qed.

Lemma preserves_mapM {A B : Type} (f : A -> M B) (l : list A) :
  (forall a, preserves I (f a)) -> preserves I (mapM f l).
Proof.
  intros Hf. induction l as [|x l IH]; simpl.
  - apply preserves_ret.
  - apply preserves_bind; auto. intros y.
    apply preserves_bind; auto. intros ys. apply preserves_ret.
Qed.

Lemma preserves_modify (f : Pond -> Pond) :
  (forall s, I s -> I (f s)) -> preserves I (modify f).
Proof. intros Hf s H. now apply Hf. Qed.

End Preserves.

(** Breaks a goal [preserves I m] down along the structure of [m]. *)
Ltac preserve :=
  repeat first
    [ solve [auto]
    | apply preserves_ret
    | apply preserves_throw
    | apply preserves_gets
    | apply preserves_bind; [|intro]
    | apply preserves_try_catch; [|intro]
    | apply preserves_forEach; intro
    | apply preserves_mapM; intro
    | match goal with
      | |- preserves _ (if ?b then _ else _) => destruct b
      | |- preserves _ (match ?x with _ => _ end) => destruct x
      end ].

(** *** Code that touches only the cache, the in-flight calls and the
    interaction counter *)

Section TenantOperations.

Variable w : World.
Variable I : Pond -> Prop.

Hypothesis I_tick : forall n s, I s -> I (with_tick n s).
Hypothesis I_inFlight : forall l s, I s -> I (with_inFlight l s).
Hypothesis I_get : forall now key s,
  I s -> I (with_cache (snd (LRUCache.get now key (cache s))) s).
Hypothesis I_set : forall now key value s,
  I s -> I (with_cache (LRUCache.set now key value (cache s)) s).
Hypothesis I_delete : forall key s,
  I s -> I (with_cache (snd (LRUCache.delete key (cache s))) s).

Lemma preserves_interact : preserves I interact.
Proof. intros s H. now apply I_tick. Qed.

Lemma preserves_new_Date : preserves I (new_Date w).
Proof. unfold new_Date. preserve. apply preserves_interact. Qed.

Lemma preserves_cache_get key : preserves I (cache_get w key).
Proof.
  intros s H. unfold cache_get.
  pose proof (I_get (clock w (tick s)) key H) as Hg.
  destruct (LRUCache.get (clock w (tick s)) key (cache s)) as [[item|] c];
    simpl in *; [now apply I_tick|exact H].
Qed.

Lemma preserves_cache_set key value : preserves I (cache_set w key value).
Proof.
  unfold cache_set. preserve; [apply preserves_new_Date|].
  apply preserves_modify. intros s H. now apply I_set.
Qed.

Lemma preserves_cache_delete key : preserves I (cache_delete key).
Proof.
  intros s H. unfold cache_delete.
  pose proof (I_delete key H) as Hd. unfold LRUCache.delete, JsMap.delete in *.
  exact Hd.
Qed.

Hint Resolve preserves_interact preserves_new_Date preserves_cache_get
  preserves_cache_set preserves_cache_delete : core.

Lemma preserves_detachUser_resume p : preserves I (detachUser_resume p).
Proof. unfold detachUser_resume. preserve. Qed.

Hint Resolve preserves_detachUser_resume : core.

Lemma preserves_settle i : preserves I (settle i).
Proof.
  intros s H. unfold settle.
  destruct (extract i (inFlight s)) as [[p rest]|]; [|exact H].
  assert (preserves I (_ <- detachUser_resume p ;; ret tt)) as Hp by preserve.
  apply Hp. now apply I_inFlight.
Qed.

Hint Resolve preserves_settle : core.

Lemma preserves_yield : preserves I (yield w).
Proof. unfold yield. preserve. Qed.

Hint Resolve preserves_yield : core.

Lemma preserves_await {A : Type} (r : Completion A) : preserves I (await w r).
Proof. unfold await. preserve. intros s H. exact H. Qed.

Hint Resolve preserves_await : core.

Lemma preserves_DuckDBInstance_create : preserves I (DuckDBInstance_create w).
Proof. unfold DuckDBInstance_create. preserve. Qed.

Lemma preserves_connect inst : preserves I (connect w inst).
Proof. unfold connect. preserve. Qed.

Lemma preserves_run conn sql : preserves I (run w conn sql).
Proof. unfold run. preserve. Qed.

Lemma preserves_getRowObjects conn sql : preserves I (getRowObjects w conn sql).
Proof. unfold getRowObjects. preserve. Qed.

Hint Resolve preserves_DuckDBInstance_create preserves_connect preserves_run
  preserves_getRowObjects : core.

Lemma preserves_detachUser_start userId : preserves I (detachUser_start w userId).
Proof. unfold detachUser_start. preserve. Qed.

Hint Resolve preserves_detachUser_start : core.

Lemma preserves_detachUser userId : preserves I (detachUser w userId).
Proof. unfold detachUser. preserve. Qed.

Lemma preserves_detachUser_detached userId :
  preserves I (detachUser_detached w userId).
Proof.
  unfold detachUser_detached. preserve.
  apply preserves_modify. intros s H. now apply I_inFlight.
Qed.

Hint Resolve preserves_detachUser preserves_detachUser_detached : core.

Lemma preserves_evictLRU : preserves I (evictLRU w).
Proof. unfold evictLRU. preserve. Qed.

Lemma preserves_evictionTimer_callback : preserves I (evictionTimer_callback w).
Proof. unfold evictionTimer_callback. preserve. Qed.

Lemma preserves_setupCloudStorage : preserves I (setupCloudStorage w).
Proof. unfold setupCloudStorage. preserve. Qed.

Lemma preserves_attachUserDatabase conn userId :
  preserves I (attachUserDatabase w conn userId).
Proof. unfold attachUserDatabase. preserve. Qed.

Hint Resolve preserves_evictLRU preserves_attachUserDatabase
  preserves_setupCloudStorage : core.

Lemma preserves_getUserConnection userId :
  preserves I (getUserConnection w userId).
Proof. unfold getUserConnection. preserve. Qed.

Hint Resolve preserves_getUserConnection : core.

Lemma preserves_query userId sql : preserves I (query w userId sql).
Proof. unfold query. preserve. Qed.

Lemma preserves_execute userId sql : preserves I (execute w userId sql).
Proof. unfold execute. preserve. Qed.

Lemma preserves_getUserStats userId : preserves I (getUserStats w userId).
Proof. unfold getUserStats. preserve. Qed.

Lemma preserves_Promise_all started : preserves I (Promise_all w started).
Proof.
  unfold Promise_all. destruct (awaiting started); preserve.
Qed.

(** *** [init] and [close] also write the other fields *)

Hypothesis I_instance : forall i s, I s -> I (with_instance i s).
Hypothesis I_initialized : forall b s, I s -> I (with_initialized b s).
Hypothesis I_evictionTimer : forall t s, I s -> I (with_evictionTimer t s).
Hypothesis I_activeTimers : forall l s, I s -> I (with_activeTimers l s).

Lemma preserves_startEvictionTimer : preserves I (startEvictionTimer).
Proof.
  unfold startEvictionTimer. preserve.
  apply preserves_modify. intros s H. now apply I_evictionTimer, I_activeTimers.
Qed.

Hint Resolve preserves_startEvictionTimer preserves_Promise_all : core.

Lemma preserves_init : preserves I (init w).
Proof.
  unfold init. preserve; apply preserves_modify; intros s H; auto.
Qed.

Lemma preserves_close : preserves I (close w).
Proof.
  unfold close, clearInterval.
  preserve; apply preserves_modify; intros s H; auto.
Qed.

Lemma preserves_step c s : I s -> I (step w s c).
Proof.
  intros H. destruct c; simpl; auto.
  - now apply preserves_init.
  - now apply preserves_getUserConnection.
  - now apply preserves_query.
  - now apply preserves_execute.
  - now apply preserves_detachUser.
  - now apply preserves_getUserStats.
  - now apply preserves_close.
  - destruct (existsb (Nat.eqb timer) (activeTimers s)); auto.
    now apply preserves_evictionTimer_callback.
  - now apply preserves_settle.
Qed.

Lemma preserves_run_calls calls s : I s -> I (run_calls w calls s).
Proof.
  revert s. induction calls as [|c calls IH]; intros s H; simpl; auto.
  apply IH. now apply preserves_step.
Qed.

End TenantOperations.

(** ** Distinct keys *)

Section DistinctKeys.

Implicit Types (c : LRUCache.t) (key : string) (value : UserDatabase).


Lemma distinct_new n : distinct (LRUCache.new n).
Proof. constructor. Qed.

Lemma distinct_get now key c : distinct c -> distinct (snd (LRUCache.get now key c)).
Proof.
  intros H. destruct (JsMap.get key (LRUCache.cache c)) as [item|] eqn:E.
  - rewrite (get_present now _ _ E). simpl.
    apply NoDup_keys_snoc; [now apply NoDup_keys_remove|apply get_remove_same].
  - now rewrite (get_absent now _ _ E).
Qed.

Lemma distinct_delete key c : distinct c -> distinct (snd (LRUCache.delete key c)).
Proof. intros H. now apply NoDup_keys_remove. Qed.

Lemma distinct_evictLRU c : distinct c -> distinct (LRUCache.evictLRU c).
Proof.
  intros H. unfold LRUCache.evictLRU.
  destruct (LRUCache.getLRU c); [|exact H]. now apply NoDup_keys_remove.
Qed.

Lemma get_evictLRU_None key c :
  JsMap.get key (LRUCache.cache c) = None ->
  JsMap.get key (LRUCache.cache (LRUCache.evictLRU c)) = None.
Proof.
  intros H. unfold LRUCache.evictLRU.
  destruct (LRUCache.getLRU c) as [k|]; [simpl|exact H].
  destruct (String.eqb_spec key k) as [->|Hne].
  - apply get_remove_same.
  - now rewrite get_remove_other.
Qed.

(** What [set] leaves: the entries kept, then the new one in last place. *)
Lemma set_shape now key value c :
  exists kept,
    LRUCache.cache (LRUCache.set now key value c)
    = kept ++ [(key, set_lastAccess now value)]
    /\ JsMap.get key kept = None
    /\ (distinct c -> NoDup (JsMap.keys kept))
    /\ (forall k, In k (JsMap.keys kept) -> In k (LRUCache.keys c)).
Proof.
  unfold LRUCache.set.
  set (c1 := if JsMap.has key (LRUCache.cache c) then _ else c).
  assert (JsMap.get key (LRUCache.cache c1) = None
          /\ (distinct c -> distinct c1)
          /\ (forall k, In k (LRUCache.keys c1) -> In k (LRUCache.keys c)))
    as (Hg1 & Hd1 & Hs1).
  { subst c1. unfold JsMap.has.
    destruct (JsMap.get key (LRUCache.cache c)) eqn:E; simpl.
    - split; [apply get_remove_same|]. split; [apply NoDup_keys_remove|].
      intros k. unfold LRUCache.keys. simpl. rewrite keys_remove.
      intros Hk. now apply filter_In in Hk.
    - auto. }
  clearbody c1.
  set (c2 := if JsMap.size (LRUCache.cache c1) >=? LRUCache.maxSize c1 then _ else c1).
  assert (JsMap.get key (LRUCache.cache c2) = None
          /\ (distinct c1 -> distinct c2)
          /\ (forall k, In k (LRUCache.keys c2) -> In k (LRUCache.keys c1)))
    as (Hg2 & Hd2 & Hs2).
  { subst c2.
    destruct (JsMap.size (LRUCache.cache c1) >=? LRUCache.maxSize c1); [|auto].
    split; [now apply get_evictLRU_None|]. split; [apply distinct_evictLRU|].
    intros k. unfold LRUCache.evictLRU.
    destruct (LRUCache.getLRU c1); [|auto].
    unfold LRUCache.keys. simpl. rewrite keys_remove.
    intros Hk. now apply filter_In in Hk. }
  clearbody c2. exists (LRUCache.cache c2). simpl.
  split; [now apply set_fresh|]. split; [exact Hg2|]. split.
  - intros H. now apply Hd2, Hd1.
  - intros k Hk. now apply Hs1, Hs2.
Qed.

Lemma distinct_set now key value c :
  distinct c -> distinct (LRUCache.set now key value c).
Proof.
  intros H. destruct (set_shape now key value c) as (kept & E & Hg & Hd & _).
  unfold distinct, LRUCache.keys. rewrite E.
  apply NoDup_keys_snoc; auto.
Qed.

Lemma distinct_run ops c : distinct c -> distinct (LRUCache.run ops c).
Proof.
  revert c. induction ops as [|o ops IH]; intros c H; simpl; auto.
  apply IH. destruct o; simpl.
  - now apply distinct_get.
  - now apply distinct_set.
  - now apply distinct_delete.
  - constructor.
Qed.

(** Every cache a [DuckPond] can reach has distinct keys. *)
Lemma distinct_run_calls w cfg calls :
  distinct (cache (run_calls w calls (new_DuckPond cfg))).
Proof.
  apply (@preserves_run_calls w (fun s => distinct (cache s))); auto.
  - intros now key s. apply distinct_get.
  - intros now key value s. apply distinct_set.
  - intros key s. apply distinct_delete.
  - apply distinct_new.
Qed.

End DistinctKeys.


(** ** C1: the capacity bound *)

(** C1. For a cache built with a positive capacity, after every prefix of
    every sequence of [get]/[set]/[delete]/[clear] calls the cache holds at
    most [maxSize] entries; and for a [DuckPond] built with a positive
    [maxActiveUsers], after every prefix of every sequence of public calls
    (among them [getUserConnection]), timer ticks and completions of
    suspended detach calls, under every behaviour of the engine and of
    the scheduler, the cache holds at most [maxActiveUsers] entries. *)
Theorem capacity_invariant (w : World) (cfg : DuckPondConfig)
    (calls : list Call) (maxSize : Z) (ops : list LRUCache.Op) (n : nat) :
  0 < maxSize ->
  0 < maxActiveUsers (resolve cfg) ->
  LRUCache.size (LRUCache.run (firstn n ops) (LRUCache.new maxSize)) <= maxSize
  /\ LRUCache.maxSize (cache (run_calls w (firstn n calls) (new_DuckPond cfg)))
     = maxActiveUsers (resolve cfg)
  /\ LRUCache.size (cache (run_calls w (firstn n calls) (new_DuckPond cfg)))
     <= maxActiveUsers (resolve cfg).
Proof.
  intros Hmax Hcfg. split.
  - apply (@bounded_run maxSize); [exact Hmax|]. apply bounded_new. lia.
  - apply (@preserves_run_calls w
             (fun s => bounded (maxActiveUsers (resolve cfg)) (cache s))); auto.
    + intros now key s. apply bounded_get.
    + intros now key value s. now apply bounded_set.
    + intros key s. apply bounded_delete.
    + apply bounded_new. lia.
Qed.

Lemma capacity_invariant_witness :
  LRUCache.size
    (LRUCache.run
       (firstn 3 [LRUCache.OpSet 1 "a" (mkUserDatabase "a" 0%nat 1 true None);
                  LRUCache.OpSet 2 "b" (mkUserDatabase "b" 1%nat 2 true None);
                  LRUCache.OpSet 3 "c" (mkUserDatabase "c" 2%nat 3 true None)])
       (LRUCache.new 2)) <= 2
  /\ LRUCache.maxSize
       (cache (run_calls calm
                 (firstn 3 [CallInit; CallGetUserConnection "a";
                            CallGetUserConnection "b"; CallGetUserConnection "c"])
                 (new_DuckPond (config_with 2 Parquet))))
     = maxActiveUsers (resolve (config_with 2 Parquet))
  /\ LRUCache.size
       (cache (run_calls calm
                 (firstn 3 [CallInit; CallGetUserConnection "a";
                            CallGetUserConnection "b"; CallGetUserConnection "c"])
                 (new_DuckPond (config_with 2 Parquet))))
     <= maxActiveUsers (resolve (config_with 2 Parquet)).
Proof.
  apply (@capacity_invariant calm (config_with 2 Parquet)); reflexivity.
Defined.

(** ** C9: staleness is a strict comparison *)

Lemma In_entry_unique (m : JsMap.t) key v item :
  NoDup (JsMap.keys m) -> In (key, v) m -> In (key, item) m -> v = item.
Proof.
  unfold JsMap.keys. induction m as [|[k' v'] m IH]; [contradiction|].
  simpl. intros Hnd Hf Hin. inversion Hnd as [|? ? Hnot Hnd']; subst.
  destruct Hf as [Hf|Hf], Hin as [Hin|Hin].
  - congruence.
  - inversion Hf; subst. exfalso. apply Hnot. now apply (in_map fst) in Hin.
  - inversion Hin; subst. exfalso. apply Hnot. now apply (in_map fst) in Hf.
  - now apply IH.
Qed.

Lemma getStale_In (now timeoutMs : Z) (c : LRUCache.t) key item :
  NoDup (LRUCache.keys c) ->
  In (key, item) (LRUCache.cache c) ->
  In key (LRUCache.getStale now timeoutMs c)
  <-> now - lastAccess item > timeoutMs.
Proof.
  intros Hnd Hin. unfold LRUCache.getStale. rewrite in_map_iff. split.
  - intros ([k v] & Hk & Hf). simpl in Hk. subst k.
    apply filter_In in Hf. destruct Hf as [Hf Hage]. simpl in Hage.
    rewrite (@In_entry_unique (LRUCache.cache c) key v item Hnd Hf Hin) in Hage.
    apply Z.gtb_lt in Hage. lia.
  - intros Hage. exists (key, item). split; [reflexivity|].
    apply filter_In. split; [exact Hin|]. simpl. apply Z.gtb_lt. lia.
Qed.

(** C9. For every entry of a cache (whose keys are distinct, as those of a
    [Map] are), [getStale timeoutMs] at time [now] lists the entry's key
    exactly when [now - lastAccess > timeoutMs]; in particular an entry
    whose age equals the timeout is not listed. *)
Theorem getStale_strict (now timeoutMs : Z) (c : LRUCache.t) (key : string)
    (item : UserDatabase) :
  NoDup (LRUCache.keys c) ->
  In (key, item) (LRUCache.cache c) ->
  (In key (LRUCache.getStale now timeoutMs c)
   <-> now - lastAccess item > timeoutMs)
  /\ (now - lastAccess item = timeoutMs
      -> ~ In key (LRUCache.getStale now timeoutMs c)).
Proof.
  intros Hnd Hin. pose proof (@getStale_In now timeoutMs c key item Hnd Hin) as Hiff.
  split; [exact Hiff|]. intros Heq Hstale. apply Hiff in Hstale. lia.
Qed.

Lemma getStale_strict_witness :
  (In "a" (LRUCache.getStale 500 300
             (LRUCache.mk [("a", mkUserDatabase "a" 0%nat 200 true None);
                           ("b", mkUserDatabase "b" 1%nat 100 true None)] 10))
   <-> 500 - 200 > 300)
  /\ (500 - 200 = 300
      -> ~ In "a" (LRUCache.getStale 500 300
                     (LRUCache.mk [("a", mkUserDatabase "a" 0%nat 200 true None);
                                   ("b", mkUserDatabase "b" 1%nat 100 true None)] 10))).
Proof.
  apply (@getStale_strict 500 300
           (LRUCache.mk [("a", mkUserDatabase "a" 0%nat 200 true None);
                         ("b", mkUserDatabase "b" 1%nat 100 true None)] 10)
           "a" (mkUserDatabase "a" 0%nat 200 true None)).
  - repeat constructor; simpl; intuition discriminate.
  - simpl. left. reflexivity.
Defined.

(** ** Running the code when no detach call is in flight *)

Section Execution.

Variable w : World.

Lemma bind_run {A B : Type} (m : M A) (f : A -> M B) s :
  bind m f s
  = match m s with
    | (Normal a, s') => f a s'
    | (Throw e, s') => (Throw e, s')
    end.
Proof. reflexivity. Qed.

Lemma bind_ret {A B : Type} (a : A) (f : A -> M B) s : bind (ret a) f s = f a s.
Proof. reflexivity. Qed.

Lemma bind_gets {A B : Type} (g : Pond -> A) (f : A -> M B) s :
  bind (gets g) f s = f (g s) s.
Proof. reflexivity. Qed.

Lemma bind_modify {B : Type} (g : Pond -> Pond) (f : unit -> M B) s :
  bind (modify g) f s = f tt (g s).
Proof. reflexivity. Qed.

Lemma bind_interact {B : Type} (f : nat -> M B) s :
  bind interact f s = f (tick s) (with_tick (S (tick s)) s).
Proof. reflexivity. Qed.

Lemma try_catch_run {A : Type} (m : M A) (h : JsValue -> M A) s :
  try_catch m h s
  = match m s with
    | (Normal a, s') => (Normal a, s')
    | (Throw e, s') => h e s'
    end.
Proof. reflexivity. Qed.

Lemma forEach_settle_idle l s :
  inFlight s = [] -> forEach settle l s = (Normal tt, s).
Proof.
  intros H. induction l as [|i l IH]; simpl; [reflexivity|].
  unfold bind, settle. rewrite H. destruct i; simpl; exact IH.
Qed.

Lemma yield_idle s :
  inFlight s = [] -> yield w s = (Normal tt, with_tick (S (tick s)) s).
Proof.
  intros H. unfold yield, bind, interact.
  now rewrite forEach_settle_idle.
Qed.

Lemma await_idle {A : Type} (r : Completion A) s :
  inFlight s = [] -> await w r s = (r, with_tick (S (tick s)) s).
Proof.
  intros H. unfold await, bind. now rewrite yield_idle.
Qed.

Lemma create_idle s :
  inFlight s = [] ->
  DuckDBInstance_create w s
  = (completion_of (tick s) (instance_create w (tick s)),
     with_tick (S (S (tick s))) s).
Proof.
  intros H. unfold DuckDBInstance_create, bind, interact.
  now rewrite await_idle.
Qed.

Lemma connect_idle inst s :
  inFlight s = [] ->
  connect w inst s
  = (completion_of (tick s) (instance_connect w (tick s) inst),
     with_tick (S (S (tick s))) s).
Proof.
  intros H. unfold connect, bind, interact.
  now rewrite await_idle.
Qed.

Lemma run_idle conn sql s :
  inFlight s = [] ->
  run w conn sql s
  = (completion_of tt (conn_run w (tick s) conn sql),
     with_tick (S (S (tick s))) s).
Proof.
  intros H. unfold run, bind, interact.
  now rewrite await_idle.
Qed.

Lemma getRowObjects_idle conn sql s :
  inFlight s = [] ->
  getRowObjects w conn sql s
  = (result_getRowObjects w (tick s) conn sql, with_tick (S (S (tick s))) s).
Proof.
  intros H. unfold getRowObjects, bind, interact.
  now rewrite await_idle.
Qed.

Lemma cache_get_hit key item s :
  JsMap.get key (LRUCache.cache (cache s)) = Some item ->
  cache_get w key s
  = (Normal (Some (set_lastAccess (clock w (tick s)) item)),
     with_tick (S (tick s))
       (with_cache (snd (LRUCache.get (clock w (tick s)) key (cache s))) s)).
Proof.
  intros H. unfold cache_get.
  now rewrite (get_present (clock w (tick s)) key (cache s) H).
Qed.

Lemma cache_get_miss key s :
  JsMap.get key (LRUCache.cache (cache s)) = None ->
  cache_get w key s = (Normal None, s).
Proof.
  intros H. unfold cache_get.
  now rewrite (get_absent (clock w (tick s)) key (cache s) H).
Qed.

Lemma has_false_get key (m : JsMap.t) :
  JsMap.has key m = false -> JsMap.get key m = None.
Proof. unfold JsMap.has. now destruct (JsMap.get key m). Qed.

Lemma has_true_get key (m : JsMap.t) :
  JsMap.has key m = true -> exists item, JsMap.get key m = Some item.
Proof. unfold JsMap.has. destruct (JsMap.get key m); [eauto|discriminate]. Qed.

Lemma getUserConnection_uninitialized userId s :
  initialized s = false ->
  getUserConnection w userId s = (Normal Errors.notInitialized, s).
Proof.
  intros H. unfold getUserConnection, bind, gets. now rewrite H.
Qed.

End Execution.

(** ** C4: calls made before [init] has succeeded *)

Lemma uninitialized_calls_aux (w : World) (s : Pond) (userId sql : string) :
  initialized s = false ->
  query w userId sql s = (Normal Errors.notInitialized, s)
  /\ execute w userId sql s = (Normal Errors.notInitialized, s).
Proof.
  intros H. split.
  - unfold query, bind. now rewrite getUserConnection_uninitialized.
  - unfold execute, bind. now rewrite getUserConnection_uninitialized.
Qed.

(** C4, as the code has it.  While [initialized] is false, [query] and
    [execute] return the [NOT_INITIALIZED] error and leave the whole state
    as it was: no cache change and no external interaction.  [detachUser]
    and [getUserStats] do not look at [initialized]: for a tenant that is
    not cached they return success, also leaving the state as it was. *)
Theorem uninitialized_calls (w : World) (s : Pond) (userId sql : string) :
  initialized s = false ->
  query w userId sql s = (Normal Errors.notInitialized, s)
  /\ execute w userId sql s = (Normal Errors.notInitialized, s)
  /\ (isAttached userId s = false ->
      detachUser w userId s = (Normal (success tt), s)
      /\ getUserStats w userId s = (Normal (success (stats_absent userId)), s)).
Proof.
  intros H. destruct (@uninitialized_calls_aux w s userId sql H) as (Hq & He).
  split; [exact Hq|]. split; [exact He|].
  intros Ha. apply has_false_get in Ha. split.
  - unfold detachUser, detachUser_start, bind. now rewrite cache_get_miss.
  - unfold getUserStats, bind. now rewrite cache_get_miss.
Qed.

Lemma uninitialized_calls_witness :
  query calm "user1" "SELECT 1" (new_DuckPond (config_with 3 Parquet))
  = (Normal Errors.notInitialized, new_DuckPond (config_with 3 Parquet))
  /\ execute calm "user1" "SELECT 1" (new_DuckPond (config_with 3 Parquet))
     = (Normal Errors.notInitialized, new_DuckPond (config_with 3 Parquet))
  /\ (isAttached "user1" (new_DuckPond (config_with 3 Parquet)) = false ->
      detachUser calm "user1" (new_DuckPond (config_with 3 Parquet))
      = (Normal (success tt), new_DuckPond (config_with 3 Parquet))
      /\ getUserStats calm "user1" (new_DuckPond (config_with 3 Parquet))
         = (Normal (success (stats_absent "user1")),
            new_DuckPond (config_with 3 Parquet))).
Proof.
  apply (@uninitialized_calls calm (new_DuckPond (config_with 3 Parquet))).
  reflexivity.
Defined.

(** On a manager that was never initialized, [detachUser] and
    [getUserStats] succeed: they do not return [NOT_INITIALIZED]. *)
Lemma uninitialized_detach_succeeds :
  initialized (new_DuckPond (config_with 3 Parquet)) = false
  /\ fst (detachUser calm "user1" (new_DuckPond (config_with 3 Parquet)))
     = Normal (Right tt)
  /\ fst (detachUser calm "user1" (new_DuckPond (config_with 3 Parquet)))
     <> Normal Errors.notInitialized
  /\ fst (getUserStats calm "user1" (new_DuckPond (config_with 3 Parquet)))
     <> Normal Errors.notInitialized.
Proof. repeat split; discriminate. Qed.

(** ** C10: [getUserStats] refreshes the entry it reports on *)

(** C10. [getUserStats] resolves the tenant through [LRUCache.get].  For a
    cached tenant it returns success with [attached = true] and the current
    time as [lastAccess], and it leaves the tenant's entry in last place
    (most recently used) with that time: the least recently used key is
    then the first of the other keys, and an idle sweep at time [T] finds
    the tenant stale exactly when [T - now > timeout], whatever its age
    was before the call.  For a tenant that is not cached it returns
    success with [attached = false] and [lastAccess] the epoch, and
    changes nothing. *)
Theorem getUserStats_refreshes (w : World) (s : Pond) (userId : string)
    (cached : option UserDatabase) :
  JsMap.get userId (LRUCache.cache (cache s)) = cached ->
  match cached with
  | Some item =>
      let now := clock w (tick s) in
      let s' := snd (getUserStats w userId s) in
      fst (getUserStats w userId s)
      = Normal (success
          {| stats_userId := userId; stats_attached := true;
             stats_lastAccess := now;
             stats_memoryUsage := or_number (memoryUsage item) 0;
             stats_storageUsage := 0; stats_queryCount := 0 |})
      /\ LRUCache.cache (cache s')
         = JsMap.remove userId (LRUCache.cache (cache s))
             ++ [(userId, set_lastAccess now item)]
      /\ (forall k v rest,
            JsMap.remove userId (LRUCache.cache (cache s)) = (k, v) :: rest ->
            LRUCache.getLRU (cache s') = Some k /\ k <> userId)
      /\ (distinct (cache s) ->
          forall T timeout,
            In userId (LRUCache.getStale T timeout (cache s'))
            <-> T - now > timeout)
  | None =>
      getUserStats w userId s = (Normal (success (stats_absent userId)), s)
  end.
Proof.
  intros H. destruct cached as [item|].
  - assert (getUserStats w userId s
            = (Normal (success
                 {| stats_userId := userId; stats_attached := true;
                    stats_lastAccess := clock w (tick s);
                    stats_memoryUsage := or_number (memoryUsage item) 0;
                    stats_storageUsage := 0; stats_queryCount := 0 |}),
               with_tick (S (tick s))
                 (with_cache
                    (snd (LRUCache.get (clock w (tick s)) userId (cache s))) s)))
      as E.
    { unfold getUserStats, bind. now rewrite (cache_get_hit w _ _ H). }
    cbv zeta. rewrite E. simpl fst. simpl snd.
    rewrite (get_present (clock w (tick s)) _ _ H). simpl.
    split; [reflexivity|]. split; [reflexivity|]. split.
    + intros k v rest Hrest. rewrite Hrest. simpl. split; [reflexivity|].
      assert (In k (JsMap.keys (JsMap.remove userId (LRUCache.cache (cache s)))))
        as Hk by (rewrite Hrest; simpl; auto).
      rewrite keys_remove in Hk. apply filter_In in Hk. destruct Hk as [_ Hk].
      destruct (String.eqb_spec k userId); [discriminate|assumption].
    + intros Hd T timeout.
      apply (@getStale_In T timeout
               (LRUCache.mk
                  (JsMap.remove userId (LRUCache.cache (cache s))
                     ++ [(userId, set_lastAccess (clock w (tick s)) item)])
                  (LRUCache.maxSize (cache s)))
               userId (set_lastAccess (clock w (tick s)) item)).
      * unfold LRUCache.keys. simpl.
        apply NoDup_keys_snoc; [now apply NoDup_keys_remove|apply get_remove_same].
      * simpl. apply in_or_app. right. simpl. auto.
  - unfold getUserStats, bind. now rewrite cache_get_miss.
Qed.

Lemma getUserStats_refreshes_witness :
  fst (getUserStats calm "a"
         (pond_with Parquet 2 [("a", tenant "a" 7%nat 8000); ("b", tenant "b" 12%nat 13000)]))
  = Normal (success
      {| stats_userId := "a"; stats_attached := true; stats_lastAccess := 100000;
         stats_memoryUsage := 0; stats_storageUsage := 0; stats_queryCount := 0 |})
  /\ LRUCache.cache
       (cache (snd (getUserStats calm "a"
          (pond_with Parquet 2
             [("a", tenant "a" 7%nat 8000); ("b", tenant "b" 12%nat 13000)]))))
     = [("b", tenant "b" 12%nat 13000); ("a", tenant "a" 7%nat 100000)].
Proof.
  destruct (@getUserStats_refreshes calm
              (pond_with Parquet 2
                 [("a", tenant "a" 7%nat 8000); ("b", tenant "b" 12%nat 13000)])
              "a" (Some (tenant "a" 7%nat 8000)) eq_refl) as (H1 & H2 & _).
  split; [exact H1|exact H2].
Defined.

(** ** C6: what can be raised past the public methods *)

Section NeverThrows.

Variable w : World.

Lemma never_throws_ret {A : Type} (a : A) : never_throws (ret a).
Proof. intros s. now exists a. Qed.

Lemma never_throws_gets {A : Type} (f : Pond -> A) : never_throws (gets f).
Proof. intros s. now exists (f s). Qed.

Lemma never_throws_modify f : never_throws (modify f).
Proof. intros s. now exists tt. Qed.

Lemma never_throws_bind {A B : Type} (m : M A) (f : A -> M B) :
  never_throws m -> (forall a, never_throws (f a)) -> never_throws (bind m f).
Proof.
  intros Hm Hf s. unfold bind. destruct (Hm s) as [a Ha].
  destruct (m s) as [r s']. simpl in Ha. subst r. apply Hf.
Qed.

(** A [try] whose handler returns cannot raise, whatever its body does. *)
Lemma never_throws_try_catch {A : Type} (m : M A) (h : JsValue -> M A) :
  (forall e, never_throws (h e)) -> never_throws (try_catch m h).
Proof.
  intros Hh s. unfold try_catch. destruct (m s) as [[a|e] s']; simpl.
  - now exists a.
  - apply Hh.
Qed.

Lemma never_throws_forEach {A : Type} (f : A -> M unit) l :
  (forall a, never_throws (f a)) -> never_throws (forEach f l).
Proof.
  intros Hf. induction l as [|x l IH]; simpl.
  - apply never_throws_ret.
  - apply never_throws_bind; auto.
Qed.

Lemma never_throws_mapM {A B : Type} (f : A -> M B) l :
  (forall a, never_throws (f a)) -> never_throws (mapM f l).
Proof.
  intros Hf. induction l as [|x l IH]; simpl.
  - apply never_throws_ret.
  - apply never_throws_bind; auto. intros y.
    apply never_throws_bind; auto. intros ys. apply never_throws_ret.
Qed.

Lemma never_throws_interact : never_throws interact.
Proof. intros s. now exists (tick s). Qed.

Lemma never_throws_cache_get key : never_throws (cache_get w key).
Proof.
  intros s. unfold cache_get.
  destruct (LRUCache.get (clock w (tick s)) key (cache s)) as [[item|] c];
    simpl; eauto.
Qed.

Lemma never_throws_cache_delete key : never_throws (cache_delete key).
Proof. intros s. unfold cache_delete. simpl. eauto. Qed.

Hint Resolve never_throws_ret never_throws_gets never_throws_modify
  never_throws_interact never_throws_cache_get never_throws_cache_delete : core.

Ltac no_throw :=
  repeat first
    [ solve [auto]
    | apply never_throws_try_catch; intro
    | apply never_throws_bind; [|intro]
    | apply never_throws_forEach; intro
    | apply never_throws_mapM; intro
    | match goal with
      | |- never_throws (if ?b then _ else _) => destruct b
      | |- never_throws (match ?x with _ => _ end) => destruct x
      end ].

Lemma never_throws_detachUser_resume p : never_throws (detachUser_resume p).
Proof. unfold detachUser_resume. no_throw. Qed.

Hint Resolve never_throws_detachUser_resume : core.

Lemma never_throws_settle i : never_throws (settle i).
Proof.
  intros s. unfold settle.
  destruct (extract i (inFlight s)) as [[p rest]|]; [|now exists tt].
  assert (never_throws (_ <- detachUser_resume p ;; ret tt)) as H by no_throw.
  apply H.
Qed.

Hint Resolve never_throws_settle : core.

Lemma never_throws_yield : never_throws (yield w).
Proof. unfold yield. no_throw. Qed.

Hint Resolve never_throws_yield : core.

Lemma never_throws_detachUser_start userId :
  never_throws (detachUser_start w userId).
Proof. unfold detachUser_start. no_throw. Qed.

Hint Resolve never_throws_detachUser_start : core.

Lemma never_throws_detachUser userId : never_throws (detachUser w userId).
Proof. unfold detachUser. no_throw. Qed.

Lemma never_throws_getUserStats userId : never_throws (getUserStats w userId).
Proof. unfold getUserStats. no_throw. Qed.

Lemma never_throws_init : never_throws (init w).
Proof. unfold init. no_throw. Qed.

Lemma never_throws_attachUserDatabase conn userId :
  never_throws (attachUserDatabase w conn userId).
Proof. unfold attachUserDatabase. no_throw. Qed.

Lemma never_throws_close : never_throws (close w).
Proof.
  unfold close, clearInterval, Promise_all. no_throw.
Qed.

(** [getUserConnection] awaits [instance.connect()] outside any [try]:
    when the tenant is not cached and the connection is refused, the
    rejection leaves [query] as a raised value. *)
Lemma query_connect_rejects userId sql inst e s :
  initialized s = true ->
  inFlight s = [] ->
  JsMap.get userId (LRUCache.cache (cache s)) = None ->
  LRUCache.size (cache s) < maxActiveUsers (config s) ->
  instance s = Some inst ->
  instance_connect w (tick s) inst = Some e ->
  query w userId sql s = (Throw e, with_tick (S (S (tick s))) s).
Proof.
  intros Hi Hf Hg Hsz Hinst He.
  unfold query, getUserConnection. rewrite bind_run, bind_gets, Hi.
  cbn [negb]. cbv iota.
  rewrite bind_run, (cache_get_miss w _ _ Hg), !bind_gets.
  destruct (Z.geb_spec (LRUCache.size (cache s)) (maxActiveUsers (config s)));
    [lia|].
  rewrite bind_ret, bind_gets, Hinst, bind_run.
  rewrite connect_idle by exact Hf. now rewrite He.
Qed.

End NeverThrows.

(** C6, at the input where the code departs from it.  The manager is
    initialized (successfully) in a world whose engine later refuses new
    connections; [query], [execute] and [getUserConnection] for a tenant
    that is not cached then end by raising the engine's error instead of
    returning a [Left]. *)
Theorem query_raises_past_boundary :
  fst (init connect_fails (new_DuckPond (config_with 10 Parquet)))
  = Normal (Right tt)
  /\ initialized (snd (init connect_fails (new_DuckPond (config_with 10 Parquet))))
     = true
  /\ fst (query connect_fails "user1" "SELECT 1"
            (snd (init connect_fails (new_DuckPond (config_with 10 Parquet)))))
     = Throw (JsError "IO Error: out of memory")
  /\ fst (execute connect_fails "user1" "SELECT 1"
            (snd (init connect_fails (new_DuckPond (config_with 10 Parquet)))))
     = Throw (JsError "IO Error: out of memory")
  /\ fst (getUserConnection connect_fails "user1"
            (snd (init connect_fails (new_DuckPond (config_with 10 Parquet)))))
     = Throw (JsError "IO Error: out of memory").
Proof. vm_compute. repeat split. Qed.

(** ** C7: a query the engine rejects *)

Lemma getUserConnection_hit (w : World) userId item s :
  initialized s = true ->
  JsMap.get userId (LRUCache.cache (cache s)) = Some item ->
  getUserConnection w userId s
  = (Normal (success (connection item)),
     with_tick (S (tick s))
       (with_cache (snd (LRUCache.get (clock w (tick s)) userId (cache s))) s)).
Proof.
  intros Hi Hg. unfold getUserConnection, bind, gets. rewrite Hi. simpl.
  now rewrite (cache_get_hit w _ _ Hg).
Qed.

Lemma has_after_get now key (c : LRUCache.t) item :
  JsMap.get key (LRUCache.cache c) = Some item ->
  LRUCache.has key (snd (LRUCache.get now key c)) = true.
Proof.
  intros H. rewrite (get_present now _ _ H). unfold LRUCache.has, JsMap.has.
  simpl. rewrite get_app, get_remove_same. simpl. now rewrite String.eqb_refl.
Qed.

Section AnySchedule.

Variable w : World.

Lemma forEach_settle_tick l s :
  exists s', forEach settle l s = (Normal tt, s') /\ tick s' = tick s.
Proof.
  pose proof (@preserves_forEach (fun s' => tick s' = tick s) nat settle l) as H.
  assert (tick (snd (forEach settle l s)) = tick s) as Ht.
  { apply H; [|reflexivity]. intros i. apply preserves_settle; auto. }
  destruct (@never_throws_forEach nat settle l never_throws_settle s) as [[] Hr].
  destruct (forEach settle l s) as [r s']. simpl in *. subst r. eauto.
Qed.

(** Whatever is in flight, an awaited engine call ends as the engine
    decides and costs two interactions. *)
Lemma run_any conn sql s :
  exists s',
    run w conn sql s = (completion_of tt (conn_run w (tick s) conn sql), s')
    /\ tick s' = S (S (tick s)).
Proof.
  unfold run, await, yield. rewrite bind_interact, bind_run, bind_interact.
  destruct (forEach_settle_tick (sched w (tick (with_tick (S (tick s)) s)))
              (with_tick (S (tick (with_tick (S (tick s)) s)))
                 (with_tick (S (tick s)) s))) as (s' & E & Ht).
  rewrite E. exists s'. split; [reflexivity|]. exact Ht.
Qed.

Lemma getRowObjects_any conn sql s :
  exists s',
    getRowObjects w conn sql s = (result_getRowObjects w (tick s) conn sql, s')
    /\ tick s' = S (S (tick s)).
Proof.
  unfold getRowObjects, await, yield.
  rewrite bind_interact, bind_run, bind_interact.
  destruct (forEach_settle_tick (sched w (tick (with_tick (S (tick s)) s)))
              (with_tick (S (tick (with_tick (S (tick s)) s)))
                 (with_tick (S (tick s)) s))) as (s' & E & Ht).
  rewrite E. exists s'. split; [reflexivity|]. exact Ht.
Qed.

(** What [query] returns for a cached tenant. *)
Lemma query_hit_result userId sql item s :
  initialized s = true ->
  JsMap.get userId (LRUCache.cache (cache s)) = Some item ->
  fst (query w userId sql s)
  = match engine_query w (S (tick s)) (connection item) sql with
    | Normal rows => Normal (success rows)
    | Throw e => Normal (Left (toDuckPondError e QUERY_EXECUTION_ERROR))
    end.
Proof.
  intros Hi Hg. unfold query. rewrite bind_run, (getUserConnection_hit w _ _ Hi Hg).
  unfold success at 1. cbv iota beta. rewrite try_catch_run, bind_run.
  match goal with
  | |- context [run w ?c ?q ?st] =>
      destruct (run_any c q st) as (s2 & E2 & Ht2)
  end.
  rewrite E2. cbn [tick with_tick connection set_lastAccess] in *.
  unfold engine_query.
  destruct (conn_run w (S (tick s)) (connection item) (UserSql sql)) as [e|];
    cbn [completion_of]; cbv iota beta; [reflexivity|].
  rewrite bind_run.
  destruct (getRowObjects_any (connection item) (UserSql sql) s2)
    as (s3 & E3 & _).
  rewrite E3, Ht2.
  destruct (result_getRowObjects w (S (S (S (tick s)))) (connection item)
              (UserSql sql)); reflexivity.
Qed.

End AnySchedule.

(** ** Tenants that no pending detach will remove *)

Section Pending.

Variable w : World.
Variable u : string.

Lemma extract_In {A : Type} i : forall (l : list A) p rest,
  extract i l = Some (p, rest) ->
  In p l /\ forall q, In q rest -> In q l.
Proof.
  induction i as [|j IH]; intros [|x l] p rest; simpl; try discriminate.
  - intros H. inversion H; subst. auto.
  - destruct (extract j l) as [[y rest']|] eqn:E; [|discriminate].
    intros H. inversion H; subst. destruct (IH l p rest' E) as (H1 & H2).
    split; [now right|]. intros q [<-|Hq]; [now left|right; auto].
Qed.

Lemma pending_detach_false s :
  pending_detach u s = false <->
  forall p, In p (inFlight s) -> suspendedUser p = u ->
            suspendedOutcome p <> None.
Proof.
  unfold pending_detach. split.
  - intros H p Hin Hu Ho.
    assert (existsb
              (fun p => String.eqb (suspendedUser p) u
                        && match suspendedOutcome p with
                           | None => true
                           | Some _ => false
                           end) (inFlight s) = true) as Habs.
    { apply existsb_exists. exists p. split; [exact Hin|].
      rewrite Hu, Ho, String.eqb_refl. reflexivity. }
    congruence.
  - intros H.
    destruct (existsb _ (inFlight s)) eqn:E; [|reflexivity].
    apply existsb_exists in E. destruct E as (p & Hin & Hp).
    apply andb_true_iff in Hp. destruct Hp as (Hu & Ho).
    apply String.eqb_eq in Hu. exfalso. apply (H p Hin Hu).
    now destruct (suspendedOutcome p).
Qed.

Lemma kept_tick n s : kept u s -> kept u (with_tick n s).
Proof. auto. Qed.

Lemma kept_settle i : preserves (kept u) (settle i).
Proof.
  intros s (Ha & Hp). unfold settle.
  destruct (extract i (inFlight s)) as [[p rest]|] eqn:E; [|now split].
  destruct (extract_In _ _ E) as (Hin & Hrest).
  pose proof (proj1 (pending_detach_false s) Hp) as Hall.
  assert (pending_detach u (with_inFlight rest s) = false) as Hp'.
  { apply pending_detach_false. intros q Hq. apply Hall. now apply Hrest. }
  rewrite bind_run. unfold detachUser_resume.
  destruct (suspendedOutcome p) as [e|] eqn:Eo.
  - simpl. now split.
  - rewrite bind_run. unfold cache_delete. simpl. split; [|exact Hp'].
    assert (u <> suspendedUser p) as Hne.
    { intros Hu. apply (Hall p Hin (eq_sym Hu)). exact Eo. }
    unfold isAttached, LRUCache.has, JsMap.has in *. simpl.
    now rewrite get_remove_other.
Qed.

Lemma kept_yield : preserves (kept u) (yield w).
Proof.
  unfold yield. apply preserves_bind.
  - intros s H. now apply kept_tick.
  - intros n. apply preserves_forEach. intros i. apply kept_settle.
Qed.

Lemma kept_await {A : Type} (r : Completion A) : preserves (kept u) (await w r).
Proof.
  unfold await. apply preserves_bind; [apply kept_yield|].
  intros _ s H. exact H.
Qed.

Lemma kept_run conn sql : preserves (kept u) (run w conn sql).
Proof.
  unfold run. apply preserves_bind.
  - intros s H. now apply kept_tick.
  - intros n. apply kept_await.
Qed.

Lemma kept_getRowObjects conn sql :
  preserves (kept u) (getRowObjects w conn sql).
Proof.
  unfold getRowObjects. apply preserves_bind.
  - intros s H. now apply kept_tick.
  - intros n. apply kept_await.
Qed.

(** The lookup of a cached tenant keeps it. *)
Lemma kept_after_get item n s :
  JsMap.get u (LRUCache.cache (cache s)) = Some item ->
  pending_detach u s = false ->
  kept u (with_tick n
            (with_cache (snd (LRUCache.get (clock w (tick s)) u (cache s))) s)).
Proof.
  intros Hg Hp. split; [|exact Hp].
  unfold isAttached. simpl. now apply has_after_get with (item := item).
Qed.

Lemma idle_not_pending s : inFlight s = [] -> pending_detach u s = false.
Proof. unfold pending_detach. now intros ->. Qed.

End Pending.

(** C7, as the code has it.  For an attached tenant on an initialized
    manager, a query whose statement the engine rejects with an [Error] of
    message [msg] returns the error [QUERY_EXECUTION_ERROR] with that same
    message (non-empty when [msg] is) and the engine's error as cause,
    under any schedule.  The failure itself removes nothing: the tenant is
    still attached afterwards unless a [detachUser] of that tenant, started
    and not awaited by an eviction or by the idle sweep, had its [DETACH]
    accepted and is still pending; and when nothing at all is in flight
    the cache is exactly what the lookup of the tenant made it (the entry
    refreshed). *)
Theorem query_failure_keeps_tenant (w : World) (s : Pond) (userId sql : string)
    (item : UserDatabase) (msg : string) :
  initialized s = true ->
  JsMap.get userId (LRUCache.cache (cache s)) = Some item ->
  engine_query w (S (tick s)) (connection item) sql = Throw (JsError msg) ->
  fst (query w userId sql s)
  = Normal (Left {| code := QUERY_EXECUTION_ERROR; message := msg;
                    cause := Some (JsError msg); context := None |})
  /\ (msg <> "" ->
      forall err, fst (query w userId sql s) = Normal (Left err) ->
                  message err <> "")
  /\ (pending_detach userId s = false ->
      isAttached userId (snd (query w userId sql s)) = true)
  /\ (inFlight s = [] ->
      cache (snd (query w userId sql s))
      = snd (LRUCache.get (clock w (tick s)) userId (cache s))).
Proof.
  intros Hi Hg He.
  assert (fst (query w userId sql s)
          = Normal (Left {| code := QUERY_EXECUTION_ERROR; message := msg;
                            cause := Some (JsError msg); context := None |}))
    as Hr by (rewrite (@query_hit_result w userId sql item s Hi Hg), He;
              reflexivity).
  split; [exact Hr|]. split.
  { rewrite Hr. intros Hne err Herr. inversion Herr; subst. exact Hne. }
  split.
  - intros Hp.
    pose proof (@kept_after_get w userId item (S (tick s)) s Hg Hp) as Hk.
    assert (forall conn,
              preserves (kept userId)
                (try_catch
                   (run w conn (UserSql sql) ;;
                    rows <- getRowObjects w conn (UserSql sql) ;;
                    ret (success rows))
                   (fun error =>
                      ret (Left (toDuckPondError error QUERY_EXECUTION_ERROR)))))
      as P.
    { intros conn. apply preserves_try_catch.
      - apply preserves_bind; [apply kept_run|]. intros _.
        apply preserves_bind; [apply kept_getRowObjects|]. intros rows.
        apply preserves_ret.
      - intros e. apply preserves_ret. }
    unfold query. rewrite bind_run, (getUserConnection_hit w _ _ Hi Hg).
    unfold success at 1. cbv iota beta.
    exact (proj1 (P _ _ Hk)).
  - intros Hf.
    assert (exists n,
      snd (query w userId sql s)
      = with_tick n
          (with_cache (snd (LRUCache.get (clock w (tick s)) userId (cache s))) s))
      as [n E].
    { unfold query, bind. rewrite (getUserConnection_hit w _ _ Hi Hg).
      unfold success, try_catch. cbv beta iota. rewrite run_idle by exact Hf.
      unfold engine_query in He. simpl tick.
      destruct (conn_run w (S (tick s)) (connection item) (UserSql sql)) as [e|].
      - exists (S (S (S (tick s)))). reflexivity.
      - simpl completion_of. cbv beta iota.
        rewrite getRowObjects_idle by exact Hf. simpl tick. rewrite He.
        exists (S (S (S (S (S (tick s)))))). reflexivity. }
    rewrite E. reflexivity.
Qed.

Lemma query_failure_keeps_tenant_witness :
  fst (query query_fails "user1" "SELECT * FROM nonexistent_table"
         (pond_with Parquet 10 [("user1", tenant "user1" 7%nat 8000)]))
  = Normal (Left {| code := QUERY_EXECUTION_ERROR;
                    message := "Catalog Error: Table nonexistent_table does not exist";
                    cause := Some (JsError
                      "Catalog Error: Table nonexistent_table does not exist");
                    context := None |})
  /\ isAttached "user1"
       (snd (query query_fails "user1" "SELECT * FROM nonexistent_table"
               (pond_with Parquet 10 [("user1", tenant "user1" 7%nat 8000)])))
     = true.
Proof.
  destruct (@query_failure_keeps_tenant query_fails
              (pond_with Parquet 10 [("user1", tenant "user1" 7%nat 8000)])
              "user1" "SELECT * FROM nonexistent_table" (tenant "user1" 7%nat 8000)
              "Catalog Error: Table nonexistent_table does not exist"
              eq_refl eq_refl eq_refl) as (H1 & _ & H3 & _).
  split; [exact H1|exact (H3 eq_refl)].
Defined.

(** An input at which the statement of C7 fails.  Under [duckdb], a tenant
    is cached; the idle sweep finds it stale and starts a [detachUser] that
    it does not await, whose [DETACH] the engine accepts.  The tenant is
    still attached when [query] is called; the query fails in the engine
    and returns [QUERY_EXECUTION_ERROR]; while it waited for the engine the
    pending detach finished, and the tenant is no longer attached. *)
Lemma query_failure_after_sweep :
  isAttached "user1"
    (run_calls query_fails_prompt
       [CallInit; CallGetUserConnection "user1"; TimerFires 6%nat]
       (new_DuckPond (config_idle 10 Duckdb 1))) = true
  /\ pending_detach "user1"
       (run_calls query_fails_prompt
          [CallInit; CallGetUserConnection "user1"; TimerFires 6%nat]
          (new_DuckPond (config_idle 10 Duckdb 1))) = true
  /\ fst (query query_fails_prompt "user1" "SELECT * FROM nonexistent_table"
            (run_calls query_fails_prompt
               [CallInit; CallGetUserConnection "user1"; TimerFires 6%nat]
               (new_DuckPond (config_idle 10 Duckdb 1))))
     = Normal (Left {| code := QUERY_EXECUTION_ERROR;
                       message :=
                         "Catalog Error: Table nonexistent_table does not exist";
                       cause := Some (JsError
                         "Catalog Error: Table nonexistent_table does not exist");
                       context := None |})
  /\ isAttached "user1"
       (snd (query query_fails_prompt "user1" "SELECT * FROM nonexistent_table"
               (run_calls query_fails_prompt
                  [CallInit; CallGetUserConnection "user1"; TimerFires 6%nat]
                  (new_DuckPond (config_idle 10 Duckdb 1)))))
     = false.
Proof. vm_compute. repeat split. Qed.

(** ** C3: a manual [detachUser] *)

Section Detach.

Variable w : World.

Lemma yield_returns s : exists s', yield w s = (Normal tt, s').
Proof.
  destruct (never_throws_yield w s) as [[] H].
  destruct (yield w s) as [r s']. simpl in H. subst r. now exists s'.
Qed.

Lemma has_remove_same key (m : JsMap.t) : JsMap.has key (JsMap.remove key m) = false.
Proof. unfold JsMap.has. now rewrite get_remove_same. Qed.

Lemma cache_delete_run key s :
  cache_delete key s
  = (Normal (JsMap.has key (LRUCache.cache (cache s))),
     with_cache (snd (LRUCache.delete key (cache s))) s).
Proof. reflexivity. Qed.

Lemma detachUser_start_hit userId item s :
  JsMap.get userId (LRUCache.cache (cache s)) = Some item ->
  detachUser_start w userId s
  = let s1 := with_tick (S (tick s))
                (with_cache
                   (snd (LRUCache.get (clock w (tick s)) userId (cache s))) s) in
    if is_duckdb (strategy (config s)) then
      (Normal (Awaiting
                 {| suspendedUser := userId;
                    suspendedOutcome :=
                      conn_run w (S (tick s)) (connection item)
                        (Detach ("user_" ++ userId)%string) |}),
       with_tick (S (S (tick s))) s1)
    else
      (Normal (Returned (success tt)),
       with_cache (snd (LRUCache.delete userId (cache s1))) s1).
Proof.
  intros H. unfold detachUser_start.
  rewrite bind_run, (cache_get_hit w _ _ H), bind_gets. cbn [config with_tick with_cache].
  destruct (is_duckdb (strategy (config s))).
  - reflexivity.
  - reflexivity.
Qed.

Lemma detachUser_start_miss userId s :
  JsMap.get userId (LRUCache.cache (cache s)) = None ->
  detachUser_start w userId s = (Normal (Returned (success tt)), s).
Proof.
  intros H. unfold detachUser_start.
  now rewrite bind_run, (cache_get_miss w _ _ H).
Qed.

End Detach.

(** C3, as the code has it.  A manual [detachUser] of a cached tenant
    first refreshes the tenant's entry.  Under a strategy other than
    [duckdb] there is no engine step: the entry is removed and the call
    succeeds, with the clock as only external interaction.  Under
    [duckdb] the engine runs [DETACH user_<id>] on the tenant's
    connection.  If that succeeds, the entry is removed and the call
    succeeds.  If it raises, the call returns the error [STORAGE_ERROR]
    with the raised value as cause, under any schedule, and the call
    itself does NOT remove the entry: the tenant is still attached
    afterwards unless another [detachUser] of that tenant, started and not
    awaited by an eviction or by the idle sweep, had its [DETACH] accepted
    and is still pending; and when nothing at all is in flight the cache
    is what the refresh made it. *)
Theorem detachUser_cached (w : World) (s : Pond) (userId : string)
    (item : UserDatabase) :
  JsMap.get userId (LRUCache.cache (cache s)) = Some item ->
  match is_duckdb (strategy (config s)),
        conn_run w (S (tick s)) (connection item)
          (Detach ("user_" ++ userId)%string) with
  | false, _ =>
      fst (detachUser w userId s) = Normal (success tt)
      /\ isAttached userId (snd (detachUser w userId s)) = false
      /\ tick (snd (detachUser w userId s)) = S (tick s)
  | true, None =>
      fst (detachUser w userId s) = Normal (success tt)
      /\ isAttached userId (snd (detachUser w userId s)) = false
  | true, Some e =>
      fst (detachUser w userId s)
      = Normal (Errors.storageError "Failed to detach user" e)
      /\ (pending_detach userId s = false ->
          isAttached userId (snd (detachUser w userId s)) = true)
      /\ (inFlight s = [] ->
          cache (snd (detachUser w userId s))
          = snd (LRUCache.get (clock w (tick s)) userId (cache s)))
  end.
Proof.
  intros H. unfold detachUser.
  rewrite bind_run, (detachUser_start_hit w _ _ H). cbv zeta.
  destruct (is_duckdb (strategy (config s))).
  - cbv iota beta. rewrite bind_run.
    destruct (conn_run w (S (tick s)) (connection item)
                (Detach ("user_" ++ userId)%string)) as [e|] eqn:E.
    + split; [|split].
      * destruct (yield_returns w
          (with_tick (S (S (tick s)))
             (with_tick (S (tick s))
                (with_cache
                   (snd (LRUCache.get (clock w (tick s)) userId (cache s))) s))))
          as [s2 E2].
        now rewrite E2.
      * intros Hp.
        pose proof (@kept_after_get w userId item (S (tick s)) s H Hp) as Hk.
        apply (@kept_tick userId (S (S (tick s)))) in Hk.
        apply (@kept_yield w userId) in Hk.
        destruct (yield w _) as [[[]|e'] s2]; simpl in *; exact (proj1 Hk).
      * intros Hf. rewrite yield_idle by exact Hf. reflexivity.
    + destruct (yield_returns w
        (with_tick (S (S (tick s)))
           (with_tick (S (tick s))
              (with_cache
                 (snd (LRUCache.get (clock w (tick s)) userId (cache s))) s))))
        as [s2 E2].
      rewrite E2. unfold detachUser_resume. cbn [suspendedOutcome suspendedUser].
      rewrite bind_run, cache_delete_run. simpl.
      split; [reflexivity|]. apply has_remove_same.
  - simpl. split; [reflexivity|]. split; [|reflexivity]. apply has_remove_same.
Qed.

Lemma detachUser_cached_witness :
  fst (detachUser detach_fails "user1"
         (pond_with Duckdb 10 [("user1", tenant "user1" 7%nat 8000)]))
  = Normal (Errors.storageError "Failed to detach user"
              (JsError "Catalog Error: database is in use"))
  /\ isAttached "user1"
       (snd (detachUser detach_fails "user1"
               (pond_with Duckdb 10 [("user1", tenant "user1" 7%nat 8000)])))
     = true.
Proof.
  destruct (@detachUser_cached detach_fails
              (pond_with Duckdb 10 [("user1", tenant "user1" 7%nat 8000)])
              "user1" (tenant "user1" 7%nat 8000) eq_refl) as (H1 & H2 & _).
  split; [exact H1|]. exact (H2 eq_refl).
Defined.

(** The proviso of C3 at work.  Under [duckdb] the idle sweep has started a
    [detachUser] of the tenant whose [DETACH] the engine accepted; a manual
    [detachUser] follows, whose own [DETACH] the engine rejects: it returns
    [STORAGE_ERROR], and the tenant is gone all the same, removed by the
    pending call that finished in the meantime. *)
Example detach_failure_after_sweep :
  pending_detach "user1"
    (run_calls (detach_fails_from 16)
       [CallInit; CallGetUserConnection "user1"; TimerFires 6%nat]
       (new_DuckPond (config_idle 10 Duckdb 1))) = true
  /\ fst (detachUser (detach_fails_from 16) "user1"
            (run_calls (detach_fails_from 16)
               [CallInit; CallGetUserConnection "user1"; TimerFires 6%nat]
               (new_DuckPond (config_idle 10 Duckdb 1))))
     = Normal (Errors.storageError "Failed to detach user"
                 (JsError "Catalog Error: database is in use"))
  /\ isAttached "user1"
       (snd (detachUser (detach_fails_from 16) "user1"
               (run_calls (detach_fails_from 16)
                  [CallInit; CallGetUserConnection "user1"; TimerFires 6%nat]
                  (new_DuckPond (config_idle 10 Duckdb 1)))))
     = false.
Proof. vm_compute. repeat split. Qed.

(** When the engine rejects [DETACH], a manual [detachUser] returns an
    error and the tenant is still in the cache. *)
Lemma detach_failure_keeps_entry :
  isAttached "user1"
    (run_calls detach_fails [CallInit; CallGetUserConnection "user1"]
       (new_DuckPond (config_with 10 Duckdb))) = true
  /\ fst (detachUser detach_fails "user1"
            (run_calls detach_fails [CallInit; CallGetUserConnection "user1"]
               (new_DuckPond (config_with 10 Duckdb))))
     = Normal (Left {| code := STORAGE_ERROR; message := "Failed to detach user";
                       cause := Some (JsError "Catalog Error: database is in use");
                       context := None |})
  /\ isAttached "user1"
       (snd (detachUser detach_fails "user1"
               (run_calls detach_fails [CallInit; CallGetUserConnection "user1"]
                  (new_DuckPond (config_with 10 Duckdb)))))
     = true.
Proof. vm_compute. repeat split. Qed.

(** ** C5: a failed [init] *)

Section Init.

Variable w : World.

Lemma only_ticks_refl s : only_ticks s s.
Proof. unfold only_ticks. repeat split; auto. Qed.

Ltac contradict_engine Hok :=
  match goal with
  | E : conn_run w ?k _ _ = Some _ |- _ =>
      let H := fresh in
      assert (engine_ok w k) as H by (apply Hok; cbn; lia);
      destruct H as (_ & _ & H); rewrite H in E; discriminate
  | E : instance_connect w ?k _ = Some _ |- _ =>
      let H := fresh in
      assert (engine_ok w k) as H by (apply Hok; cbn; lia);
      destruct H as (_ & H & _); rewrite H in E; discriminate
  end.

Ltac finish_setup :=
  do 2 eexists; split; [reflexivity|];
  split; [unfold only_ticks; cbn; repeat split; lia|];
  split;
    [ intros Hok; first [reflexivity | contradict_engine Hok]
    | intros err Herr;
      first [discriminate Herr | inversion Herr; cbn; discriminate] ].

Ltac run_next Hf :=
  try rewrite bind_run; rewrite run_idle by exact Hf;
  match goal with
  | |- context [conn_run w ?k ?c ?q] =>
      let E := fresh "E" in
      destruct (conn_run w k c q) eqn:E; cbn [completion_of]; cbv iota beta
  end.

(** [setupCloudStorage] makes engine calls only; it succeeds when the
    engine accepts all of them, and the error it returns is never empty. *)
Lemma setupCloudStorage_idle s inst :
  inFlight s = [] ->
  instance s = Some inst ->
  exists r s',
    setupCloudStorage w s = (r, s')
    /\ only_ticks s s'
    /\ ((forall k, (tick s <= k)%nat -> engine_ok w k) -> r = Normal (Right tt))
    /\ (forall err, r = Normal (Left err) -> message err <> "").
Proof.
  intros Hf Hinst. unfold setupCloudStorage.
  rewrite bind_gets, Hinst, bind_run, connect_idle by exact Hf.
  destruct (instance_connect w (tick s) inst) eqn:Ec; cbn [completion_of];
    cbv iota beta.
  { do 2 eexists. split; [reflexivity|].
    split; [unfold only_ticks; cbn; repeat split; lia|].
    split; [intros Hok; contradict_engine Hok|intros err Herr; discriminate Herr]. }
  rewrite bind_gets, try_catch_run. cbn [config with_tick].
  destruct (r2 (config s)) as [r|], (s3 (config s)) as [s3c|].
  - run_next Hf; [finish_setup|]. rewrite bind_run.
    run_next Hf; [finish_setup|]. run_next Hf; [finish_setup|].
    run_next Hf; finish_setup.
  - run_next Hf; [finish_setup|]. rewrite bind_run.
    run_next Hf; [finish_setup|]. run_next Hf; [finish_setup|].
    run_next Hf; finish_setup.
  - run_next Hf; [finish_setup|]. rewrite bind_run.
    run_next Hf; [finish_setup|]. run_next Hf; [finish_setup|].
    run_next Hf; finish_setup.
  - rewrite bind_ret, bind_ret. run_next Hf; finish_setup.
Qed.

Lemma code_toDuckPondError e c : code (toDuckPondError e c) = c.
Proof. now destruct e. Qed.

(** What [init] does on a manager that is not initialized. *)
Lemma init_idle s :
  initialized s = false ->
  inFlight s = [] ->
  exists r s',
    init w s = (r, s')
    /\ cache s' = cache s /\ config s' = config s /\ inFlight s' = []
    /\ (tick s <= tick s')%nat
    /\ match r with
       | Normal (Right _) =>
           initialized s' = true /\ instance s' = Some (tick s)
           /\ exists t, evictionTimer s' = Some t
                        /\ activeTimers s' = activeTimers s ++ [t]
       | Normal (Left err) =>
           code err = CONNECTION_FAILED
           /\ initialized s' = false
           /\ evictionTimer s' = evictionTimer s
           /\ activeTimers s' = activeTimers s
           /\ instance s'
              = match instance_create w (tick s) with
                | None => Some (tick s)
                | Some _ => instance s
                end
       | Throw _ => False
       end
    /\ ((forall k, (tick s <= k)%nat -> engine_ok w k) -> r = Normal (Right tt)).
Proof.
  intros Hi Hf. unfold init.
  rewrite bind_gets, Hi, try_catch_run, bind_run, create_idle by exact Hf.
  destruct (instance_create w (tick s)) as [e|] eqn:Ec; cbn [completion_of];
    cbv iota beta.
  { do 2 eexists. split; [reflexivity|]. cbn.
    repeat split; auto; try lia.
    - apply code_toDuckPondError.
    - intros Hok. destruct (Hok (tick s) (le_n _)) as (Hc & _). congruence. }
  rewrite bind_modify, bind_run.
  destruct (@setupCloudStorage_idle
              (with_instance (@Some DuckDBInstance (tick s))
                 (with_tick (S (S (tick s))) s))
              (tick s) Hf eq_refl)
    as (r & s2 & E & (H1 & H2 & H3 & H4 & H5 & H6 & H7 & H8) & Hok & Hmsg).
  rewrite E. cbn in H1, H2, H3, H4, H5, H6, H7, H8.
  destruct r as [[err|[]]|e]; cbv iota beta.
  - do 2 eexists. split; [reflexivity|]. cbn.
    repeat split; auto; try lia; try congruence.
    intros Hall. cbn in Hok.
    assert (Normal (Left err) = Normal (Right tt)) as Habs
      by (apply Hok; intros k Hk; apply Hall; lia).
    discriminate Habs.
  - do 2 eexists. split; [reflexivity|]. cbn.
    repeat split; auto; try lia; try congruence.
    exists (tick s2). split; [reflexivity|]. now rewrite H7.
  - do 2 eexists. split; [reflexivity|]. cbn.
    repeat split; auto; try lia; try congruence.
    + apply code_toDuckPondError.
    + intros Hall. cbn in Hok.
      assert (@Throw (DuckPondResult unit) e = Normal (Right tt)) as Habs
        by (apply Hok; intros k Hk; apply Hall; lia).
      discriminate Habs.
Qed.

End Init.




(** ** The key-level view of the cache *)

Section Keys.

Implicit Types (c : LRUCache.t) (key : string) (ks : list string).

Lemma has_mem key (m : JsMap.t) : JsMap.has key m = mem key (JsMap.keys m).
Proof.
  unfold JsMap.has, mem. induction m as [|[k v] m IH]; simpl; auto.
  rewrite (String.eqb_sym key k). destruct (String.eqb k key); auto.
Qed.

Lemma without_idem key ks : without key (without key ks) = without key ks.
Proof.
  unfold without. induction ks as [|k ks IH]; simpl; auto.
  destruct (String.eqb k key) eqn:E; simpl; [auto|]. now rewrite E, IH.
Qed.

Lemma without_app key ks1 ks2 :
  without key (ks1 ++ ks2) = without key ks1 ++ without key ks2.
Proof. apply filter_app. Qed.

Lemma without_absent key ks : mem key ks = false -> without key ks = ks.
Proof.
  unfold mem, without. induction ks as [|k ks IH]; simpl; auto.
  rewrite (String.eqb_sym key k).
  destruct (String.eqb k key); simpl; [discriminate|].
  intros H. now rewrite IH.
Qed.

Lemma mem_without_other key k ks :
  k <> key -> mem k (without key ks) = mem k ks.
Proof.
  intros Hne. unfold mem, without. induction ks as [|k' ks IH]; simpl; auto.
  destruct (String.eqb_spec k' key) as [->|Hne']; simpl.
  - destruct (String.eqb_spec k key); [contradiction|auto].
  - now rewrite IH.
Qed.

Lemma keys_after_get now key c :
  LRUCache.keys (snd (LRUCache.get now key c)) = keys_get key (LRUCache.keys c).
Proof.
  unfold keys_get, LRUCache.keys. rewrite <- has_mem. unfold JsMap.has.
  destruct (JsMap.get key (LRUCache.cache c)) as [item|] eqn:E.
  - rewrite (get_present now _ _ E). simpl.
    now rewrite keys_app, keys_remove.
  - now rewrite (get_absent now _ _ E).
Qed.

Lemma keys_after_delete key c :
  LRUCache.keys (snd (LRUCache.delete key c)) = without key (LRUCache.keys c).
Proof. unfold LRUCache.keys. simpl. apply keys_remove. Qed.

Lemma keys_after_evictLRU c :
  LRUCache.keys (LRUCache.evictLRU c) = evict_first (LRUCache.keys c).
Proof.
  unfold LRUCache.evictLRU, LRUCache.getLRU, LRUCache.keys, evict_first.
  destruct (LRUCache.cache c) as [|[k v] m] eqn:E; simpl.
  - now rewrite E.
  - rewrite String.eqb_refl. simpl. apply keys_remove.
Qed.

Lemma keys_length (m : JsMap.t) : List.length (JsMap.keys m) = List.length m.
Proof. apply length_map. Qed.

Lemma keys_after_set now key value c :
  LRUCache.keys (LRUCache.set now key value c)
  = keys_set (LRUCache.maxSize c) key (LRUCache.keys c).
Proof.
  unfold keys_set, LRUCache.set.
  set (c1 := if JsMap.has key (LRUCache.cache c) then _ else c).
  assert (LRUCache.keys c1
          = (if mem key (LRUCache.keys c) then without key (LRUCache.keys c)
             else LRUCache.keys c)
          /\ LRUCache.maxSize c1 = LRUCache.maxSize c
          /\ JsMap.get key (LRUCache.cache c1) = None) as (Hk1 & Hm1 & Hg1).
  { subst c1. unfold LRUCache.keys. rewrite <- has_mem.
    destruct (JsMap.has key (LRUCache.cache c)) eqn:E; simpl.
    - split; [apply keys_remove|]. split; [reflexivity|apply get_remove_same].
    - split; [reflexivity|]. split; [reflexivity|now apply has_false_get]. }
  clearbody c1. rewrite <- Hk1, <- Hm1.
  unfold JsMap.size. rewrite <- (keys_length (LRUCache.cache c1)).
  fold (LRUCache.keys c1).
  destruct (Z.of_nat (List.length (LRUCache.keys c1)) >=? LRUCache.maxSize c1).
  - unfold LRUCache.keys at 1. simpl.
    rewrite set_fresh by now apply get_evictLRU_None.
    rewrite keys_app. simpl. f_equal. apply keys_after_evictLRU.
  - unfold LRUCache.keys at 1. simpl.
    rewrite set_fresh by exact Hg1. now rewrite keys_app.
Qed.

End Keys.

(** ** What [getUserConnection] does to the keys *)

Section Acquire.

Variable w : World.

Lemma getLRU_get (c : LRUCache.t) k :
  LRUCache.getLRU c = Some k ->
  exists item, JsMap.get k (LRUCache.cache c) = Some item.
Proof.
  unfold LRUCache.getLRU. destruct (LRUCache.cache c) as [|[k' v] m]; [discriminate|].
  intros H. inversion H; subst. exists v. simpl. now rewrite String.eqb_refl.
Qed.

Lemma getLRU_keys (c : LRUCache.t) :
  LRUCache.getLRU c = hd_error (LRUCache.keys c).
Proof.
  unfold LRUCache.getLRU, LRUCache.keys.
  now destruct (LRUCache.cache c) as [|[k v] m].
Qed.

Lemma without_first k ks :
  without k (keys_get k (k :: ks)) = evict_first (k :: ks).
Proof.
  unfold keys_get, evict_first.
  assert (mem k (k :: ks) = true) as ->
    by (unfold mem; simpl; now rewrite String.eqb_refl).
  rewrite without_app, without_idem. simpl. rewrite String.eqb_refl. simpl.
  apply app_nil_r.
Qed.

(** Without an engine step the eviction is over when [evictLRU] returns. *)
Lemma evictLRU_plain s :
  is_duckdb (strategy (config s)) = false ->
  exists s1,
    evictLRU w s = (Normal tt, s1)
    /\ LRUCache.keys (cache s1) = evict_first (LRUCache.keys (cache s))
    /\ LRUCache.maxSize (cache s1) = LRUCache.maxSize (cache s)
    /\ config s1 = config s /\ inFlight s1 = inFlight s
    /\ instance s1 = instance s.
Proof.
  intros Hd. unfold evictLRU. rewrite bind_gets.
  destruct (LRUCache.getLRU (cache s)) as [k|] eqn:E.
  - destruct (getLRU_get _ E) as [item Hg].
    unfold detachUser_detached.
    rewrite bind_run, (detachUser_start_hit w _ _ Hg), Hd. cbv zeta iota beta.
    eexists. split; [reflexivity|]. cbn [cache config inFlight instance
                                          with_cache with_tick].
    rewrite keys_after_delete, keys_after_get.
    rewrite getLRU_keys in E.
    destruct (LRUCache.keys (cache s)) as [|k0 ks] eqn:Ek; [discriminate|].
    simpl in E. inversion E; subst k0.
    repeat split; try reflexivity.
    + apply without_first.
    + simpl. now rewrite (get_present _ _ _ Hg).
  - exists s. rewrite getLRU_keys in E.
    destruct (LRUCache.keys (cache s)); [|discriminate].
    repeat split; reflexivity.
Qed.

(** With an engine step, [evictLRU] returns while the detach is suspended:
    the oldest tenant has been refreshed, not removed. *)
Lemma evictLRU_duckdb s k :
  is_duckdb (strategy (config s)) = true ->
  inFlight s = [] ->
  LRUCache.getLRU (cache s) = Some k ->
  exists p s1,
    evictLRU w s = (Normal tt, s1)
    /\ inFlight s1 = [p] /\ suspendedUser p = k
    /\ (exists conn,
          suspendedOutcome p
          = conn_run w (S (tick s)) conn (Detach ("user_" ++ k)%string))
    /\ tick s1 = S (S (tick s))
    /\ LRUCache.keys (cache s1) = keys_get k (LRUCache.keys (cache s))
    /\ LRUCache.maxSize (cache s1) = LRUCache.maxSize (cache s)
    /\ config s1 = config s /\ instance s1 = instance s.
Proof.
  intros Hd Hf E. unfold evictLRU. rewrite bind_gets, E.
  destruct (getLRU_get _ E) as [item Hg].
  unfold detachUser_detached.
  rewrite bind_run, (detachUser_start_hit w _ _ Hg), Hd. cbv zeta iota beta.
  do 2 eexists. split; [reflexivity|].
  cbn [cache config inFlight instance tick with_cache with_tick with_inFlight
       suspendedUser suspendedOutcome].
  rewrite Hf, keys_after_get. repeat split; auto.
  - exists (connection item). reflexivity.
  - now rewrite (get_present _ _ _ Hg).
Qed.

Lemma cache_set_run key value s :
  cache_set w key value s
  = (Normal tt,
     with_cache
       (LRUCache.set (clock w (tick s)) key value (cache s))
       (with_tick (S (tick s)) s)).
Proof. reflexivity. Qed.

Lemma set_maxSize now key value (c : LRUCache.t) :
  LRUCache.maxSize (LRUCache.set now key value c) = LRUCache.maxSize c.
Proof.
  unfold LRUCache.set. cbn [LRUCache.maxSize].
  destruct (JsMap.has key (LRUCache.cache c));
    match goal with
    | |- context [if ?b then _ else _] => destruct b
    end; try rewrite evictLRU_maxSize; reflexivity.
Qed.

(** [attachUserDatabase] with nothing in flight. *)
Lemma attachUserDatabase_idle conn userId s :
  inFlight s = [] ->
  exists r s1,
    attachUserDatabase w conn userId s = (Normal r, s1)
    /\ only_ticks s s1.
Proof.
  intros Hf. unfold attachUserDatabase. rewrite bind_gets, try_catch_run.
  destruct (is_duckdb (strategy (config s))).
  - rewrite bind_run, run_idle by exact Hf.
    match goal with
    | |- context [conn_run w ?n ?c ?q] => destruct (conn_run w n c q)
    end; cbn [completion_of]; cbv iota beta;
      (do 2 eexists; split; [reflexivity|];
       unfold only_ticks; cbn; repeat split; lia).
  - do 2 eexists. split; [reflexivity|]. apply only_ticks_refl.
Qed.

(** The part of [getUserConnection] that follows the eviction. *)
Local Abbreviation connect_and_insert userId :=
  (i <- gets instance ;;
   match i with
   | None => ret Errors.notInitialized
   | Some inst =>
       conn <- connect w inst ;;
       attachResult <- attachUserDatabase w conn userId ;;
       match attachResult with
       | Left error => ret (Left error)
       | Right _ =>
           now <- new_Date w ;;
           cache_set w userId
             {| userId := userId; connection := conn; lastAccess := now;
                attached := true; memoryUsage := None |} ;;
           ret (success conn)
       end
   end).

(** The insertion, once a connection is there. *)
Lemma insert_keys userId conn (r : DuckPondResult unit) s1 s2 c s' :
  only_ticks s1 s2 ->
  match r with
  | Left error => ret (Left error)
  | Right _ =>
      now <- new_Date w ;;
      cache_set w userId
        {| userId := userId; connection := conn; lastAccess := now;
           attached := true; memoryUsage := None |} ;;
      ret (success conn)
  end s2 = (Normal (Right c), s') ->
  LRUCache.keys (cache s')
  = keys_set (LRUCache.maxSize (cache s1)) userId (LRUCache.keys (cache s1))
  /\ LRUCache.maxSize (cache s') = LRUCache.maxSize (cache s1)
  /\ config s' = config s1 /\ inFlight s' = inFlight s1.
Proof.
  intros (_ & Hc & Hcfg & _ & _ & Hf & _ & _).
  destruct r as [err|[]]; [intros H; discriminate H|].
  cbv [bind new_Date interact ret cache_set modify success].
  intros H. inversion H; subst. cbn [cache config inFlight with_cache with_tick].
  rewrite keys_after_set, set_maxSize. cbn [cache with_tick].
  rewrite Hc. auto.
Qed.

Lemma connect_and_insert_idle userId s conn s' :
  inFlight s = [] ->
  connect_and_insert userId s = (Normal (Right conn), s') ->
  LRUCache.keys (cache s')
  = keys_set (LRUCache.maxSize (cache s)) userId (LRUCache.keys (cache s))
  /\ LRUCache.maxSize (cache s') = LRUCache.maxSize (cache s)
  /\ config s' = config s /\ inFlight s' = [].
Proof.
  intros Hf. rewrite bind_gets.
  destruct (instance s) as [inst|]; [|intros H; discriminate H].
  rewrite bind_run, connect_idle by exact Hf.
  destruct (instance_connect w (tick s) inst); cbn [completion_of];
    [intros H; discriminate H|].
  cbv iota beta. rewrite bind_run.
  destruct (@attachUserDatabase_idle (tick s) userId
              (with_tick (S (S (tick s))) s) Hf) as (r & s2 & E & Ho).
  rewrite E. cbv iota beta. intros H.
  assert (only_ticks s s2) as Ho'.
  { unfold only_ticks in *. cbn in Ho. intuition lia. }
  destruct (@insert_keys userId (tick s) r s s2 conn s' Ho' H)
    as (H1 & H2 & H3 & H4).
  rewrite Hf in H4. auto.
Qed.

(** *** One detach in flight *)

Lemma extract_nil {A : Type} i : @extract A i [] = None.
Proof. now destruct i. Qed.

Lemma forEach_settle_one p l s :
  inFlight s = [p] ->
  suspendedOutcome p = None ->
  forEach settle l s
  = (Normal tt,
     if existsb (Nat.eqb 0) l
     then with_cache (snd (LRUCache.delete (suspendedUser p) (cache s)))
            (with_inFlight [] s)
     else s).
Proof.
  intros Hf Ho. induction l as [|i l IH]; [reflexivity|].
  simpl forEach. rewrite bind_run. unfold settle at 1. rewrite Hf.
  destruct i as [|j].
  - simpl extract. cbv iota beta. unfold detachUser_resume. rewrite Ho.
    rewrite bind_run, bind_run, cache_delete_run. cbv iota beta.
    unfold ret at 1 2. cbv iota beta.
    rewrite forEach_settle_idle by reflexivity. reflexivity.
  - simpl extract. rewrite extract_nil. simpl existsb. exact IH.
Qed.

Lemma yield_one p s :
  inFlight s = [p] ->
  suspendedOutcome p = None ->
  yield w s
  = (Normal tt,
     if existsb (Nat.eqb 0) (sched w (tick s))
     then with_cache (snd (LRUCache.delete (suspendedUser p) (cache s)))
            (with_inFlight [] (with_tick (S (tick s)) s))
     else with_tick (S (tick s)) s).
Proof.
  intros Hf Ho. unfold yield. rewrite bind_interact.
  now rewrite (@forEach_settle_one p) by assumption.
Qed.

Lemma existsb_In_0 l : existsb (Nat.eqb 0) l = true <-> In 0%nat l.
Proof.
  rewrite existsb_exists. split.
  - intros (x & Hx & E). apply Nat.eqb_eq in E. now subst.
  - intros H. exists 0%nat. now split.
Qed.

(** The rest of [getUserConnection] when the detach started by the
    eviction settles, successfully, before the insertion. *)
Lemma connect_and_insert_one userId p s conn s' :
  is_duckdb (strategy (config s)) = true ->
  inFlight s = [p] ->
  suspendedOutcome p = None ->
  In 0%nat (sched w (S (tick s))) \/ In 0%nat (sched w (S (S (S (tick s))))) ->
  connect_and_insert userId s = (Normal (Right conn), s') ->
  LRUCache.keys (cache s')
  = keys_set (LRUCache.maxSize (cache s)) userId
      (without (suspendedUser p) (LRUCache.keys (cache s)))
  /\ LRUCache.maxSize (cache s') = LRUCache.maxSize (cache s)
  /\ config s' = config s /\ inFlight s' = [].
Proof.
  intros Hd Hf Ho Hsched. rewrite bind_gets.
  destruct (instance s) as [inst|]; [|intros H; discriminate H].
  rewrite bind_run. unfold connect. rewrite bind_interact. unfold await.
  rewrite bind_run, (@yield_one p) by assumption. cbn [tick with_tick].
  destruct (instance_connect w (tick s) inst); cbn [completion_of];
    [intros H; discriminate H|].
  destruct (existsb (Nat.eqb 0) (sched w (S (tick s)))) eqn:E1.
  - (* settled while awaiting the connection *)
    cbv iota beta. rewrite bind_run.
    set (s1 := with_cache _ _).
    assert (inFlight s1 = []) as Hf1 by reflexivity.
    destruct (@attachUserDatabase_idle (tick s) userId s1 Hf1)
      as (r & s2 & E & Ho2).
    rewrite E. cbv iota beta. intros H.
    destruct (@insert_keys userId (tick s) r s1 s2 conn s' Ho2 H)
      as (H1 & H2 & H3 & H4).
    subst s1. cbn [cache config inFlight with_cache with_inFlight with_tick] in *.
    rewrite keys_after_delete in H1. auto.
  - (* settled while awaiting ATTACH *)
    assert (existsb (Nat.eqb 0) (sched w (S (S (S (tick s))))) = true) as E2.
    { apply existsb_In_0. destruct Hsched as [H|H]; [|exact H].
      apply existsb_In_0 in H. congruence. }
    cbv iota beta. rewrite bind_run.
    unfold attachUserDatabase. rewrite bind_gets, try_catch_run.
    cbn [config with_tick]. rewrite Hd.
    rewrite bind_run. unfold run. rewrite bind_interact. unfold await.
    rewrite bind_run, (@yield_one p) by assumption. cbn [tick with_tick].
    rewrite E2.
    match goal with
    | |- context [conn_run w ?n ?c ?q] => destruct (conn_run w n c q)
    end; cbn [completion_of]; cbv iota beta;
      [unfold Errors.storageError, createError, ret; intros H; discriminate H|].
    unfold ret at 1. cbv iota beta. unfold success at 1. cbv iota beta.
    cbv [bind new_Date interact ret cache_set modify success].
    intros H. inversion H; subst.
    cbn [cache config inFlight with_cache with_inFlight with_tick].
    rewrite keys_after_set, set_maxSize.
    cbn [cache with_cache LRUCache.maxSize LRUCache.delete JsMap.delete snd].
    fold (snd (LRUCache.delete (suspendedUser p) (cache s))).
    rewrite <- keys_after_delete. auto.
Qed.

(** The keys after a successful [getUserConnection]. *)
Lemma getUserConnection_keys userId s conn s' :
  eviction_in_order w userId s ->
  inFlight s = [] ->
  getUserConnection w userId s = (Normal (Right conn), s') ->
  LRUCache.keys (cache s')
  = keys_acquire (maxActiveUsers (config s)) (LRUCache.maxSize (cache s))
      userId (LRUCache.keys (cache s))
  /\ LRUCache.maxSize (cache s') = LRUCache.maxSize (cache s)
  /\ config s' = config s /\ inFlight s' = [].
Proof.
  intros Hord Hf. unfold getUserConnection. rewrite bind_gets.
  destruct (initialized s) eqn:Hi; [|intros H; discriminate H].
  cbn [negb]. cbv iota. rewrite bind_run.
  unfold keys_acquire. unfold LRUCache.keys at 2. rewrite <- has_mem.
  destruct (JsMap.get userId (LRUCache.cache (cache s))) as [item|] eqn:Hg.
  - rewrite (cache_get_hit w _ _ Hg). intros H. inversion H; subst. simpl.
    assert (JsMap.has userId (LRUCache.cache (cache s)) = true) as ->
      by (unfold JsMap.has; now rewrite Hg).
    split; [apply keys_after_get|].
    split; [now rewrite (get_present _ _ _ Hg)|]. auto.
  - rewrite (cache_get_miss w _ _ Hg), !bind_gets.
    assert (JsMap.has userId (LRUCache.cache (cache s)) = false) as Hh
      by (unfold JsMap.has; now rewrite Hg).
    rewrite Hh.
    destruct Hord as [Hord|Hord];
      [unfold isAttached, LRUCache.has in Hord; congruence|].
    unfold LRUCache.size, JsMap.size in *.
    rewrite <- (keys_length (LRUCache.cache (cache s))) in *.
    fold (LRUCache.keys (cache s)) in *.
    rewrite bind_run.
    destruct (Z.geb_spec (Z.of_nat (List.length (LRUCache.keys (cache s))))
                (maxActiveUsers (config s))) as [Hge|Hlt].
    + destruct Hord as [Hord|Hord]; [lia|].
      destruct (is_duckdb (strategy (config s))) eqn:Hd.
      * destruct Hord as [Hord|(Hdet & Hsched)]; [discriminate|].
        destruct (LRUCache.getLRU (cache s)) as [k|] eqn:El.
        -- destruct (@evictLRU_duckdb s k Hd Hf El)
             as (p & s1 & E1 & Hf1 & Hu & (c & Hout) & Ht1 & Hk1 & Hm1 & Hc1 & _).
           rewrite E1. intros H.
           assert (suspendedOutcome p = None) as Ho
             by (rewrite Hout; apply Hdet).
           assert (is_duckdb (strategy (config s1)) = true) as Hd1
             by now rewrite Hc1.
           assert (In 0%nat (sched w (S (tick s1)))
                   \/ In 0%nat (sched w (S (S (S (tick s1)))))) as Hs1
             by (rewrite Ht1; exact Hsched).
           destruct (@connect_and_insert_one userId p s1 conn s' Hd1 Hf1 Ho Hs1 H)
             as (H1 & H2 & H3 & H4).
           rewrite H1, H2, H3, Hk1, Hm1, Hu, Hc1.
           rewrite getLRU_keys in El.
           destruct (LRUCache.keys (cache s)) as [|k0 ks]; [discriminate|].
           simpl in El. inversion El; subst k0.
           rewrite without_first. auto.
        -- unfold evictLRU. rewrite bind_gets, El. unfold ret at 1.
           intros H.
           destruct (@connect_and_insert_idle userId s conn s' Hf H)
             as (H1 & H2 & H3 & H4).
           rewrite getLRU_keys in El.
           destruct (LRUCache.keys (cache s)) as [|k0 ks] eqn:Ek;
             [|discriminate].
           rewrite H1. auto.
      * destruct (@evictLRU_plain s Hd)
          as (s1 & E1 & Hk1 & Hm1 & Hc1 & Hf1 & _).
        rewrite E1. intros H.
        assert (inFlight s1 = []) as Hf1' by congruence.
        destruct (@connect_and_insert_idle userId s1 conn s' Hf1' H)
          as (H1 & H2 & H3 & H4).
        rewrite H1, H2, H3, Hk1, Hm1, Hc1. auto.
    + unfold ret at 1. intros H.
      destruct (@connect_and_insert_idle userId s conn s' Hf H)
        as (H1 & H2 & H3 & H4).
      rewrite H1. auto.
Qed.

End Acquire.

(** ** C2: a hit refreshes recency *)


Lemma isAttached_mem userId s :
  isAttached userId s = mem userId (LRUCache.keys (cache s)).
Proof. unfold isAttached, LRUCache.has. apply has_mem. Qed.

Lemma size_keys s :
  LRUCache.size (cache s) = Z.of_nat (List.length (LRUCache.keys (cache s))).
Proof.
  unfold LRUCache.size, JsMap.size, LRUCache.keys. now rewrite keys_length.
Qed.



(** The same sequence under the default strategy. *)
Example recency_refresh_parquet :
  LRUCache.keys
    (cache (run_calls calm
              [CallInit; CallQuery "A" "SELECT 1"; CallQuery "B" "SELECT 1";
               CallQuery "A" "SELECT 1"; CallQuery "C" "SELECT 1"]
              (new_DuckPond (config_with 2 Parquet))))
  = ["A"; "C"].
Proof. reflexivity. Qed.

(** Under [duckdb], when the engine accepts the [DETACH] of [B] but it
    settles only after the call for [C] is over, both [A] and [B] leave the
    cache. *)
Example late_detach_evicts_both :
  LRUCache.keys
    (cache (run_calls calm
              [CallInit; CallGetUserConnection "A"; CallGetUserConnection "B";
               CallGetUserConnection "A"; CallGetUserConnection "C"; Settles 0]
              (new_DuckPond (config_with 2 Duckdb))))
  = ["C"].
Proof. reflexivity. Qed.


(** ** C8: [close] *)

Section Close.

Variable w : World.

(** *** Two invariants of the code that detaches *)

Lemma absent_tick key n s : absent key s -> absent key (with_tick n s).
Proof. auto. Qed.

Lemma absent_inFlight key l s : absent key s -> absent key (with_inFlight l s).
Proof. auto. Qed.

Lemma absent_get key now k s :
  absent key s -> absent key (with_cache (snd (LRUCache.get now k (cache s))) s).
Proof.
  unfold absent. intros H. simpl.
  destruct (JsMap.get k (LRUCache.cache (cache s))) as [item|] eqn:E.
  - rewrite (get_present now _ _ E). simpl. rewrite get_app.
    destruct (String.eqb_spec key k) as [->|Hne]; [congruence|].
    rewrite get_remove_other, H by assumption. simpl.
    destruct (String.eqb_spec k key); [congruence|reflexivity].
  - now rewrite (get_absent now _ _ E).
Qed.

Lemma absent_delete key k s :
  absent key s -> absent key (with_cache (snd (LRUCache.delete k (cache s))) s).
Proof.
  unfold absent. intros H. simpl.
  destruct (String.eqb_spec key k) as [->|Hne].
  - apply get_remove_same.
  - now rewrite get_remove_other.
Qed.

Lemma absent_after_delete key s :
  absent key (with_cache (snd (LRUCache.delete key (cache s))) s).
Proof. unfold absent. simpl. apply get_remove_same. Qed.

Lemma same_control_refl s : same_control s s.
Proof. unfold same_control. auto. Qed.

Lemma same_control_detachUser_start s0 userId :
  preserves (same_control s0) (detachUser_start w userId).
Proof. apply preserves_detachUser_start; auto. Qed.

Lemma same_control_Promise_all s0 started :
  preserves (same_control s0) (Promise_all w started).
Proof. apply preserves_Promise_all; auto. Qed.

Lemma absent_detachUser_start key userId :
  preserves (absent key) (detachUser_start w userId).
Proof.
  apply preserves_detachUser_start.
  - apply absent_tick.
  - intros. now apply absent_get.
  - intros. now apply absent_delete.
Qed.

Lemma absent_detachUser_resume key p :
  preserves (absent key) (detachUser_resume p).
Proof. apply preserves_detachUser_resume. intros. now apply absent_delete. Qed.

Lemma absent_yield key : preserves (absent key) (yield w).
Proof.
  apply preserves_yield.
  - apply absent_tick.
  - apply absent_inFlight.
  - intros. now apply absent_delete.
Qed.

(** *** The calls [close] starts *)

Lemma detachUser_start_covers userId s :
  is_duckdb (strategy (config s)) = false \/ detach_succeeds w ->
  exists st s1,
    detachUser_start w userId s = (Normal st, s1)
    /\ covered userId [st] s1.
Proof.
  intros Hgood.
  destruct (JsMap.get userId (LRUCache.cache (cache s))) as [item|] eqn:E.
  - rewrite (detachUser_start_hit w _ _ E). cbv zeta.
    destruct (is_duckdb (strategy (config s))) eqn:Hd.
    + destruct Hgood as [Hgood|Hgood]; [discriminate|].
      do 2 eexists. split; [reflexivity|]. right.
      eexists. split; [simpl; left; reflexivity|]. simpl.
      split; [reflexivity|apply Hgood].
    + do 2 eexists. split; [reflexivity|]. left. apply absent_after_delete.
  - rewrite (detachUser_start_miss w _ _ E).
    do 2 eexists. split; [reflexivity|]. left. exact E.
Qed.

Lemma mapM_detachUser_start ks : forall s,
  is_duckdb (strategy (config s)) = false \/ detach_succeeds w ->
  exists started s1,
    mapM (detachUser_start w) ks s = (Normal started, s1)
    /\ same_control s s1
    /\ (forall key, absent key s -> absent key s1)
    /\ (forall key, In key ks -> covered key started s1).
Proof.
  induction ks as [|k ks IH]; intros s Hgood.
  - exists [], s. repeat split; auto using same_control_refl. intros key [].
  - destruct (@detachUser_start_covers k s Hgood) as (st & s1 & E1 & Hcov).
    pose proof (@same_control_detachUser_start s k s (same_control_refl s)) as Hc1.
    rewrite E1 in Hc1. simpl in Hc1.
    assert (is_duckdb (strategy (config s1)) = false \/ detach_succeeds w)
      as Hgood1.
    { destruct Hc1 as (_ & Hcfg & _). now rewrite Hcfg. }
    destruct (IH s1 Hgood1) as (started & s2 & E2 & Hc2 & Habs2 & Hcov2).
    exists (st :: started), s2. simpl mapM.
    rewrite bind_run, E1, bind_run, E2. split; [reflexivity|].
    split; [|split].
    + unfold same_control in *. intuition congruence.
    + intros key Hkey. apply Habs2.
      pose proof (@absent_detachUser_start key k s Hkey) as H.
      now rewrite E1 in H.
    + intros key [<-|Hin].
      * destruct Hcov as [Ha|(p & Hp & Hu & Ho)].
        -- left. now apply Habs2.
        -- right. exists p. split; [|auto].
           unfold awaiting in *. simpl in *. rewrite app_nil_r in Hp.
           apply in_or_app. left. exact Hp.
      * destruct (Hcov2 key Hin) as [Ha|(p & Hp & Hu & Ho)].
        -- now left.
        -- right. exists p. split; [|auto].
           unfold awaiting in *. simpl. apply in_or_app. now right.
Qed.

Lemma forEach_resume ps : forall s,
  exists s2,
    forEach (fun p => _ <- detachUser_resume p ;; ret tt) ps s = (Normal tt, s2)
    /\ (forall key, absent key s -> absent key s2)
    /\ (forall p, In p ps -> suspendedOutcome p = None ->
                  absent (suspendedUser p) s2).
Proof.
  induction ps as [|p ps IH]; intros s.
  - exists s. repeat split; auto. intros p [].
  - simpl forEach. rewrite bind_run, bind_run.
    assert (exists s1,
      detachUser_resume p s
      = (Normal (match suspendedOutcome p with
                 | None => success tt
                 | Some e => Errors.storageError "Failed to detach user" e
                 end), s1)
      /\ (forall key, absent key s -> absent key s1)
      /\ (suspendedOutcome p = None -> absent (suspendedUser p) s1))
      as (s1 & E1 & Habs1 & Hdel1).
    { unfold detachUser_resume. destruct (suspendedOutcome p).
      - exists s. repeat split; auto. discriminate.
      - rewrite bind_run, cache_delete_run. eexists. split; [reflexivity|].
        split; [intros; now apply absent_delete|].
        intros _. apply absent_after_delete. }
    rewrite E1. cbv iota beta. unfold ret at 1.
    destruct (IH s1) as (s2 & E2 & Habs2 & Hdel2).
    exists s2. rewrite E2. split; [reflexivity|]. split; [auto|].
    intros q [<-|Hq] Ho; auto.
Qed.

Lemma Promise_all_settles started s :
  exists s2,
    Promise_all w started s = (Normal tt, s2)
    /\ same_control s s2
    /\ (forall key, absent key s -> absent key s2)
    /\ (forall key, covered key started s -> absent key s2).
Proof.
  pose proof (@same_control_Promise_all s started s (same_control_refl s)) as Hc.
  unfold Promise_all in *.
  unfold covered. destruct (awaiting started) as [|p ps] eqn:Ea.
  - exists s. repeat split; auto using same_control_refl.
    intros key [H|(q & [] & _)]. exact H.
  - rewrite bind_run in *.
    destruct (yield_returns w s) as [s1 E1]. rewrite E1 in *.
    destruct (forEach_resume (p :: ps) s1) as (s2 & E2 & Habs & Hdel).
    cbv iota beta in *. rewrite E2 in *. exists s2.
    split; [reflexivity|]. split; [exact Hc|].
    assert (forall key, absent key s -> absent key s2) as Hkeep.
    { intros key Hk. apply Habs.
      pose proof (@absent_yield key s Hk) as H. now rewrite E1 in H. }
    split; [exact Hkeep|].
    intros key [H|(q & Hq & Hu & Ho)]; [now apply Hkeep|].
    subst key. now apply Hdel.
Qed.

Lemma all_absent (m : JsMap.t) : (forall key, JsMap.get key m = None) -> m = [].
Proof.
  destruct m as [|[k v] m]; [reflexivity|]. intros H. specialize (H k).
  simpl in H. rewrite String.eqb_refl in H. discriminate.
Qed.

Lemma clearInterval_run timer s :
  clearInterval timer s
  = (Normal tt,
     with_activeTimers
       (filter (fun t => negb (Nat.eqb t timer)) (activeTimers s)) s).
Proof. reflexivity. Qed.

(** What [close] returns and leaves, when no [DETACH] can fail. *)
Lemma close_run s :
  is_duckdb (strategy (config s)) = false \/ detach_succeeds w ->
  exists s2,
    close w s
    = (Normal (success tt), with_initialized false (with_instance None s2))
    /\ LRUCache.cache (cache s2) = []
    /\ evictionTimer s2 = evictionTimer s
    /\ config s2 = config s
    /\ activeTimers s2
       = match evictionTimer s with
         | Some timer =>
             filter (fun t => negb (Nat.eqb t timer)) (activeTimers s)
         | None => activeTimers s
         end.
Proof.
  intros Hgood. unfold close. rewrite bind_gets, bind_run.
  set (s0 := match evictionTimer s with
             | Some timer =>
                 with_activeTimers
                   (filter (fun t => negb (Nat.eqb t timer)) (activeTimers s)) s
             | None => s
             end).
  assert (match evictionTimer s with
          | Some timer => clearInterval timer
          | None => ret tt
          end s = (Normal tt, s0)) as E0
    by (subst s0; now destruct (evictionTimer s)).
  rewrite E0, bind_gets.
  assert (cache s0 = cache s /\ config s0 = config s
          /\ evictionTimer s0 = evictionTimer s) as (Hc0 & Hcfg0 & Ht0)
    by (subst s0; destruct (evictionTimer s) eqn:Et; repeat split; auto).
  assert (is_duckdb (strategy (config s0)) = false \/ detach_succeeds w)
    as Hgood0 by now rewrite Hcfg0.
  destruct (@mapM_detachUser_start (LRUCache.keys (cache s0)) s0 Hgood0)
    as (started & s1 & E1 & Hc1 & Habs1 & Hcov1).
  rewrite bind_run, E1, bind_run.
  destruct (Promise_all_settles started s1) as (s2 & E2 & Hc2 & Habs2 & Hcov2).
  rewrite E2. exists s2. split; [reflexivity|].
  destruct Hc1 as (_ & Hcfg1 & Ht1 & _ & Ha1).
  destruct Hc2 as (_ & Hcfg2 & Ht2 & _ & Ha2).
  split; [|split; [congruence|split; [congruence|]]].
  - apply all_absent. intros key.
    destruct (JsMap.get key (LRUCache.cache (cache s0))) as [item|] eqn:E.
    + apply Hcov2, Hcov1. apply get_In_keys. congruence.
    + now apply Habs2, Habs1.
  - rewrite Ha2, Ha1. subst s0. now destruct (evictionTimer s).
Qed.

End Close.

Section Shutdown.

Variable w : World.

Lemma filter_idem {A : Type} (f : A -> bool) (l : list A) :
  filter f (filter f l) = filter f l.
Proof.
  induction l as [|x l IH]; simpl; auto.
  destruct (f x) eqn:E; simpl; [|auto]. now rewrite E, IH.
Qed.

Lemma cleared_timer_silent timer (l : list Timeout) :
  existsb (Nat.eqb timer) (filter (fun t => negb (Nat.eqb t timer)) l) = false.
Proof.
  induction l as [|x l IH]; simpl; auto.
  destruct (Nat.eqb_spec x timer) as [->|Hne]; simpl; auto.
  destruct (Nat.eqb_spec timer x); [congruence|auto].
Qed.

(** [close] on a closed manager changes nothing. *)
Lemma close_closed s :
  LRUCache.cache (cache s) = [] ->
  initialized s = false ->
  instance s = None ->
  (forall timer, evictionTimer s = Some timer ->
     filter (fun t => negb (Nat.eqb t timer)) (activeTimers s) = activeTimers s) ->
  close w s = (Normal (success tt), s).
Proof.
  destruct s as [i [m n] cfg t b k l a]. simpl. intros -> -> -> Ht.
  destruct t as [timer|].
  - specialize (Ht timer eq_refl). cbv -[filter Nat.eqb negb].
    cbv -[filter Nat.eqb negb] in Ht. now rewrite Ht.
  - reflexivity.
Qed.

End Shutdown.

(** ** [init] and [close] under any schedule *)

Section Control.

Variable w : World.

Lemma held_tick a t b n s : held a t b s -> held a t b (with_tick n s).
Proof. auto. Qed.

Lemma held_inFlight a t b l s : held a t b s -> held a t b (with_inFlight l s).
Proof. auto. Qed.

Lemma held_cache a t b c s : held a t b s -> held a t b (with_cache c s).
Proof. auto. Qed.

Lemma held_instance a t b i s : held a t b s -> held a t b (with_instance i s).
Proof. auto. Qed.

(** What [init] does to the timers and to [initialized]. *)
Lemma init_control s :
  initialized s = false ->
  match init w s with
  | (Normal (Right _), s') =>
      initialized s' = true
      /\ exists timer, evictionTimer s' = Some timer
                       /\ activeTimers s' = activeTimers s ++ [timer]
  | (Normal (Left err), s') =>
      code err = CONNECTION_FAILED
      /\ initialized s' = false
      /\ evictionTimer s' = evictionTimer s
      /\ activeTimers s' = activeTimers s
  | (Throw _, _) => False
  end.
Proof.
  intros Hi. unfold init. rewrite bind_gets, Hi, try_catch_run, bind_run.
  set (I := held (activeTimers s) (evictionTimer s) false).
  assert (I s) as H0 by (unfold I, held; auto).
  assert (forall n s', I s' -> I (with_tick n s')) as I_tick by auto.
  assert (forall l s', I s' -> I (with_inFlight l s')) as I_inFlight by auto.
  assert (forall key s',
            I s' -> I (with_cache (snd (LRUCache.delete key (cache s'))) s'))
    as I_delete by auto.
  pose proof (@preserves_DuckDBInstance_create w I I_tick I_inFlight I_delete
                s H0) as H1.
  destruct (DuckDBInstance_create w s) as [[inst|e] s1]; simpl in H1.
  2:{ simpl. destruct H1 as (Ha & Ht & Hb).
      rewrite code_toDuckPondError. auto. }
  rewrite bind_modify, bind_run.
  assert (I (with_instance (Some inst) s1)) as H1' by exact H1.
  pose proof (@preserves_setupCloudStorage w I I_tick I_inFlight I_delete
                (with_instance (Some inst) s1) H1') as H2.
  destruct (setupCloudStorage w (with_instance (Some inst) s1))
    as [[[err|[]]|e] s2]; simpl in H2; destruct H2 as (Ha & Ht & Hb).
  - simpl. auto.
  - simpl. split; [reflexivity|]. exists (tick s2). now rewrite Ha.
  - simpl. rewrite code_toDuckPondError. auto.
Qed.

(** What [close] does to the timers and to [initialized], whether the
    tenants could be detached or not. *)
Lemma close_control s :
  exists s2,
    close w s = (Normal (success tt), with_initialized false (with_instance None s2))
    /\ evictionTimer s2 = evictionTimer s
    /\ activeTimers s2
       = match evictionTimer s with
         | Some timer =>
             filter (fun t => negb (Nat.eqb t timer)) (activeTimers s)
         | None => activeTimers s
         end
    /\ (forall key, absent key s -> absent key s2).
Proof.
  unfold close. rewrite bind_gets, bind_run.
  set (s0 := match evictionTimer s with
             | Some timer =>
                 with_activeTimers
                   (filter (fun t => negb (Nat.eqb t timer)) (activeTimers s)) s
             | None => s
             end).
  assert (match evictionTimer s with
          | Some timer => clearInterval timer
          | None => ret tt
          end s = (Normal tt, s0)) as E0
    by (subst s0; now destruct (evictionTimer s)).
  rewrite E0, bind_gets, bind_run.
  assert (cache s0 = cache s /\ evictionTimer s0 = evictionTimer s
          /\ activeTimers s0
             = match evictionTimer s with
               | Some timer =>
                   filter (fun t => negb (Nat.eqb t timer)) (activeTimers s)
               | None => activeTimers s
               end) as (Hc0 & Ht0 & Ha0)
    by (subst s0; destruct (evictionTimer s) eqn:Et; repeat split; auto).
  clearbody s0.
  set (I := fun s' : Pond =>
              held (activeTimers s0) (evictionTimer s0) (initialized s0) s'
              /\ forall key, absent key s -> absent key s').
  assert (I s0) as H0.
  { split; [unfold held; auto|]. unfold absent. now rewrite Hc0. }
  assert (forall n s', I s' -> I (with_tick n s')) as I_tick
    by (intros n s' [H1 H2]; split; auto).
  assert (forall l s', I s' -> I (with_inFlight l s')) as I_inFlight
    by (intros l s' [H1 H2]; split; auto).
  assert (forall now key s',
            I s' -> I (with_cache (snd (LRUCache.get now key (cache s'))) s'))
    as I_get.
  { intros now key s' [H1 H2]. split; [now apply held_cache|].
    intros k Hk. now apply absent_get, H2. }
  assert (forall key s',
            I s' -> I (with_cache (snd (LRUCache.delete key (cache s'))) s'))
    as I_delete.
  { intros key s' [H1 H2]. split; [now apply held_cache|].
    intros k Hk. now apply absent_delete, H2. }
  pose proof (@preserves_mapM I _ _ (detachUser_start w) (LRUCache.keys (cache s0))
                (@preserves_detachUser_start w I I_tick I_get I_delete) s0 H0)
    as H1.
  destruct (never_throws_mapM (detachUser_start w) (LRUCache.keys (cache s0))
              (never_throws_detachUser_start w) s0) as [started Hr1].
  destruct (mapM (detachUser_start w) (LRUCache.keys (cache s0)) s0)
    as [r1 s1]. simpl in Hr1, H1. subst r1.
  rewrite bind_run.
  destruct (Promise_all_settles w started s1) as (s2 & E2 & _ & Habs2 & _).
  pose proof (@preserves_Promise_all w I I_tick I_inFlight I_delete started s1 H1)
    as H2.
  rewrite E2 in *. simpl in H2. exists s2. split; [reflexivity|].
  destruct H2 as ((Ha & Ht & _) & Habs). repeat split; auto; congruence.
Qed.

End Control.

(** C8, as the code has it.  Whatever the cache holds, whatever the engine
    answers and whatever the scheduler does, [close] returns success,
    [initialized] is false and the instance is dropped afterwards, so that
    [query] and [execute] return [NOT_INITIALIZED]; the timer the manager
    recorded is cleared and fires no more; and a second [close] returns
    success again.  When moreover no [DETACH] can fail (the strategy is
    not [duckdb], or the engine accepts every [DETACH]), [close] leaves the
    cache empty, so that [listUsers] counts 0; [detachUser] and
    [getUserStats], which do not look at [initialized], then return
    success for any tenant and change nothing; and a second [close]
    changes nothing. *)
Theorem close_drains (w : World) (s : Pond) (userId sql : string) :
  fst (close w s) = Normal (success tt)
  /\ initialized (snd (close w s)) = false
  /\ instance (snd (close w s)) = None
  /\ (forall timer, evictionTimer s = Some timer ->
        existsb (Nat.eqb timer) (activeTimers (snd (close w s))) = false
        /\ step w (snd (close w s)) (TimerFires timer) = snd (close w s))
  /\ query w userId sql (snd (close w s))
     = (Normal Errors.notInitialized, snd (close w s))
  /\ execute w userId sql (snd (close w s))
     = (Normal Errors.notInitialized, snd (close w s))
  /\ fst (close w (snd (close w s))) = Normal (success tt)
  /\ (is_duckdb (strategy (config s)) = false \/ detach_succeeds w ->
      users (listUsers (snd (close w s))) = []
      /\ count (listUsers (snd (close w s))) = 0
      /\ detachUser w userId (snd (close w s))
         = (Normal (success tt), snd (close w s))
      /\ getUserStats w userId (snd (close w s))
         = (Normal (success (stats_absent userId)), snd (close w s))
      /\ close w (snd (close w s)) = (Normal (success tt), snd (close w s))).
Proof.
  destruct (@close_control w s) as (s2 & E & Ht & Ha & _).
  assert (initialized (snd (close w s)) = false) as Hi by now rewrite E.
  destruct (@uninitialized_calls_aux w (snd (close w s)) userId sql Hi)
    as (Hq & He).
  split; [now rewrite E|]. split; [exact Hi|]. split; [now rewrite E|].
  split.
  { intros timer Htimer.
    assert (existsb (Nat.eqb timer) (activeTimers (snd (close w s))) = false)
      as Hoff.
    { rewrite E. simpl. rewrite Ha, Htimer. apply cleared_timer_silent. }
    split; [exact Hoff|]. simpl. now rewrite Hoff. }
  split; [exact Hq|]. split; [exact He|]. split.
  { destruct (@close_control w (snd (close w s))) as (s3 & E3 & _).
    now rewrite E3. }
  intros Hgood.
  destruct (@close_run w s Hgood) as (s2' & E' & Hempty & Ht' & Hcfg & Ha').
  rewrite E'. simpl snd.
  assert (forall u,
            JsMap.get u
              (LRUCache.cache
                 (cache (with_initialized false (with_instance None s2'))))
            = None) as Hmiss by (intros u; simpl; now rewrite Hempty).
  split; [unfold listUsers, LRUCache.keys; simpl; now rewrite Hempty|].
  split; [unfold listUsers, LRUCache.getStats; simpl; now rewrite Hempty|].
  split.
  { unfold detachUser.
    now rewrite bind_run, (detachUser_start_miss w _ _ (Hmiss userId)). }
  split.
  { unfold getUserStats.
    now rewrite bind_run, (cache_get_miss w _ _ (Hmiss userId)). }
  apply close_closed; auto. simpl. intros timer Htimer.
  rewrite Ha'. rewrite Ht' in Htimer. rewrite Htimer. apply filter_idem.
Qed.

Lemma close_drains_witness :
  count (listUsers
           (snd (close calm
                   (run_calls calm
                      [CallInit; CallGetUserConnection "u1";
                       CallGetUserConnection "u2"; CallGetUserConnection "u3"]
                      (new_DuckPond (config_with 3 Parquet)))))) = 0
  /\ query calm "u1" "SELECT 1"
       (snd (close calm
               (run_calls calm
                  [CallInit; CallGetUserConnection "u1";
                   CallGetUserConnection "u2"; CallGetUserConnection "u3"]
                  (new_DuckPond (config_with 3 Parquet)))))
     = (Normal Errors.notInitialized,
        snd (close calm
               (run_calls calm
                  [CallInit; CallGetUserConnection "u1";
                   CallGetUserConnection "u2"; CallGetUserConnection "u3"]
                  (new_DuckPond (config_with 3 Parquet))))).
Proof.
  destruct (@close_drains calm
              (run_calls calm
                 [CallInit; CallGetUserConnection "u1";
                  CallGetUserConnection "u2"; CallGetUserConnection "u3"]
                 (new_DuckPond (config_with 3 Parquet)))
              "u1" "SELECT 1")
    as (_ & _ & _ & _ & H5 & _ & _ & H8).
  destruct (H8 (or_introl eq_refl)) as (_ & H9 & _).
  split; [exact H9|exact H5].
Defined.

(** Two inputs at which the statement of C8 fails.  Under [duckdb] with an
    engine that rejects [DETACH], three tenants are cached before [close]
    and three after it.  And under the default strategy, [detachUser] and
    [getUserStats] called after [close] return success, not
    [NOT_INITIALIZED]. *)
Lemma close_leaves_tenants :
  count (listUsers
           (run_calls detach_fails
              [CallInit; CallGetUserConnection "u1"; CallGetUserConnection "u2";
               CallGetUserConnection "u3"]
              (new_DuckPond (config_with 3 Duckdb)))) = 3
  /\ fst (close detach_fails
            (run_calls detach_fails
               [CallInit; CallGetUserConnection "u1"; CallGetUserConnection "u2";
                CallGetUserConnection "u3"]
               (new_DuckPond (config_with 3 Duckdb))))
     = Normal (Right tt)
  /\ count (listUsers
              (run_calls detach_fails
                 [CallInit; CallGetUserConnection "u1"; CallGetUserConnection "u2";
                  CallGetUserConnection "u3"; CallClose]
                 (new_DuckPond (config_with 3 Duckdb)))) = 3
  /\ fst (detachUser calm "u1"
            (run_calls calm
               [CallInit; CallGetUserConnection "u1"; CallGetUserConnection "u2";
                CallGetUserConnection "u3"; CallClose]
               (new_DuckPond (config_with 3 Parquet))))
     = Normal (Right tt)
  /\ isRight_result
       (fst (getUserStats calm "u1"
               (run_calls calm
                  [CallInit; CallGetUserConnection "u1"; CallGetUserConnection "u2";
                   CallGetUserConnection "u3"; CallClose]
                  (new_DuckPond (config_with 3 Parquet)))))
     = true.
Proof. vm_compute. repeat split. Qed.

(** The proviso of C8 at work: in the state the first [close] leaves when
    the engine rejects [DETACH], the tenants are still cached, so that
    [detachUser] asks the engine again and returns [STORAGE_ERROR], and a
    second [close] returns success after further engine calls. *)
Example close_with_tenants_left :
  fst (detachUser detach_fails "u1"
         (run_calls detach_fails
            [CallInit; CallGetUserConnection "u1"; CallGetUserConnection "u2";
             CallGetUserConnection "u3"; CallClose]
            (new_DuckPond (config_with 3 Duckdb))))
  = Normal (Errors.storageError "Failed to detach user"
              (JsError "Catalog Error: database is in use"))
  /\ fst (close detach_fails
            (run_calls detach_fails
               [CallInit; CallGetUserConnection "u1"; CallGetUserConnection "u2";
                CallGetUserConnection "u3"; CallClose]
               (new_DuckPond (config_with 3 Duckdb))))
     = Normal (Right tt)
  /\ (tick (run_calls detach_fails
              [CallInit; CallGetUserConnection "u1"; CallGetUserConnection "u2";
               CallGetUserConnection "u3"; CallClose]
              (new_DuckPond (config_with 3 Duckdb)))
      <? tick (run_calls detach_fails
                 [CallInit; CallGetUserConnection "u1";
                  CallGetUserConnection "u2"; CallGetUserConnection "u3";
                  CallClose; CallClose]
                 (new_DuckPond (config_with 3 Duckdb))))%nat = true.
Proof. vm_compute. repeat split. Qed.

(** ** Before the first successful [init]

    Until a call of [init] returns success, the cache is empty, nothing is
    in flight and no timer runs, whatever is called. *)
Lemma pristine_new cfg : pristine (new_DuckPond cfg).
Proof. unfold pristine. auto. Qed.

Lemma pristine_step (w : World) (s : Pond) (c : Call) :
  pristine s ->
  pristine (step w s c) \/ (c = CallInit /\ fst (init w s) = Normal (Right tt)).
Proof.
  intros (Hi & Hc & Hf & Ha).
  assert (forall u, JsMap.get u (LRUCache.cache (cache s)) = None) as Hmiss
    by (intros u; now rewrite Hc).
  destruct c as [|u|u q|u q|u|u|u| | |timer|i]; simpl.
  - destruct (@init_idle w s Hi Hf)
      as (r & s' & E & Hc' & _ & Hf' & _ & Hcase & _).
    rewrite E. simpl. destruct r as [[err|[]]|e]; [|now right|contradiction].
    left. destruct Hcase as (_ & Hi' & _ & Ha' & _).
    unfold pristine. rewrite Hc', Ha'. auto.
  - left. rewrite getUserConnection_uninitialized by exact Hi.
    unfold pristine. auto.
  - left. destruct (@uninitialized_calls_aux w s u q Hi) as [-> _].
    unfold pristine. auto.
  - left. destruct (@uninitialized_calls_aux w s u q Hi) as [_ ->].
    unfold pristine. auto.
  - left. unfold detachUser. rewrite bind_run, detachUser_start_miss by auto.
    unfold pristine. auto.
  - left. unfold getUserStats. rewrite bind_run, cache_get_miss by auto.
    unfold pristine. auto.
  - left. unfold pristine. auto.
  - left. unfold pristine. auto.
  - left. destruct s as [i [m n] cfg t b k l a]. simpl in *. subst.
    destruct t; unfold pristine; simpl; auto.
  - left. rewrite Ha. simpl. unfold pristine. auto.
  - left. unfold settle. rewrite Hf, extract_nil. unfold pristine. auto.
Qed.

(** * Further properties of the code *)

(** ** [LRUCache]: lookups after updates *)

Section LRUCacheMore.

Implicit Types (c : LRUCache.t) (key k : string) (value : UserDatabase).

Lemma remove_absent key (m : JsMap.t) :
  JsMap.get key m = None -> JsMap.remove key m = m.
Proof.
  induction m as [|[k v] m IH]; simpl; auto.
  destruct (String.eqb_spec k key); [discriminate|]. simpl.
  intros H. now rewrite IH.
Qed.

Lemma remove_length_distinct key (m : JsMap.t) :
  NoDup (JsMap.keys m) ->
  List.length m
  = (List.length (JsMap.remove key m)
     + (if JsMap.has key m then 1 else 0))%nat.
Proof.
  unfold JsMap.has. induction m as [|[k v] m IH]; simpl; [reflexivity|].
  intros H. inversion H as [|? ? Hnot Hnd]; subst.
  destruct (String.eqb_spec k key) as [->|Hne]; simpl.
  - rewrite remove_absent; [lia|].
    destruct (JsMap.get key m) eqn:E; [|reflexivity].
    exfalso. apply Hnot. apply get_In_keys. congruence.
  - rewrite (IH Hnd). lia.
Qed.

(** The entries [set] keeps are entries of the cache and do not depend on
    the time of the call. *)
Lemma set_entries key value c :
  exists kept,
    JsMap.get key kept = None
    /\ (forall kv, In kv kept -> In kv (LRUCache.cache c))
    /\ forall now,
         LRUCache.set now key value c
         = LRUCache.mk (kept ++ [(key, set_lastAccess now value)])
             (LRUCache.maxSize c).
Proof.
  unfold LRUCache.set.
  set (c1 := if JsMap.has key (LRUCache.cache c) then _ else c).
  assert (JsMap.get key (LRUCache.cache c1) = None
          /\ LRUCache.maxSize c1 = LRUCache.maxSize c
          /\ (forall kv, In kv (LRUCache.cache c1) -> In kv (LRUCache.cache c)))
    as (Hg1 & Hm1 & Hi1).
  { subst c1. destruct (JsMap.has key (LRUCache.cache c)) eqn:E; simpl.
    - split; [apply get_remove_same|]. split; [reflexivity|].
      intros kv Hin. now apply filter_In in Hin.
    - split; [now apply has_false_get|]. auto. }
  clearbody c1.
  set (c2 := if JsMap.size (LRUCache.cache c1) >=? LRUCache.maxSize c1 then _ else c1).
  assert (JsMap.get key (LRUCache.cache c2) = None
          /\ LRUCache.maxSize c2 = LRUCache.maxSize c
          /\ (forall kv, In kv (LRUCache.cache c2) -> In kv (LRUCache.cache c)))
    as (Hg2 & Hm2 & Hi2).
  { subst c2.
    destruct (JsMap.size (LRUCache.cache c1) >=? LRUCache.maxSize c1).
    - split; [now apply get_evictLRU_None|].
      split; [now rewrite evictLRU_maxSize|].
      intros kv Hin. apply Hi1. unfold LRUCache.evictLRU in Hin.
      destruct (LRUCache.getLRU c1); [|exact Hin].
      simpl in Hin. now apply filter_In in Hin.
    - auto. }
  clearbody c2. exists (LRUCache.cache c2). split; [exact Hg2|].
  split; [exact Hi2|].
  intros now. now rewrite set_fresh, Hm2.
Qed.

End LRUCacheMore.

(** X1. What was stored is found: [get] right after [set] of the same key
    returns the value stored, stamped with the time of the lookup, and
    leaves the cache as a [set] made at that time would have, whatever
    the cache and its capacity were. *)
Theorem get_after_set (now1 now2 : Z) (key : string) (value : UserDatabase)
    (c : LRUCache.t) :
  LRUCache.get now2 key (LRUCache.set now1 key value c)
  = (Some (set_lastAccess now2 value), LRUCache.set now2 key value c).
Proof.
  destruct (set_entries key value c) as (kept & Hg & _ & E).
  rewrite (E now1), (E now2).
  assert (JsMap.get key (kept ++ [(key, set_lastAccess now1 value)])
          = Some (set_lastAccess now1 value)) as Hget.
  { rewrite get_app, Hg. simpl. now rewrite String.eqb_refl. }
  rewrite (@get_present now2 key
             (LRUCache.mk (kept ++ [(key, set_lastAccess now1 value)])
                (LRUCache.maxSize c)) _ Hget). simpl.
  unfold JsMap.remove. rewrite filter_app. simpl. rewrite String.eqb_refl. simpl.
  rewrite app_nil_r. fold (JsMap.remove key kept).
  now rewrite remove_absent.
Qed.

(** X5. [delete] returns whether the key was cached; afterwards the key is
    not cached, every other key has the entry it had, and with distinct
    keys the size has gone down by one exactly when [true] was returned. *)
Theorem delete_removes_only (key : string) (c : LRUCache.t) :
  fst (LRUCache.delete key c) = LRUCache.has key c
  /\ LRUCache.has key (snd (LRUCache.delete key c)) = false
  /\ (forall k, k <> key ->
        JsMap.get k (LRUCache.cache (snd (LRUCache.delete key c)))
        = JsMap.get k (LRUCache.cache c))
  /\ (NoDup (LRUCache.keys c) ->
      LRUCache.size (snd (LRUCache.delete key c))
      = LRUCache.size c - (if LRUCache.has key c then 1 else 0)).
Proof.
  unfold LRUCache.delete, JsMap.delete, LRUCache.has. simpl. repeat split.
  - apply has_remove_same.
  - intros k Hne. now apply get_remove_other.
  - intros Hnd. unfold LRUCache.size, JsMap.size. simpl.
    rewrite (@remove_length_distinct key (LRUCache.cache c) Hnd).
    destruct (JsMap.has key (LRUCache.cache c)); lia.
Qed.

Lemma delete_removes_only_witness :
  LRUCache.size
    (snd (LRUCache.delete "a"
            (LRUCache.mk [("a", tenant "a" 0%nat 10); ("b", tenant "b" 1%nat 20)] 2)))
  = 2 - 1
  /\ JsMap.get "b"
       (LRUCache.cache
          (snd (LRUCache.delete "a"
                  (LRUCache.mk
                     [("a", tenant "a" 0%nat 10); ("b", tenant "b" 1%nat 20)] 2))))
     = Some (tenant "b" 1%nat 20).
Proof.
  destruct (@delete_removes_only "a"
              (LRUCache.mk [("a", tenant "a" 0%nat 10); ("b", tenant "b" 1%nat 20)] 2))
    as (_ & _ & H3 & H4).
  split.
  - apply H4. repeat constructor; simpl; intuition discriminate.
  - apply (H3 "b"). discriminate.
Defined.

(** ** [getStats]: the oldest access *)

Section Sorting.

Lemma insert_by_lastAccess_In x y l :
  In y (LRUCache.insert_by_lastAccess x l) <-> y = x \/ In y l.
Proof.
  induction l as [|z l IH]; simpl; [intuition|].
  destruct (lastAccess z - lastAccess x <? 0); simpl; rewrite ?IH; intuition.
Qed.

Lemma sort_by_lastAccess_In y l :
  In y (LRUCache.sort_by_lastAccess l) <-> In y l.
Proof.
  induction l as [|x l IH]; simpl; [tauto|].
  rewrite insert_by_lastAccess_In, IH. intuition.
Qed.

(** The first value of the sorted array is accessed no later than any
    value of the array. *)
Lemma sort_by_lastAccess_first l y rest :
  LRUCache.sort_by_lastAccess l = y :: rest ->
  forall x, In x l -> lastAccess y <= lastAccess x.
Proof.
  revert y rest. induction l as [|a l IH]; intros y rest E x Hin;
    [destruct Hin|].
  simpl in E.
  destruct (LRUCache.sort_by_lastAccess l) as [|z sorted] eqn:Es.
  - simpl in E. inversion E; subst.
    assert (l = []) as ->.
    { destruct l as [|b l]; [reflexivity|].
      assert (In b (LRUCache.sort_by_lastAccess (b :: l))) as Hb
        by (apply sort_by_lastAccess_In; now left).
      rewrite Es in Hb. destruct Hb. }
    destruct Hin as [<-|[]]. lia.
  - simpl in E. specialize (IH z sorted eq_refl).
    destruct (Z.ltb_spec (lastAccess z - lastAccess a) 0) as [Hlt|Hge];
      inversion E; subst.
    + destruct Hin as [<-|Hin]; [lia|now apply IH].
    + destruct Hin as [<-|Hin]; [lia|]. specialize (IH x Hin). lia.
Qed.

End Sorting.

(** X6. [getStats] reports the number of entries and the capacity; its
    [oldestAccessTime], the [lastAccess] of the first value of the sorted
    array, is empty exactly for an empty cache, and otherwise is the
    [lastAccess] of some entry and no later than that of any entry. *)
Theorem getStats_oldest (c : LRUCache.t) :
  LRUCache.stats_size (LRUCache.getStats c)
  = Z.of_nat (List.length (LRUCache.keys c))
  /\ LRUCache.stats_maxSize (LRUCache.getStats c) = LRUCache.maxSize c
  /\ (LRUCache.oldestAccessTime (LRUCache.getStats c) = None
      <-> LRUCache.cache c = [])
  /\ (forall t, LRUCache.oldestAccessTime (LRUCache.getStats c) = Some t ->
        (exists item, In item (LRUCache.values c) /\ lastAccess item = t)
        /\ forall item, In item (LRUCache.values c) -> t <= lastAccess item).
Proof.
  unfold LRUCache.getStats. cbv zeta.
  cbn [LRUCache.stats_size LRUCache.stats_maxSize LRUCache.oldestAccessTime].
  split; [unfold JsMap.size, LRUCache.keys; now rewrite keys_length|].
  split; [reflexivity|].
  destruct (LRUCache.sort_by_lastAccess (LRUCache.values c)) as [|y rest] eqn:Es;
    simpl.
  - assert (LRUCache.cache c = []) as Hc.
    { destruct (LRUCache.cache c) as [|[k v] m] eqn:Ec; [reflexivity|].
      assert (In v (LRUCache.sort_by_lastAccess (LRUCache.values c))) as Hv.
      { apply sort_by_lastAccess_In. unfold LRUCache.values, JsMap.values.
        rewrite Ec. now left. }
      rewrite Es in Hv. destruct Hv. }
    split; [tauto|]. intros t H. discriminate H.
  - split.
    + split; [discriminate|]. intros Hc.
      unfold LRUCache.values, JsMap.values in Es. rewrite Hc in Es.
      discriminate Es.
    + intros t H. inversion H; subst t. split.
      * exists y. split; [|reflexivity]. apply sort_by_lastAccess_In.
        rewrite Es. now left.
      * intros item Hin. now apply (sort_by_lastAccess_first _ Es).
Qed.

Lemma getStats_oldest_witness :
  exists item,
    In item (LRUCache.values
               (LRUCache.mk
                  [("a", tenant "a" 0%nat 20); ("b", tenant "b" 1%nat 10)] 2))
    /\ lastAccess item = 10.
Proof.
  destruct (@getStats_oldest
              (LRUCache.mk [("a", tenant "a" 0%nat 20); ("b", tenant "b" 1%nat 10)] 2))
    as (_ & _ & _ & H).
  exact (proj1 (H 10 eq_refl)).
Defined.

(** ** Invariants of every reachable state *)

Section Reachable.

Variable w : World.

(** *** Invariants that the insertion of a well-formed entry keeps *)

Section Insertion.

Variable I : Pond -> Prop.

Hypothesis I_tick : forall n s, I s -> I (with_tick n s).
Hypothesis I_inFlight : forall l s, I s -> I (with_inFlight l s).
Hypothesis I_get : forall now key s,
  I s -> I (with_cache (snd (LRUCache.get now key (cache s))) s).
Hypothesis I_delete : forall key s,
  I s -> I (with_cache (snd (LRUCache.delete key (cache s))) s).
Hypothesis I_insert : forall now key conn t s,
  I s ->
  I (with_cache
       (LRUCache.set now key
          {| userId := key; connection := conn; lastAccess := t;
             attached := true; memoryUsage := None |} (cache s)) s).
Hypothesis I_instance : forall i s, I s -> I (with_instance i s).
Hypothesis I_initialized : forall b s, I s -> I (with_initialized b s).
Hypothesis I_evictionTimer : forall t s, I s -> I (with_evictionTimer t s).
Hypothesis I_activeTimers : forall l s, I s -> I (with_activeTimers l s).

Lemma inserting_getUserConnection userId :
  preserves I (getUserConnection w userId).
Proof.
  pose proof (@preserves_cache_get w I I_tick I_get) as P1.
  pose proof (@preserves_evictLRU w I I_tick I_inFlight I_get I_delete) as P2.
  pose proof (@preserves_connect w I I_tick I_inFlight I_delete) as P3.
  pose proof (@preserves_attachUserDatabase w I I_tick I_inFlight I_delete) as P4.
  pose proof (@preserves_new_Date w I I_tick) as P5.
  unfold getUserConnection. preserve.
  unfold cache_set. preserve.
  apply preserves_modify. intros s H. now apply I_insert.
Qed.

Lemma inserting_step c s : I s -> I (step w s c).
Proof.
  intros H.
  pose proof inserting_getUserConnection as P1.
  pose proof (@preserves_run w I I_tick I_inFlight I_delete) as P2.
  pose proof (@preserves_getRowObjects w I I_tick I_inFlight I_delete) as P3.
  destruct c as [|u|u q|u q|u|u|u| | |timer|i]; simpl; auto.
  - apply (@preserves_init w I); auto.
  - now apply P1.
  - assert (preserves I (query w u q)) as P by (unfold query; preserve).
    now apply P.
  - assert (preserves I (execute w u q)) as P by (unfold execute; preserve).
    now apply P.
  - apply (@preserves_detachUser w I); auto.
  - apply (@preserves_getUserStats w I); auto.
  - apply (@preserves_close w I); auto.
  - destruct (existsb (Nat.eqb timer) (activeTimers s)); auto.
    apply (@preserves_evictionTimer_callback w I); auto.
  - apply (@preserves_settle I); auto.
Qed.

Lemma inserting_run_calls calls s : I s -> I (run_calls w calls s).
Proof.
  revert s. induction calls as [|c calls IH]; intros s H; simpl; auto.
  apply IH. now apply inserting_step.
Qed.

End Insertion.

Lemma entries_ok_remove key (m : JsMap.t) n :
  entries_ok (LRUCache.mk m n) -> entries_ok (LRUCache.mk (JsMap.remove key m) n).
Proof.
  unfold entries_ok. simpl. intros H kv Hin.
  apply filter_In in Hin. now apply H.
Qed.

Lemma entries_ok_get now key c :
  entries_ok c -> entries_ok (snd (LRUCache.get now key c)).
Proof.
  intros H. destruct (JsMap.get key (LRUCache.cache c)) as [item|] eqn:E.
  - rewrite (@get_present now key c item E). unfold entries_ok. simpl.
    intros kv Hin. apply in_app_or in Hin. destruct Hin as [Hin|[<-|[]]].
    + apply filter_In in Hin. now apply H.
    + assert (In (key, item) (LRUCache.cache c)) as Hitem.
      { clear H. induction (LRUCache.cache c) as [|[k v] m IH]; [discriminate|].
        simpl in E. destruct (String.eqb_spec k key) as [->|Hne].
        - inversion E; subst. now left.
        - right. now apply IH. }
      apply H in Hitem. exact Hitem.
  - now rewrite (@get_absent now key c E).
Qed.

Lemma entries_ok_set now key conn t c :
  entries_ok c ->
  entries_ok
    (LRUCache.set now key
       {| userId := key; connection := conn; lastAccess := t;
          attached := true; memoryUsage := None |} c).
Proof.
  intros H.
  destruct (set_entries key
              {| userId := key; connection := conn; lastAccess := t;
                 attached := true; memoryUsage := None |} c)
    as (kept & _ & Hincl & E).
  unfold entries_ok. rewrite (E now). simpl. intros kv Hin.
  apply in_app_or in Hin. destruct Hin as [Hin|[<-|[]]].
  - now apply H, Hincl.
  - split; reflexivity.
Qed.

Lemma entries_ok_run_calls cfg calls :
  entries_ok (cache (run_calls w calls (new_DuckPond cfg))).
Proof.
  apply (@inserting_run_calls (fun s => entries_ok (cache s))); auto.
  - intros now key s. apply entries_ok_get.
  - intros key s H. destruct (cache s) as [m n].
    now apply entries_ok_remove.
  - intros now key conn t s. apply entries_ok_set.
  - intros kv [].
Qed.

End Reachable.

(** X7. At most one entry per tenant: in every state the cache class or
    the manager can reach, whatever is called and however the engine and
    the scheduler behave, the keys of the cache are distinct. *)
Theorem one_entry_per_tenant (w : World) (cfg : DuckPondConfig)
    (calls : list Call) (maxSize : Z) (ops : list LRUCache.Op) :
  NoDup (LRUCache.keys (LRUCache.run ops (LRUCache.new maxSize)))
  /\ NoDup (LRUCache.keys (cache (run_calls w calls (new_DuckPond cfg)))).
Proof.
  split.
  - apply distinct_run, distinct_new.
  - apply distinct_run_calls.
Qed.

(** X8. No partial entries: in every state the manager can reach, each
    cached entry is stored under the id it carries in [userId] and has
    [attached = true]. *)
Theorem cached_entries_attached (w : World) (cfg : DuckPondConfig)
    (calls : list Call) (key : string) (item : UserDatabase) :
  In (key, item) (LRUCache.cache (cache (run_calls w calls (new_DuckPond cfg)))) ->
  userId item = key /\ attached item = true.
Proof.
  intros Hin. exact (@entries_ok_run_calls w cfg calls (key, item) Hin).
Qed.

Lemma cached_entries_attached_witness :
  userId (tenant "a" 7%nat 10000) = "a" /\ attached (tenant "a" 7%nat 10000) = true.
Proof.
  apply (@cached_entries_attached calm (config_with 2 Parquet)
           [CallInit; CallGetUserConnection "a"] "a" (tenant "a" 7%nat 10000)).
  vm_compute. left. reflexivity.
Defined.


(** X9. [init] is idempotent: once a call of [init] has returned success,
    under any schedule, the next call returns success and changes nothing;
    it creates no second instance, starts no second timer and makes no
    external interaction. *)
Theorem init_idempotent (w : World) (s : Pond) :
  fst (init w s) = Normal (Right tt) ->
  init w (snd (init w s)) = (Normal (Right tt), snd (init w s)).
Proof.
  intros Hr.
  assert (initialized (snd (init w s)) = true) as Hi.
  { destruct (initialized s) eqn:Hb.
    - unfold init. now rewrite bind_gets, Hb.
    - pose proof (init_control w s Hb) as H.
      destruct (init w s) as [[[err|[]]|e] s']; simpl in *; try discriminate.
      tauto. }
  unfold init at 1. now rewrite bind_gets, Hi.
Qed.

Lemma init_idempotent_witness :
  init calm (snd (init calm (new_DuckPond (config_with 3 Parquet))))
  = (Normal (Right tt), snd (init calm (new_DuckPond (config_with 3 Parquet)))).
Proof.
  apply (@init_idempotent calm (new_DuckPond (config_with 3 Parquet))).
  reflexivity.
Defined.

Section Timers.

Variable w : World.

Lemma timers_ok_frame (f : Pond -> Pond) :
  (forall s, activeTimers (f s) = activeTimers s) ->
  (forall s, evictionTimer (f s) = evictionTimer s) ->
  (forall s, initialized (f s) = initialized s) ->
  forall s, timers_ok s -> timers_ok (f s).
Proof.
  intros Ha Ht Hi s. unfold timers_ok. now rewrite Ha, Ht, Hi.
Qed.

Lemma timers_ok_step c s : timers_ok s -> timers_ok (step w s c).
Proof.
  intros H.
  assert (forall n s', timers_ok s' -> timers_ok (with_tick n s')) as I_tick
    by (intros n; now apply timers_ok_frame).
  assert (forall l s', timers_ok s' -> timers_ok (with_inFlight l s'))
    as I_inFlight by (intros l; now apply timers_ok_frame).
  assert (forall c' s', timers_ok s' -> timers_ok (with_cache c' s'))
    as I_cache by (intros c'; now apply timers_ok_frame).
  destruct c as [|u|u q|u q|u|u|u| | |timer|i]; simpl; auto.
  - (* init *)
    destruct (initialized s) eqn:Hb.
    + unfold init. now rewrite bind_gets, Hb.
    + pose proof (init_control w s Hb) as Hc.
      destruct H as (_ & Hnone). specialize (Hnone Hb).
      destruct (init w s) as [[[err|[]]|e] s']; simpl; [| |contradiction].
      * destruct Hc as (_ & Hi & Ht & Ha). unfold timers_ok.
        rewrite Ha, Hnone. auto.
      * destruct Hc as (Hi & timer & Ht & Ha). unfold timers_ok.
        rewrite Ha, Hnone, Hi. simpl. split; [|discriminate].
        right. exists timer. auto.
  - apply (@preserves_getUserConnection w timers_ok); auto.
  - apply (@preserves_query w timers_ok); auto.
  - apply (@preserves_execute w timers_ok); auto.
  - apply (@preserves_detachUser w timers_ok); auto.
  - apply (@preserves_getUserStats w timers_ok); auto.
  - (* close *)
    destruct (close_control w s) as (s2 & E & Ht & Ha & _).
    rewrite E. simpl. unfold timers_ok. simpl.
    assert (activeTimers s2 = []) as ->.
    { rewrite Ha. destruct H as ([Hn|(timer & Hone & Hev)] & _).
      - rewrite Hn. now destruct (evictionTimer s).
      - rewrite Hev, Hone. simpl. now rewrite Nat.eqb_refl. }
    auto.
  - destruct (existsb (Nat.eqb timer) (activeTimers s)); auto.
    apply (@preserves_evictionTimer_callback w timers_ok); auto.
  - apply (@preserves_settle timers_ok); auto.
Qed.

End Timers.

(** X10. No timer leaks for a client that awaits each call before it
    makes the next: after any sequence of such calls, with timer firings
    and completions of suspended detach calls between them, under any
    behaviour of the engine and of the scheduler, at most one interval is
    running; if one is, it is the one held in [evictionTimer]; and none is
    running while the manager is not initialized (before the first
    successful [init], after a failed [init], after [close]).  Calls that
    overlap are not covered: two [init()] started together both pass the
    test of [initialized] and both start an interval. *)
Theorem at_most_one_timer (w : World) (cfg : DuckPondConfig) (calls : list Call) :
  timers_ok (run_calls w calls (new_DuckPond cfg))
  /\ (List.length (activeTimers (run_calls w calls (new_DuckPond cfg))) <= 1)%nat.
Proof.
  assert (timers_ok (run_calls w calls (new_DuckPond cfg))) as H.
  { assert (timers_ok (new_DuckPond cfg)) as H0
      by (unfold timers_ok; simpl; auto).
    revert H0. generalize (new_DuckPond cfg).
    induction calls as [|c calls IH]; intros s H; simpl; auto.
    apply IH. now apply timers_ok_step. }
  split; [exact H|].
  destruct H as ([Hn|(timer & Hone & _)] & _).
  - rewrite Hn. simpl. lia.
  - rewrite Hone. simpl. lia.
Qed.

(** X11. [close] always shuts the manager down: whatever the engine does
    with the [DETACH] statements and whatever the scheduler does, it
    returns success, leaves [initialized] false and [instance] empty,
    attaches no tenant that was not attached, and on a manager with at
    most one timer leaves no interval running. *)
Theorem close_always_resets (w : World) (s : Pond) :
  fst (close w s) = Normal (success tt)
  /\ initialized (snd (close w s)) = false
  /\ instance (snd (close w s)) = None
  /\ (forall key, isAttached key s = false ->
        isAttached key (snd (close w s)) = false)
  /\ (timers_ok s -> activeTimers (snd (close w s)) = []).
Proof.
  destruct (close_control w s) as (s2 & E & Ht & Ha & Habs).
  rewrite E. simpl. repeat split.
  - intros key Hk. unfold isAttached, LRUCache.has, JsMap.has in *.
    assert (absent key s) as Hk'
      by (unfold absent; destruct (JsMap.get key (LRUCache.cache (cache s)));
          [discriminate|reflexivity]).
    apply Habs in Hk'. unfold absent in Hk'.
    cbn [cache with_initialized with_instance]. now rewrite Hk'.
  - intros ([Hn|(timer & Hone & Hev)] & _); rewrite Ha.
    + rewrite Hn. now destruct (evictionTimer s).
    + rewrite Hev, Hone. simpl. now rewrite Nat.eqb_refl.
Qed.

Lemma close_always_resets_witness :
  fst (close detach_fails
         (run_calls detach_fails [CallInit; CallGetUserConnection "u1"]
            (new_DuckPond (config_with 3 Duckdb))))
  = Normal (success tt)
  /\ activeTimers
       (snd (close detach_fails
               (run_calls detach_fails [CallInit; CallGetUserConnection "u1"]
                  (new_DuckPond (config_with 3 Duckdb)))))
     = []
  /\ isAttached "u2"
       (snd (close detach_fails
               (run_calls detach_fails [CallInit; CallGetUserConnection "u1"]
                  (new_DuckPond (config_with 3 Duckdb)))))
     = false.
Proof.
  destruct (@close_always_resets detach_fails
              (run_calls detach_fails [CallInit; CallGetUserConnection "u1"]
                 (new_DuckPond (config_with 3 Duckdb))))
    as (H1 & _ & _ & H4 & H5).
  split; [exact H1|]. split.
  - apply H5. unfold timers_ok. split; [|discriminate].
    right. exists 6%nat. split; reflexivity.
  - apply H4. reflexivity.
Defined.

(** ** [getUserConnection] under any schedule *)

Section AcquireAny.

Variable w : World.

Lemma connect_any inst s :
  exists s',
    connect w inst s
    = (completion_of (tick s) (instance_connect w (tick s) inst), s')
    /\ tick s' = S (S (tick s)).
Proof.
  unfold connect, await, yield. rewrite bind_interact, bind_run, bind_interact.
  destruct (forEach_settle_tick (sched w (tick (with_tick (S (tick s)) s)))
              (with_tick (S (tick (with_tick (S (tick s)) s)))
                 (with_tick (S (tick s)) s))) as (s' & E & Ht).
  rewrite E. exists s'. split; [reflexivity|]. exact Ht.
Qed.

Lemma initialized_getUserConnection userId s :
  initialized s = true ->
  initialized (snd (getUserConnection w userId s)) = true.
Proof.
  apply (@preserves_getUserConnection w (fun s => initialized s = true)); auto.
Qed.

(** Where a successful [getUserConnection] leaves the tenant. *)
Lemma acquired_entry userId s conn s' :
  getUserConnection w userId s = (Normal (Right conn), s') ->
  exists item,
    JsMap.get userId (LRUCache.cache (cache s')) = Some item
    /\ connection item = conn.
Proof.
  unfold getUserConnection. rewrite bind_gets.
  destruct (initialized s); [|intros H; discriminate H].
  cbn [negb]. cbv iota. rewrite bind_run.
  destruct (JsMap.get userId (LRUCache.cache (cache s))) as [item|] eqn:Hg.
  - rewrite (@cache_get_hit w userId item s Hg). intros H. inversion H; subst.
    exists (set_lastAccess (clock w (tick s)) item). split; [|reflexivity].
    cbn [cache with_tick with_cache].
    rewrite (@get_present (clock w (tick s)) userId (cache s) item Hg). simpl.
    rewrite get_app, get_remove_same. simpl. now rewrite String.eqb_refl.
  - rewrite (@cache_get_miss w userId s Hg), !bind_gets, bind_run.
    destruct ((if LRUCache.size (cache s) >=? maxActiveUsers (config s)
               then evictLRU w else ret tt) s) as [[[]|e] s1];
      [|intros H; discriminate H].
    rewrite bind_gets.
    destruct (instance s1) as [inst|]; [|intros H; discriminate H].
    rewrite bind_run.
    destruct (connect w inst s1) as [[c|e] s2]; [|intros H; discriminate H].
    rewrite bind_run.
    destruct (attachUserDatabase w c userId s2) as [[[err|[]]|e] s3];
      try (intros H; discriminate H).
    cbv [bind new_Date interact ret cache_set modify success].
    intros H. inversion H; subst. cbn [cache with_cache with_tick].
    destruct (set_entries userId
                {| userId := userId; connection := conn;
                   lastAccess := clock w (tick s3);
                   attached := true; memoryUsage := None |} (cache s3))
      as (kept & Hk & _ & E).
    rewrite E. simpl. eexists. split.
    + rewrite get_app, Hk. simpl. rewrite String.eqb_refl. reflexivity.
    + reflexivity.
Qed.

(** What a [getUserConnection] that does not return a connection leaves
    of a tenant that was not cached. *)
Lemma not_acquired_absent userId s :
  absent userId s ->
  isRight_result (fst (getUserConnection w userId s)) = false ->
  absent userId (snd (getUserConnection w userId s)).
Proof.
  intros Ha.
  assert (forall n s', absent userId s' -> absent userId (with_tick n s'))
    as I_tick by auto.
  assert (forall l s', absent userId s' -> absent userId (with_inFlight l s'))
    as I_inFlight by auto.
  assert (forall now key s',
            absent userId s' ->
            absent userId (with_cache (snd (LRUCache.get now key (cache s'))) s'))
    as I_get by (intros; now apply absent_get).
  assert (forall key s',
            absent userId s' ->
            absent userId (with_cache (snd (LRUCache.delete key (cache s'))) s'))
    as I_delete by (intros; now apply absent_delete).
  unfold getUserConnection. rewrite bind_gets.
  destruct (initialized s); [|intros _; exact Ha].
  cbn [negb]. cbv iota. rewrite bind_run, (@cache_get_miss w userId s Ha).
  rewrite !bind_gets, bind_run.
  assert (preserves (absent userId)
            (if LRUCache.size (cache s) >=? maxActiveUsers (config s)
             then evictLRU w else ret tt)) as P1.
  { destruct (LRUCache.size (cache s) >=? maxActiveUsers (config s)).
    - apply preserves_evictLRU; auto.
    - apply preserves_ret. }
  specialize (P1 s Ha).
  destruct ((if LRUCache.size (cache s) >=? maxActiveUsers (config s)
             then evictLRU w else ret tt) s) as [[[]|e] s1]; simpl in P1;
    [|intros _; exact P1].
  rewrite bind_gets.
  destruct (instance s1) as [inst|]; [|intros _; exact P1].
  rewrite bind_run.
  pose proof (@preserves_connect w (absent userId) I_tick I_inFlight I_delete
                inst s1 P1) as P2.
  destruct (connect w inst s1) as [[c|e] s2]; simpl in P2;
    [|intros _; exact P2].
  rewrite bind_run.
  pose proof (@preserves_attachUserDatabase w (absent userId) I_tick I_inFlight
                I_delete c userId s2 P2) as P3.
  destruct (attachUserDatabase w c userId s2) as [[[err|[]]|e] s3]; simpl in P3;
    try (intros _; exact P3).
  cbv [bind new_Date interact ret cache_set modify success]. simpl.
  intros H; discriminate H.
Qed.

End AcquireAny.

(** X12. A tenant whose [getUserConnection] succeeded is attached with
    the very connection that was returned, and asking again returns that
    connection at once: the second call only reads the clock and
    refreshes the entry, under any schedule and without any engine call. *)
Theorem acquired_is_attached (w : World) (userId : string) (s : Pond)
    (conn : DuckDBConnection) (s' : Pond) :
  getUserConnection w userId s = (Normal (Right conn), s') ->
  isAttached userId s' = true
  /\ (exists item, JsMap.get userId (LRUCache.cache (cache s')) = Some item
                   /\ connection item = conn)
  /\ getUserConnection w userId s'
     = (Normal (Right conn),
        with_tick (S (tick s'))
          (with_cache (snd (LRUCache.get (clock w (tick s')) userId (cache s')))
             s')).
Proof.
  intros H. destruct (@acquired_entry w userId s conn s' H) as (item & Hg & Hc).
  assert (initialized s' = true) as Hi.
  { assert (initialized s = true) as Hi0.
    { unfold getUserConnection in H. rewrite bind_gets in H.
      destruct (initialized s); [reflexivity|discriminate H]. }
    pose proof (@initialized_getUserConnection w userId s Hi0) as Hi1.
    now rewrite H in Hi1. }
  split; [unfold isAttached, LRUCache.has, JsMap.has; now rewrite Hg|].
  split; [eauto|].
  rewrite (@getUserConnection_hit w userId item s' Hi Hg). now rewrite Hc.
Qed.

Lemma acquired_is_attached_witness :
  isAttached "a"
    (snd (getUserConnection calm "a"
            (snd (init calm (new_DuckPond (config_with 2 Parquet))))))
  = true.
Proof.
  refine (proj1 (@acquired_is_attached calm "a"
                   (snd (init calm (new_DuckPond (config_with 2 Parquet))))
                   7%nat
                   (snd (getUserConnection calm "a"
                           (snd (init calm
                                   (new_DuckPond (config_with 2 Parquet))))))
                   _)).
  vm_compute. reflexivity.
Defined.

(** X13. Nothing is cached on failure: when [getUserConnection] for a
    tenant that is not cached returns an error or raises (manager not
    initialized, connection refused, attach rejected), under any schedule,
    the tenant is still not cached afterwards. *)
Theorem failed_acquire_caches_nothing (w : World) (userId : string) (s : Pond) :
  isAttached userId s = false ->
  isRight_result (fst (getUserConnection w userId s)) = false ->
  isAttached userId (snd (getUserConnection w userId s)) = false.
Proof.
  intros Ha Hr.
  assert (absent userId s) as Ha' by (apply has_false_get; exact Ha).
  pose proof (@not_acquired_absent w userId s Ha' Hr) as H.
  unfold absent in H. unfold isAttached, LRUCache.has, JsMap.has. now rewrite H.
Qed.

Lemma failed_acquire_caches_nothing_witness :
  isAttached "user1"
    (snd (getUserConnection connect_fails "user1"
            (snd (init connect_fails (new_DuckPond (config_with 10 Parquet))))))
  = false.
Proof.
  apply (@failed_acquire_caches_nothing connect_fails "user1"
           (snd (init connect_fails (new_DuckPond (config_with 10 Parquet)))));
    vm_compute; reflexivity.
Defined.

(** ** Eviction by [getUserConnection] *)

Lemma mem_In key ks : mem key ks = true <-> In key ks.
Proof.
  unfold mem. rewrite existsb_exists. split.
  - intros (x & Hx & E). apply String.eqb_eq in E. now subst.
  - intros H. exists key. split; [exact H|apply String.eqb_refl].
Qed.

Lemma without_head k rest : NoDup (k :: rest) -> without k (k :: rest) = rest.
Proof.
  intros H. inversion H; subst. unfold without. simpl.
  rewrite String.eqb_refl. simpl. apply without_absent.
  destruct (mem k rest) eqn:E; [|reflexivity].
  apply mem_In in E. contradiction.
Qed.

(** X14. A miss at capacity evicts the least recently used tenant and no
    other: when [getUserConnection] returns a connection for a tenant that
    was not cached, on a manager that holds as many tenants as it may and
    has nothing in flight, the keys afterwards are the previous ones
    without the first, followed by the new tenant; this for any capacity,
    provided the eviction is over before the insertion (no engine step, or
    the [DETACH] succeeds and settles in time). *)
Theorem acquire_at_capacity (w : World) (userId : string) (s : Pond)
    (conn : DuckDBConnection) (s' : Pond) (k : string) (rest : list string) :
  getUserConnection w userId s = (Normal (Right conn), s') ->
  inFlight s = [] ->
  LRUCache.keys (cache s) = k :: rest ->
  NoDup (k :: rest) ->
  isAttached userId s = false ->
  maxActiveUsers (config s) <= LRUCache.size (cache s) ->
  LRUCache.size (cache s) <= LRUCache.maxSize (cache s) ->
  is_duckdb (strategy (config s)) = false \/ detach_settles_in_time w s ->
  LRUCache.keys (cache s') = rest ++ [userId].
Proof.
  intros H Hf Hk Hn Ha Hcap Hmax Hev.
  assert (eviction_in_order w userId s) as Hord
    by (unfold eviction_in_order; tauto).
  destruct (@getUserConnection_keys w userId s conn s' Hord Hf H) as (E & _).
  rewrite E. unfold keys_acquire, keys_set.
  rewrite isAttached_mem in Ha. rewrite Ha.
  rewrite size_keys in Hcap, Hmax. rewrite Hk in *.
  destruct (Z.geb_spec (Z.of_nat (List.length (k :: rest)))
              (maxActiveUsers (config s))) as [_|Hlt]; [|lia].
  unfold evict_first. rewrite (without_head Hn).
  assert (mem userId rest = false) as Hr.
  { unfold mem in *. simpl in Ha. now apply orb_false_iff in Ha. }
  rewrite Hr. cbv zeta.
  destruct (Z.geb_spec (Z.of_nat (List.length rest))
              (LRUCache.maxSize (cache s))) as [Hge|_]; [|reflexivity].
  simpl List.length in Hmax. lia.
Qed.

Lemma acquire_at_capacity_witness :
  LRUCache.keys
    (cache (run_calls prompt
              [CallInit; CallGetUserConnection "a"; CallGetUserConnection "b";
               CallGetUserConnection "c"]
              (new_DuckPond (config_with 2 Duckdb))))
  = ["b"] ++ ["c"].
Proof.
  refine (@acquire_at_capacity prompt "c"
            (run_calls prompt
               [CallInit; CallGetUserConnection "a"; CallGetUserConnection "b"]
               (new_DuckPond (config_with 2 Duckdb)))
            21%nat
            (run_calls prompt
               [CallInit; CallGetUserConnection "a"; CallGetUserConnection "b";
                CallGetUserConnection "c"]
               (new_DuckPond (config_with 2 Duckdb)))
            "a" ["b"] _ _ _ _ _ _ _ _).
  - vm_compute. reflexivity.
  - reflexivity.
  - reflexivity.
  - repeat constructor; simpl; intuition discriminate.
  - reflexivity.
  - vm_compute. discriminate.
  - vm_compute. discriminate.
  - right. split; [intros conn alias; reflexivity|].
    left. vm_compute. left. reflexivity.
Defined.

(** ** The idle sweep ([startEvictionTimer]'s callback) *)

Section Sweep.

Variable w : World.

Lemma remove_idem u (m : JsMap.t) :
  JsMap.remove u (JsMap.remove u m) = JsMap.remove u m.
Proof.
  unfold JsMap.remove. induction m as [|kv m IH]; [reflexivity|]. simpl.
  destruct (negb (fst kv =? u)%string) eqn:E; simpl; [rewrite E|];
    now rewrite ?IH.
Qed.

Lemma remove_refreshed u (m : JsMap.t) x :
  JsMap.remove u (JsMap.remove u m ++ [(u, x)]) = JsMap.remove u m.
Proof.
  unfold JsMap.remove at 1. rewrite filter_app. simpl.
  rewrite String.eqb_refl. simpl. rewrite app_nil_r. apply remove_idem.
Qed.

Lemma filter_remove u l (m : JsMap.t) :
  filter (fun kv => negb (mem (fst kv) l)) (JsMap.remove u m)
  = filter (fun kv => negb (mem (fst kv) (u :: l))) m.
Proof.
  unfold JsMap.remove, mem. induction m as [|kv m IH]; [reflexivity|]. simpl.
  destruct (fst kv =? u)%string; simpl; now rewrite IH.
Qed.

Lemma filter_nothing (m : JsMap.t) :
  filter (fun kv => negb (mem (fst kv) [])) m = m.
Proof.
  unfold mem. induction m as [|kv m IH]; [reflexivity|].
  simpl. f_equal. exact IH.
Qed.

(** Without an engine step a dropped [detachUser] is over at once. *)
Lemma detachUser_detached_plain u s :
  is_duckdb (strategy (config s)) = false ->
  exists s',
    detachUser_detached w u s = (Normal tt, s')
    /\ LRUCache.cache (cache s') = JsMap.remove u (LRUCache.cache (cache s))
    /\ LRUCache.maxSize (cache s') = LRUCache.maxSize (cache s)
    /\ same_control s s' /\ inFlight s' = inFlight s.
Proof.
  intros Hd. unfold detachUser_detached. rewrite bind_run.
  destruct (JsMap.get u (LRUCache.cache (cache s))) as [item|] eqn:Hg.
  - rewrite (@detachUser_start_hit w u item s Hg), Hd. cbv zeta iota beta.
    eexists. split; [reflexivity|].
    cbn [cache config inFlight with_cache with_tick].
    rewrite (@get_present (clock w (tick s)) u (cache s) item Hg).
    cbn [snd LRUCache.delete JsMap.delete LRUCache.cache LRUCache.maxSize].
    rewrite remove_refreshed. unfold same_control. simpl. auto 10.
  - rewrite (@detachUser_start_miss w u s Hg). exists s.
    rewrite (remove_absent _ _ Hg). unfold same_control. auto 10.
Qed.

Lemma forEach_detached_plain l : forall s,
  is_duckdb (strategy (config s)) = false ->
  exists s',
    forEach (detachUser_detached w) l s = (Normal tt, s')
    /\ LRUCache.cache (cache s')
       = filter (fun kv => negb (mem (fst kv) l)) (LRUCache.cache (cache s))
    /\ LRUCache.maxSize (cache s') = LRUCache.maxSize (cache s)
    /\ same_control s s' /\ inFlight s' = inFlight s.
Proof.
  induction l as [|u l IH]; intros s Hd.
  - exists s. simpl. unfold ret, same_control. rewrite filter_nothing. auto 10.
  - simpl forEach. rewrite bind_run.
    destruct (@detachUser_detached_plain u s Hd)
      as (s1 & E1 & Hc1 & Hm1 & Hs1 & Hf1).
    rewrite E1. cbv iota beta.
    assert (is_duckdb (strategy (config s1)) = false) as Hd1.
    { destruct Hs1 as (_ & Hcfg & _). now rewrite Hcfg. }
    destruct (IH s1 Hd1) as (s2 & E2 & Hc2 & Hm2 & Hs2 & Hf2).
    exists s2. split; [exact E2|].
    rewrite Hc2, Hc1, filter_remove, Hm2, Hm1, Hf2, Hf1.
    repeat split; auto.
    all: unfold same_control in *; intuition congruence.
Qed.

Lemma entry_of_key (m : JsMap.t) a b :
  NoDup (JsMap.keys m) -> In a m -> In b m -> fst a = fst b -> a = b.
Proof.
  unfold JsMap.keys. induction m as [|kv m IH]; simpl; [contradiction|].
  intros Hn [Ha|Ha] [Hb|Hb] E; inversion Hn; subst; auto.
  - exfalso. apply H1. rewrite E. now apply in_map.
  - exfalso. apply H1. rewrite <- E. now apply in_map.
Qed.

Lemma stale_keys (f : string * UserDatabase -> bool) (m : JsMap.t) :
  NoDup (JsMap.keys m) ->
  filter (fun kv => negb (mem (fst kv) (map fst (filter f m)))) m
  = filter (fun kv => negb (f kv)) m.
Proof.
  intros Hn. apply filter_ext_in. intros kv Hin. f_equal.
  destruct (f kv) eqn:Ef.
  - apply mem_In. apply in_map. apply filter_In. auto.
  - destruct (mem (fst kv) (map fst (filter f m))) eqn:Em; [|reflexivity].
    apply mem_In in Em. apply in_map_iff in Em.
    destruct Em as (kv' & E & Hin'). apply filter_In in Hin'.
    destruct Hin' as (Hin' & Ef').
    rewrite (@entry_of_key m kv' kv Hn Hin' Hin E) in Ef'. congruence.
Qed.

End Sweep.

(** X15. The idle sweep under a strategy other than [duckdb]: when the
    eviction timer fires, exactly the tenants whose last access is more
    than [evictionTimeout] milliseconds before the clock reading are
    removed; the others stay, in their order and with their entries
    untouched, and nothing is left in flight by the sweep. *)
Theorem idle_sweep_removes_stale (w : World) (s : Pond) :
  is_duckdb (strategy (config s)) = false ->
  distinct (cache s) ->
  exists s',
    evictionTimer_callback w s = (Normal tt, s')
    /\ LRUCache.cache (cache s')
       = filter (fresh (clock w (tick s)) (evictionTimeout (config s)))
           (LRUCache.cache (cache s))
    /\ inFlight s' = inFlight s.
Proof.
  intros Hd Hn. unfold evictionTimer_callback, new_Date.
  rewrite bind_run, bind_interact. unfold ret at 1. cbv iota beta.
  rewrite !bind_gets. cbn [cache config with_tick].
  destruct (@forEach_detached_plain w
              (LRUCache.getStale (clock w (tick s)) (evictionTimeout (config s))
                 (cache s))
              (with_tick (S (tick s)) s) Hd)
    as (s' & E & Hc & _ & _ & Hf).
  exists s'. split; [exact E|]. split; [|exact Hf].
  rewrite Hc. cbn [cache with_tick]. unfold LRUCache.getStale.
  now rewrite stale_keys.
Qed.

Lemma idle_sweep_removes_stale_witness :
  exists s',
    evictionTimer_callback calm
      (with_tick 1000
         (pond_with Parquet 10
            [("a", tenant "a" 1%nat 0); ("b", tenant "b" 2%nat 900000)]))
    = (Normal tt, s')
    /\ LRUCache.cache (cache s') = [("b", tenant "b" 2%nat 900000)]
    /\ inFlight s' = [].
Proof.
  apply (@idle_sweep_removes_stale calm
           (with_tick 1000
              (pond_with Parquet 10
                 [("a", tenant "a" 1%nat 0); ("b", tenant "b" 2%nat 900000)]))).
  - reflexivity.
  - unfold distinct. simpl. repeat constructor; simpl; intuition discriminate.
Defined.

Section SweepDuckdb.

Variable w : World.

Lemma mem_app k ks1 ks2 : mem k (ks1 ++ ks2) = mem k ks1 || mem k ks2.
Proof. unfold mem. apply existsb_app. Qed.

Lemma mem_keys_get k u ks : mem k (keys_get u ks) = mem k ks.
Proof.
  unfold keys_get. destruct (mem u ks) eqn:E; [|reflexivity].
  rewrite mem_app. destruct (String.eqb_spec k u) as [->|Hne].
  - rewrite E. unfold mem at 2. simpl. rewrite String.eqb_refl.
    apply orb_true_r.
  - rewrite (mem_without_other ks Hne). unfold mem at 2. simpl.
    destruct (String.eqb_spec k u); [contradiction|]. now rewrite !orb_false_r.
Qed.

(** With an engine step a dropped [detachUser] of a cached tenant stops
    at its [await]: the tenant is still cached, the rest is in flight. *)
Lemma detachUser_detached_duckdb u s :
  is_duckdb (strategy (config s)) = true ->
  exists s',
    detachUser_detached w u s = (Normal tt, s')
    /\ (forall k, isAttached k s' = isAttached k s)
    /\ config s' = config s
    /\ map suspendedUser (inFlight s')
       = map suspendedUser (inFlight s) ++ (if isAttached u s then [u] else []).
Proof.
  intros Hd. unfold detachUser_detached. rewrite bind_run.
  destruct (JsMap.get u (LRUCache.cache (cache s))) as [item|] eqn:Hg.
  - rewrite (@detachUser_start_hit w u item s Hg), Hd. cbv zeta iota beta.
    eexists. split; [reflexivity|].
    cbn [cache config inFlight with_cache with_tick with_inFlight].
    split; [|split; [reflexivity|]].
    + intros k. rewrite !isAttached_mem.
      cbn [cache config inFlight with_cache with_tick with_inFlight].
      now rewrite keys_after_get, mem_keys_get.
    + rewrite map_app. simpl.
      unfold isAttached, LRUCache.has, JsMap.has. now rewrite Hg.
  - rewrite (@detachUser_start_miss w u s Hg). exists s.
    unfold ret, isAttached, LRUCache.has, JsMap.has. rewrite Hg, app_nil_r.
    auto.
Qed.

Lemma forEach_detached_duckdb l : forall s,
  is_duckdb (strategy (config s)) = true ->
  (forall u, In u l -> isAttached u s = true) ->
  exists s',
    forEach (detachUser_detached w) l s = (Normal tt, s')
    /\ (forall k, isAttached k s' = isAttached k s)
    /\ map suspendedUser (inFlight s') = map suspendedUser (inFlight s) ++ l.
Proof.
  induction l as [|u l IH]; intros s Hd Hin.
  - exists s. simpl. rewrite app_nil_r. auto.
  - simpl forEach. rewrite bind_run.
    destruct (@detachUser_detached_duckdb u s Hd) as (s1 & E1 & Hk1 & Hc1 & Hf1).
    rewrite E1. cbv iota beta.
    assert (is_duckdb (strategy (config s1)) = true) as Hd1 by now rewrite Hc1.
    assert (forall u', In u' l -> isAttached u' s1 = true) as Hin1.
    { intros u' Hu'. rewrite Hk1. apply Hin. now right. }
    destruct (IH s1 Hd1 Hin1) as (s2 & E2 & Hk2 & Hf2).
    exists s2. split; [exact E2|]. split.
    + intros k. now rewrite Hk2, Hk1.
    + rewrite Hf2, Hf1, (Hin u (or_introl eq_refl)), <- app_assoc.
      reflexivity.
Qed.

Lemma getStale_cached now timeout (c : LRUCache.t) u :
  In u (LRUCache.getStale now timeout c) -> LRUCache.has u c = true.
Proof.
  unfold LRUCache.getStale, LRUCache.has. intros H.
  apply in_map_iff in H. destruct H as (kv & E & Hin).
  apply filter_In in Hin. destruct Hin as (Hin & _).
  rewrite has_mem. apply mem_In. unfold JsMap.keys. rewrite <- E.
  now apply in_map.
Qed.

End SweepDuckdb.

(** X16. The idle sweep under [duckdb] removes nothing by itself: when
    the eviction timer fires, every tenant that was cached is still cached
    when the callback returns, and one suspended [detachUser] per stale
    tenant, in the order of the cache, has joined the calls in flight. *)
Theorem idle_sweep_duckdb_defers (w : World) (s : Pond) :
  is_duckdb (strategy (config s)) = true ->
  exists s',
    evictionTimer_callback w s = (Normal tt, s')
    /\ (forall k, isAttached k s' = isAttached k s)
    /\ map suspendedUser (inFlight s')
       = map suspendedUser (inFlight s)
         ++ LRUCache.getStale (clock w (tick s)) (evictionTimeout (config s))
              (cache s).
Proof.
  intros Hd. unfold evictionTimer_callback, new_Date.
  rewrite bind_run, bind_interact. unfold ret at 1. cbv iota beta.
  rewrite !bind_gets. cbn [cache config with_tick].
  destruct (@forEach_detached_duckdb w
              (LRUCache.getStale (clock w (tick s)) (evictionTimeout (config s))
                 (cache s))
              (with_tick (S (tick s)) s) Hd) as (s' & E & Hk & Hf).
  { intros u Hu. apply (getStale_cached _ _ _ _ Hu). }
  exists s'. split; [exact E|]. split; [exact Hk|exact Hf].
Qed.

Lemma idle_sweep_duckdb_defers_witness :
  exists s',
    evictionTimer_callback calm
      (with_tick 1000
         (pond_with Duckdb 10
            [("a", tenant "a" 1%nat 0); ("b", tenant "b" 2%nat 900000)]))
    = (Normal tt, s')
    /\ (forall k,
          isAttached k s'
          = isAttached k
              (with_tick 1000
                 (pond_with Duckdb 10
                    [("a", tenant "a" 1%nat 0); ("b", tenant "b" 2%nat 900000)])))
    /\ map suspendedUser (inFlight s') = [] ++ ["a"].
Proof.
  apply (@idle_sweep_duckdb_defers calm
           (with_tick 1000
              (pond_with Duckdb 10
                 [("a", tenant "a" 1%nat 0); ("b", tenant "b" 2%nat 900000)]))).
  reflexivity.
Defined.

(** ** Who can attach a tenant *)

Section OnRequest.

Variable w : World.
Variable k : string.

Lemma absent_set_other now u v s :
  u <> k ->
  absent k s -> absent k (with_cache (LRUCache.set now u v (cache s)) s).
Proof.
  unfold absent. intros Hne H. cbn [cache with_cache].
  destruct (set_entries u v (cache s)) as (kept & _ & Hincl & E).
  rewrite (E now). cbn [LRUCache.cache]. rewrite get_app.
  assert (JsMap.get k kept = None) as ->.
  { destruct (JsMap.get k kept) eqn:Ek; [|reflexivity]. exfalso.
    assert (JsMap.get k kept <> None) as Hk by congruence.
    apply get_In_keys in Hk. unfold JsMap.keys in Hk.
    apply in_map_iff in Hk. destruct Hk as (kv & Ekv & Hin).
    apply Hincl in Hin.
    assert (In k (JsMap.keys (LRUCache.cache (cache s)))) as Hin'
      by (unfold JsMap.keys; rewrite <- Ekv; now apply in_map).
    apply get_In_keys in Hin'. contradiction. }
  simpl. destruct (String.eqb_spec u k); [contradiction|reflexivity].
Qed.

Lemma absent_getUserConnection_other u :
  u <> k -> preserves (absent k) (getUserConnection w u).
Proof.
  intros Hne.
  assert (forall n s, absent k s -> absent k (with_tick n s)) as I_tick by auto.
  assert (forall l s, absent k s -> absent k (with_inFlight l s))
    as I_inFlight by auto.
  assert (forall now key s,
            absent k s ->
            absent k (with_cache (snd (LRUCache.get now key (cache s))) s))
    as I_get by (intros; now apply absent_get).
  assert (forall key s,
            absent k s ->
            absent k (with_cache (snd (LRUCache.delete key (cache s))) s))
    as I_delete by (intros; now apply absent_delete).
  pose proof (@preserves_cache_get w (absent k) I_tick I_get) as P1.
  pose proof (@preserves_evictLRU w (absent k) I_tick I_inFlight I_get I_delete)
    as P2.
  pose proof (@preserves_connect w (absent k) I_tick I_inFlight I_delete) as P3.
  pose proof (@preserves_attachUserDatabase w (absent k) I_tick I_inFlight
                I_delete) as P4.
  pose proof (@preserves_new_Date w (absent k) I_tick) as P5.
  unfold getUserConnection. preserve.
  unfold cache_set. preserve.
  apply preserves_modify. intros s H. now apply absent_set_other.
Qed.

Lemma absent_step c s : names k c = false -> absent k s -> absent k (step w s c).
Proof.
  intros Hc H.
  assert (forall n s, absent k s -> absent k (with_tick n s)) as I_tick by auto.
  assert (forall l s, absent k s -> absent k (with_inFlight l s))
    as I_inFlight by auto.
  assert (forall now key s,
            absent k s ->
            absent k (with_cache (snd (LRUCache.get now key (cache s))) s))
    as I_get by (intros; now apply absent_get).
  assert (forall key s,
            absent k s ->
            absent k (with_cache (snd (LRUCache.delete key (cache s))) s))
    as I_delete by (intros; now apply absent_delete).
  pose proof (@preserves_run w (absent k) I_tick I_inFlight I_delete) as P2.
  pose proof (@preserves_getRowObjects w (absent k) I_tick I_inFlight I_delete)
    as P3.
  destruct c as [|u|u q|u q|u|u|u| | |timer|i]; simpl in *; auto.
  - apply (@preserves_init w (absent k)); auto.
  - apply absent_getUserConnection_other; [|exact H].
    intros ->. now rewrite String.eqb_refl in Hc.
  - assert (u <> k) as Hne by (intros ->; now rewrite String.eqb_refl in Hc).
    pose proof (absent_getUserConnection_other Hne) as P1.
    assert (preserves (absent k) (query w u q)) as P by (unfold query; preserve).
    now apply P.
  - assert (u <> k) as Hne by (intros ->; now rewrite String.eqb_refl in Hc).
    pose proof (absent_getUserConnection_other Hne) as P1.
    assert (preserves (absent k) (execute w u q)) as P
      by (unfold execute; preserve).
    now apply P.
  - apply (@preserves_detachUser w (absent k)); auto.
  - apply (@preserves_getUserStats w (absent k)); auto.
  - apply (@preserves_close w (absent k)); auto.
  - destruct (existsb (Nat.eqb timer) (activeTimers s)); auto.
    apply (@preserves_evictionTimer_callback w (absent k)); auto.
  - apply (@preserves_settle (absent k)); auto.
Qed.

End OnRequest.

(** X17. A tenant is attached on request only: along any sequence of
    public calls, timer firings and settlements in which no
    [getUserConnection], [query] or [execute] names tenant [k], a tenant
    [k] that was not cached is not cached at the end, whatever the engine
    and the scheduler do. *)
Theorem attached_on_request_only (w : World) (k : string) (calls : list Call)
    (s : Pond) :
  isAttached k s = false ->
  forallb (fun c => negb (names k c)) calls = true ->
  isAttached k (run_calls w calls s) = false.
Proof.
  intros Ha Hc.
  assert (absent k (run_calls w calls s)) as H.
  { apply has_false_get in Ha. change (absent k s) in Ha.
    revert s Ha. induction calls as [|c calls IH]; intros s Ha; [exact Ha|].
    simpl in Hc. apply andb_true_iff in Hc. destruct Hc as (Hc1 & Hc2).
    simpl. apply (IH Hc2). apply absent_step; [|exact Ha].
    now apply negb_true_iff in Hc1. }
  unfold absent in H. unfold isAttached, LRUCache.has, JsMap.has. now rewrite H.
Qed.

Lemma attached_on_request_only_witness :
  isAttached "b"
    (run_calls calm
       [CallInit; CallQuery "a" "SELECT 1"; CallGetUserStats "b";
        CallDetachUser "b"; TimerFires 6%nat; CallClose]
       (new_DuckPond (config_with 2 Duckdb)))
  = false.
Proof.
  apply (@attached_on_request_only calm "b"
           [CallInit; CallQuery "a" "SELECT 1"; CallGetUserStats "b";
            CallDetachUser "b"; TimerFires 6%nat; CallClose]
           (new_DuckPond (config_with 2 Duckdb))); reflexivity.
Defined.

(** ** What can raise *)

Section Raises.

Variable w : World.

Lemma never_throws_run_to {A : Type} (m : M A) s :
  never_throws m -> exists a s', m s = (Normal a, s').
Proof.
  intros H. destruct (H s) as [a Ha]. destruct (m s) as [r s'].
  simpl in Ha. subst r. now exists a, s'.
Qed.

Lemma never_throws_evictLRU : never_throws (evictLRU w).
Proof.
  unfold evictLRU. apply never_throws_bind; [apply never_throws_gets|].
  intros c. destruct (LRUCache.getLRU c) as [userId|];
    [|apply never_throws_ret].
  unfold detachUser_detached.
  apply never_throws_bind; [apply never_throws_detachUser_start|].
  intros [r|p]; [apply never_throws_ret|apply never_throws_modify].
Qed.

Lemma instance_evictLRU s : instance (snd (evictLRU w s)) = instance s.
Proof.
  apply (@preserves_evictLRU w (fun s' => instance s' = instance s)); auto.
Qed.

(** A raised [getUserConnection] is a refused [instance.connect()]. *)
Lemma getUserConnection_raises userId s e :
  fst (getUserConnection w userId s) = Throw e ->
  initialized s = true /\ isAttached userId s = false
  /\ exists inst n, instance s = Some inst /\ instance_connect w n inst = Some e.
Proof.
  unfold getUserConnection. rewrite bind_gets.
  destruct (initialized s); [|intros H; discriminate H].
  cbn [negb]. cbv iota. rewrite bind_run.
  destruct (JsMap.get userId (LRUCache.cache (cache s))) as [item|] eqn:Hg.
  - rewrite (@cache_get_hit w userId item s Hg). intros H; discriminate H.
  - rewrite (@cache_get_miss w userId s Hg), !bind_gets, bind_run.
    assert (never_throws
              (if LRUCache.size (cache s) >=? maxActiveUsers (config s)
               then evictLRU w else ret tt)) as N1.
    { destruct (LRUCache.size (cache s) >=? maxActiveUsers (config s));
        [apply never_throws_evictLRU|apply never_throws_ret]. }
    assert (instance
              (snd ((if LRUCache.size (cache s) >=? maxActiveUsers (config s)
                     then evictLRU w else ret tt) s)) = instance s) as I1.
    { destruct (LRUCache.size (cache s) >=? maxActiveUsers (config s));
        [apply instance_evictLRU|reflexivity]. }
    destruct (never_throws_run_to s N1) as ([] & s1 & E1).
    rewrite E1 in *. simpl in I1. rewrite bind_gets, I1.
    destruct (instance s) as [inst|]; [|intros H; discriminate H].
    rewrite bind_run.
    destruct (connect_any w inst s1) as (s2 & E2 & _). rewrite E2.
    destruct (instance_connect w (tick s1) inst) as [e'|] eqn:Ec;
      cbn [completion_of]; cbv iota beta.
    + intros H. simpl in H. inversion H; subst e'.
      split; [reflexivity|].
      split; [unfold isAttached, LRUCache.has, JsMap.has; now rewrite Hg|].
      now exists inst, (tick s1).
    + rewrite bind_run.
      destruct (never_throws_run_to s2
                  (never_throws_attachUserDatabase w (tick s1) userId))
        as (r & s3 & E3).
      rewrite E3. destruct r as [err|[]]; intros H; discriminate H.
Qed.

End Raises.

(** X18. [init], [detachUser], [getUserStats] and [close] never raise:
    from every state, whatever the engine answers and whatever the
    scheduler does, each of them returns a result. *)
Theorem lifecycle_never_raises (w : World) (userId : string) (s : Pond) :
  (exists r, fst (init w s) = Normal r)
  /\ (exists r, fst (detachUser w userId s) = Normal r)
  /\ (exists r, fst (getUserStats w userId s) = Normal r)
  /\ (exists r, fst (close w s) = Normal r).
Proof.
  split; [apply never_throws_init|].
  split; [apply never_throws_detachUser|].
  split; [apply never_throws_getUserStats|apply never_throws_close].
Qed.

(** X19. The only exception that leaves [query], [execute] or
    [getUserConnection] is a refused [instance.connect()]: if one of them
    raises [e], the manager was initialized, the tenant was not cached,
    and [e] is what the engine answered to a connection request on the
    manager's instance.  For a cached tenant none of them raises. *)
Theorem raises_only_refused_connection (w : World) (userId sql : string)
    (s : Pond) (e : JsValue) :
  fst (query w userId sql s) = Throw e
  \/ fst (execute w userId sql s) = Throw e
  \/ fst (getUserConnection w userId s) = Throw e ->
  initialized s = true /\ isAttached userId s = false
  /\ exists inst n, instance s = Some inst /\ instance_connect w n inst = Some e.
Proof.
  intros [H|[H|H]].
  - apply (@getUserConnection_raises w userId s e).
    unfold query in H. rewrite bind_run in H.
    destruct (getUserConnection w userId s) as [[[err|conn]|e'] s1];
      [discriminate H| |simpl in H; inversion H; reflexivity].
    exfalso. rewrite try_catch_run in H.
    destruct ((run w conn (UserSql sql);;
               rows <- getRowObjects w conn (UserSql sql);;
               ret (success rows)) s1) as [[r|e'] s2]; discriminate H.
  - apply (@getUserConnection_raises w userId s e).
    unfold execute in H. rewrite bind_run in H.
    destruct (getUserConnection w userId s) as [[[err|conn]|e'] s1];
      [discriminate H| |simpl in H; inversion H; reflexivity].
    exfalso. rewrite try_catch_run in H.
    destruct ((run w conn (UserSql sql);; ret (success tt)) s1)
      as [[r|e'] s2]; discriminate H.
  - now apply (@getUserConnection_raises w userId s e).
Qed.

Lemma raises_only_refused_connection_witness :
  initialized (snd (init connect_fails (new_DuckPond (config_with 10 Parquet))))
  = true
  /\ isAttached "user1"
       (snd (init connect_fails (new_DuckPond (config_with 10 Parquet)))) = false
  /\ exists inst n,
       instance (snd (init connect_fails (new_DuckPond (config_with 10 Parquet))))
       = Some inst
       /\ instance_connect connect_fails n inst
          = Some (JsError "IO Error: out of memory").
Proof.
  apply (@raises_only_refused_connection connect_fails "user1" "SELECT 1"
           (snd (init connect_fails (new_DuckPond (config_with 10 Parquet))))
           (JsError "IO Error: out of memory")).
  left. vm_compute. reflexivity.
Defined.

(** ** Statements on a tenant's connection *)

Section Statements.

Variable w : World.

(** What [execute] returns for a cached tenant. *)
Lemma execute_hit_result userId sql item s :
  initialized s = true ->
  JsMap.get userId (LRUCache.cache (cache s)) = Some item ->
  fst (execute w userId sql s)
  = match conn_run w (S (tick s)) (connection item) (UserSql sql) with
    | None => Normal (success tt)
    | Some e => Normal (Left (toDuckPondError e QUERY_EXECUTION_ERROR))
    end.
Proof.
  intros Hi Hg. unfold execute.
  rewrite bind_run, (@getUserConnection_hit w userId item s Hi Hg).
  unfold success at 1. cbv iota beta. rewrite try_catch_run, bind_run.
  match goal with
  | |- context [run w ?c ?q ?st] =>
      destruct (run_any w c q st) as (s2 & E2 & Ht2)
  end.
  rewrite E2. cbn [tick with_tick connection set_lastAccess] in *.
  destruct (conn_run w (S (tick s)) (connection item) (UserSql sql)) as [e|];
    reflexivity.
Qed.

Lemma execute_hit_state userId sql item s :
  initialized s = true ->
  JsMap.get userId (LRUCache.cache (cache s)) = Some item ->
  inFlight s = [] ->
  cache (snd (execute w userId sql s))
  = snd (LRUCache.get (clock w (tick s)) userId (cache s)).
Proof.
  intros Hi Hg Hf. unfold execute.
  rewrite bind_run, (@getUserConnection_hit w userId item s Hi Hg).
  unfold success at 1. cbv iota beta. rewrite try_catch_run, bind_run.
  rewrite run_idle by exact Hf.
  destruct (conn_run w _ _ _); reflexivity.
Qed.

Lemma config_connect inst s : config (snd (connect w inst s)) = config s.
Proof.
  apply (@preserves_connect w (fun s' => config s' = config s)); auto.
Qed.

(** [getUserConnection] for a new tenant, below capacity, when the engine
    connects and then rejects the [ATTACH]. *)
Lemma getUserConnection_attach_rejected userId inst e s :
  initialized s = true ->
  JsMap.get userId (LRUCache.cache (cache s)) = None ->
  LRUCache.size (cache s) < maxActiveUsers (config s) ->
  instance s = Some inst ->
  instance_connect w (tick s) inst = None ->
  is_duckdb (strategy (config s)) = true ->
  (forall path alias,
     conn_run w (S (S (tick s))) (tick s) (Attach path alias) = Some e) ->
  exists s',
    getUserConnection w userId s
    = (Normal (Errors.storageError "Failed to attach user database" e), s').
Proof.
  intros Hi Hg Hsz Hinst Hc Hd Hrun.
  unfold getUserConnection. rewrite bind_gets, Hi.
  cbn [negb]. cbv iota.
  rewrite bind_run, (@cache_get_miss w userId s Hg), !bind_gets.
  destruct (Z.geb_spec (LRUCache.size (cache s)) (maxActiveUsers (config s)));
    [lia|].
  rewrite bind_ret, bind_gets, Hinst, bind_run.
  pose proof (config_connect inst s) as Hcfg.
  destruct (connect_any w inst s) as (s2 & E2 & Ht2).
  rewrite E2 in *. simpl in Hcfg. rewrite Hc. cbn [completion_of]. cbv iota beta.
  rewrite bind_run. unfold attachUserDatabase.
  rewrite bind_gets, try_catch_run, Hcfg, Hd, bind_run.
  match goal with
  | |- context [run w ?c ?q ?st] =>
      destruct (run_any w c q st) as (s3 & E3 & Ht3)
  end.
  rewrite E3, Ht2, Hrun. cbn [completion_of]. cbv iota beta.
  unfold ret at 1. cbv iota beta.
  unfold Errors.storageError at 1, createError at 1. cbv iota beta.
  unfold ret. eexists. reflexivity.
Qed.

End Statements.

(** X20. [execute] for a cached tenant on an initialized manager, under
    any schedule: the statement is run once, on the tenant's own
    connection; the call succeeds when the engine accepts it and returns
    the error [QUERY_EXECUTION_ERROR] built from the engine's error when
    it does not.  With nothing in flight the cache is exactly what the
    lookup made it: the tenant refreshed, nothing removed. *)
Theorem execute_cached (w : World) (s : Pond) (userId sql : string)
    (item : UserDatabase) :
  initialized s = true ->
  JsMap.get userId (LRUCache.cache (cache s)) = Some item ->
  fst (execute w userId sql s)
  = match conn_run w (S (tick s)) (connection item) (UserSql sql) with
    | None => Normal (Right tt)
    | Some e => Normal (Left (toDuckPondError e QUERY_EXECUTION_ERROR))
    end
  /\ (inFlight s = [] ->
      cache (snd (execute w userId sql s))
      = snd (LRUCache.get (clock w (tick s)) userId (cache s))).
Proof.
  intros Hi Hg. split.
  - apply (@execute_hit_result w userId sql item s Hi Hg).
  - apply (@execute_hit_state w userId sql item s Hi Hg).
Qed.

Lemma execute_cached_witness :
  fst (execute query_fails "user1" "DROP TABLE t"
         (pond_with Parquet 10 [("user1", tenant "user1" 7%nat 8000)]))
  = Normal (Left {| code := QUERY_EXECUTION_ERROR;
                    message := "Catalog Error: Table nonexistent_table does not exist";
                    cause := Some (JsError
                      "Catalog Error: Table nonexistent_table does not exist");
                    context := None |}).
Proof.
  exact (proj1 (@execute_cached query_fails
                  (pond_with Parquet 10 [("user1", tenant "user1" 7%nat 8000)])
                  "user1" "DROP TABLE t" (tenant "user1" 7%nat 8000)
                  eq_refl eq_refl)).
Defined.

(** X21. [query] for a cached tenant on an initialized manager returns
    the rows the engine produced for that statement on the tenant's own
    connection, under any schedule. *)
Theorem query_returns_engine_rows (w : World) (s : Pond) (userId sql : string)
    (item : UserDatabase) (rows : list Row) :
  initialized s = true ->
  JsMap.get userId (LRUCache.cache (cache s)) = Some item ->
  engine_query w (S (tick s)) (connection item) sql = Normal rows ->
  fst (query w userId sql s) = Normal (Right rows).
Proof.
  intros Hi Hg He.
  now rewrite (@query_hit_result w userId sql item s Hi Hg), He.
Qed.

Lemma query_returns_engine_rows_witness :
  fst (query calm "user1" "SELECT 1"
         (pond_with Duckdb 10 [("user1", tenant "user1" 7%nat 8000)]))
  = Normal (Right []).
Proof.
  apply (@query_returns_engine_rows calm
           (pond_with Duckdb 10 [("user1", tenant "user1" 7%nat 8000)])
           "user1" "SELECT 1" (tenant "user1" 7%nat 8000) []); reflexivity.
Defined.

(** X22. A rejected [ATTACH] is reported, not raised: under [duckdb],
    when a tenant that is not cached is asked for below capacity, the
    engine hands out a connection and then rejects the [ATTACH] with [e],
    [getUserConnection] and [query] return the error [STORAGE_ERROR]
    with message [Failed to attach user database] and cause [e], under
    any schedule; the caller's statement is not run. *)
Theorem attach_rejected_is_reported (w : World) (s : Pond) (userId sql : string)
    (inst : DuckDBInstance) (e : JsValue) :
  initialized s = true ->
  isAttached userId s = false ->
  LRUCache.size (cache s) < maxActiveUsers (config s) ->
  instance s = Some inst ->
  instance_connect w (tick s) inst = None ->
  is_duckdb (strategy (config s)) = true ->
  (forall path alias,
     conn_run w (S (S (tick s))) (tick s) (Attach path alias) = Some e) ->
  fst (getUserConnection w userId s)
  = Normal (Left {| code := STORAGE_ERROR;
                    message := "Failed to attach user database";
                    cause := Some e; context := None |})
  /\ fst (query w userId sql s)
     = Normal (Left {| code := STORAGE_ERROR;
                       message := "Failed to attach user database";
                       cause := Some e; context := None |}).
Proof.
  intros Hi Ha Hsz Hinst Hc Hd Hrun.
  apply has_false_get in Ha.
  destruct (@getUserConnection_attach_rejected w userId inst e s
              Hi Ha Hsz Hinst Hc Hd Hrun) as (s' & E).
  split.
  - now rewrite E.
  - unfold query. rewrite bind_run, E. reflexivity.
Qed.

Lemma attach_rejected_is_reported_witness :
  fst (query attach_fails "user1" "SELECT 1"
         (snd (init attach_fails (new_DuckPond (config_with 10 Duckdb)))))
  = Normal (Left {| code := STORAGE_ERROR;
                    message := "Failed to attach user database";
                    cause := Some (JsError "IO Error: cannot open database");
                    context := None |}).
Proof.
  refine (proj2 (@attach_rejected_is_reported attach_fails
                   (snd (init attach_fails (new_DuckPond (config_with 10 Duckdb))))
                   "user1" "SELECT 1" 0%nat
                   (JsError "IO Error: cannot open database")
                   _ _ _ _ _ _ _)).
  - reflexivity.
  - reflexivity.
  - vm_compute. reflexivity.
  - reflexivity.
  - reflexivity.
  - reflexivity.
  - intros path alias. reflexivity.
Defined.

(** ** Before the first successful [init] *)

Lemma pristine_run_calls (w : World) calls : forall s,
  pristine s ->
  pristine (run_calls w calls s)
  \/ exists pre post,
       calls = pre ++ CallInit :: post
       /\ fst (init w (run_calls w pre s)) = Normal (Right tt).
Proof.
  induction calls as [|c calls IH]; intros s H; [now left|].
  destruct (@pristine_step w s c H) as [H1|(-> & H1)].
  - destruct (IH _ H1) as [H2|(pre & post & E & H2)]; [now left|].
    right. exists (c :: pre), post. split; [now rewrite E|exact H2].
  - right. exists [], calls. split; [reflexivity|exact H1].
Qed.

(** X23. Nothing is attached before the manager is initialized: if a
    tenant is cached after some sequence of public calls, timer firings
    and settlements on a new manager, then one of the calls was an [init]
    that returned success, whatever the engine and the scheduler do. *)
Theorem attached_only_after_init (w : World) (cfg : DuckPondConfig)
    (calls : list Call) (userId : string) :
  isAttached userId (run_calls w calls (new_DuckPond cfg)) = true ->
  exists pre post,
    calls = pre ++ CallInit :: post
    /\ fst (init w (run_calls w pre (new_DuckPond cfg))) = Normal (Right tt).
Proof.
  intros Ha.
  destruct (@pristine_run_calls w calls (new_DuckPond cfg) (pristine_new cfg))
    as [(_ & Hc & _)|H]; [|exact H].
  unfold isAttached, LRUCache.has, JsMap.has in Ha. rewrite Hc in Ha.
  discriminate Ha.
Qed.

Lemma attached_only_after_init_witness :
  exists pre post,
    [CallGetUserConnection "a"; CallInit; CallGetUserConnection "a"]
    = pre ++ CallInit :: post
    /\ fst (init calm (run_calls calm pre (new_DuckPond (config_with 2 Duckdb))))
       = Normal (Right tt).
Proof.
  apply (@attached_only_after_init calm (config_with 2 Duckdb)
           [CallGetUserConnection "a"; CallInit; CallGetUserConnection "a"] "a").
  reflexivity.
Defined.

(** ** [detachUser] and the other tenants *)

Section DetachFrame.

Variable w : World.

Lemma get_refreshed_other k u (m : JsMap.t) x :
  k <> u ->
  JsMap.get k (JsMap.remove u m ++ [(u, x)]) = JsMap.get k m.
Proof.
  intros Hne. rewrite get_app, get_remove_other by assumption.
  destruct (JsMap.get k m); [reflexivity|]. simpl.
  destruct (String.eqb_spec u k); [congruence|reflexivity].
Qed.

Lemma detachUser_other k u s :
  inFlight s = [] ->
  k <> u ->
  JsMap.get k (LRUCache.cache (cache (snd (detachUser w u s))))
  = JsMap.get k (LRUCache.cache (cache s)).
Proof.
  intros Hf Hne. unfold detachUser. rewrite bind_run.
  destruct (JsMap.get u (LRUCache.cache (cache s))) as [item|] eqn:Hg.
  - rewrite (@detachUser_start_hit w u item s Hg). cbv zeta.
    rewrite (@get_present (clock w (tick s)) u (cache s) item Hg).
    destruct (is_duckdb (strategy (config s))).
    + rewrite bind_run, yield_idle by exact Hf.
      unfold detachUser_resume. cbn [suspendedOutcome suspendedUser].
      destruct (conn_run w (S (tick s)) (connection item)
                  (Detach ("user_" ++ u)%string)).
      * simpl. now apply get_refreshed_other.
      * simpl. rewrite remove_refreshed. now apply get_remove_other.
    + simpl. rewrite remove_refreshed. now apply get_remove_other.
  - now rewrite (@detachUser_start_miss w u s Hg).
Qed.

End DetachFrame.

(** X24. [detachUser] touches the named tenant only: with nothing in
    flight, whatever the strategy and whether or not the engine accepts
    the [DETACH], every other tenant has after the call the entry it had
    before. *)
Theorem detachUser_spares_others (w : World) (userId other : string) (s : Pond) :
  inFlight s = [] ->
  other <> userId ->
  JsMap.get other (LRUCache.cache (cache (snd (detachUser w userId s))))
  = JsMap.get other (LRUCache.cache (cache s)).
Proof. intros Hf Hne. now apply detachUser_other. Qed.

Lemma detachUser_spares_others_witness :
  JsMap.get "b"
    (LRUCache.cache
       (cache (snd (detachUser detach_fails "a"
                      (pond_with Duckdb 10
                         [("a", tenant "a" 1%nat 0); ("b", tenant "b" 2%nat 5)])))))
  = Some (tenant "b" 2%nat 5).
Proof.
  apply (@detachUser_spares_others detach_fails "a" "b"
           (pond_with Duckdb 10
              [("a", tenant "a" 1%nat 0); ("b", tenant "b" 2%nat 5)])).
  - reflexivity.
  - discriminate.
Defined.

(** ** The error of a failed [init] *)

Section InitError.

Variable w : World.


Lemma seq_value {A B : Type} (m : M A) (k : M B) (x : B) :
  (forall s b s', k s = (Normal b, s') -> b = x) ->
  forall s b s', (m ;; k) s = (Normal b, s') -> b = x.
Proof.
  intros Hk s b s'. rewrite bind_run.
  destruct (m s) as [[a|e] s1]; [apply Hk|discriminate].
Qed.

Lemma ret_value {B : Type} (x : B) s b s' : ret x s = (Normal b, s') -> b = x.
Proof. unfold ret. intros H. now inversion H. Qed.



End InitError.



(** ** The instance of an initialized manager *)

Section Ready.

Variable w : World.

Lemma ready_frame (f : Pond -> Pond) :
  (forall s, instance (f s) = instance s) ->
  (forall s, initialized (f s) = initialized s) ->
  forall s, ready s -> ready (f s).
Proof. intros Hi Hb s. unfold ready. now rewrite Hi, Hb. Qed.

Lemma init_instance s :
  initialized s = false ->
  isRight_result (fst (init w s)) = true ->
  instance (snd (init w s)) <> None.
Proof.
  intros Hi. unfold init. rewrite bind_gets, Hi, try_catch_run, bind_run.
  destruct (DuckDBInstance_create w s) as [[inst|e] s1];
    [|intros H; discriminate H].
  rewrite bind_modify, bind_run.
  set (I := fun s' : Pond => instance s' = Some inst).
  assert (forall n s', I s' -> I (with_tick n s')) as I_tick by auto.
  assert (forall l s', I s' -> I (with_inFlight l s')) as I_inFlight by auto.
  assert (forall key s',
            I s' -> I (with_cache (snd (LRUCache.delete key (cache s'))) s'))
    as I_delete by auto.
  pose proof (@preserves_setupCloudStorage w I I_tick I_inFlight I_delete
                (with_instance (Some inst) s1) eq_refl) as H2.
  destruct (setupCloudStorage w (with_instance (Some inst) s1))
    as [[[err|[]]|e] s2]; simpl in H2; try (intros H; discriminate H).
  intros _. simpl. unfold I in H2. rewrite H2. discriminate.
Qed.

Lemma ready_step c s : ready s -> ready (step w s c).
Proof.
  intros H.
  assert (forall n s', ready s' -> ready (with_tick n s')) as I_tick
    by (intros n; now apply ready_frame).
  assert (forall l s', ready s' -> ready (with_inFlight l s'))
    as I_inFlight by (intros l; now apply ready_frame).
  assert (forall c' s', ready s' -> ready (with_cache c' s')) as I_cache
    by (intros c'; now apply ready_frame).
  destruct c as [|u|u q|u q|u|u|u| | |timer|i]; simpl; auto.
  - destruct (initialized s) eqn:Hb.
    + unfold init. now rewrite bind_gets, Hb.
    + pose proof (init_control w s Hb) as Hc.
      pose proof (init_instance s Hb) as Hinst.
      destruct (init w s) as [[[err|[]]|e] s']; simpl in *; [| |contradiction].
      * destruct Hc as (_ & Hi & _). unfold ready. congruence.
      * intros _. now apply Hinst.
  - apply (@preserves_getUserConnection w ready); auto.
  - apply (@preserves_query w ready); auto.
  - apply (@preserves_execute w ready); auto.
  - apply (@preserves_detachUser w ready); auto.
  - apply (@preserves_getUserStats w ready); auto.
  - destruct (close_control w s) as (s2 & E & _).
    rewrite E. simpl. unfold ready. simpl. discriminate.
  - destruct (existsb (Nat.eqb timer) (activeTimers s)); auto.
    apply (@preserves_evictionTimer_callback w ready); auto.
  - apply (@preserves_settle ready); auto.
Qed.

Lemma ready_run_calls calls : forall s, ready s -> ready (run_calls w calls s).
Proof.
  induction calls as [|c calls IH]; intros s H; [exact H|].
  simpl. apply IH. now apply ready_step.
Qed.

(** The errors [getUserConnection] returns. *)
Lemma getUserConnection_error userId s err :
  fst (getUserConnection w userId s) = Normal (Left err) ->
  (code err = NOT_INITIALIZED /\ (initialized s = false \/ instance s = None))
  \/ (code err = STORAGE_ERROR
      /\ message err = "Failed to attach user database").
Proof.
  unfold getUserConnection. rewrite bind_gets.
  destruct (initialized s); cbn [negb]; cbv iota;
    [|intros H; inversion H; left; auto].
  rewrite bind_run.
  destruct (JsMap.get userId (LRUCache.cache (cache s))) as [item|] eqn:Hg.
  - rewrite (@cache_get_hit w userId item s Hg). intros H; discriminate H.
  - rewrite (@cache_get_miss w userId s Hg), !bind_gets, bind_run.
    assert (instance
              (snd ((if LRUCache.size (cache s) >=? maxActiveUsers (config s)
                     then evictLRU w else ret tt) s)) = instance s) as I1.
    { destruct (LRUCache.size (cache s) >=? maxActiveUsers (config s));
        [apply instance_evictLRU|reflexivity]. }
    destruct ((if LRUCache.size (cache s) >=? maxActiveUsers (config s)
               then evictLRU w else ret tt) s) as [[[]|e] s1];
      [|intros H; discriminate H].
    simpl in I1. rewrite bind_gets, I1.
    destruct (instance s) as [inst|]; [|intros H; inversion H; left; auto].
    rewrite bind_run.
    destruct (connect w inst s1) as [[conn|e] s2]; [|intros H; discriminate H].
    rewrite bind_run. unfold attachUserDatabase at 1.
    rewrite bind_gets, try_catch_run.
    match goal with
    | |- context [match ?b s2 with _ => _ end] =>
        destruct (b s2) as [[r|e] s3] eqn:Eb
    end.
    + apply seq_value with (x := @success unit tt) in Eb;
        [|apply ret_value].
      subst r. unfold success at 1. cbv iota beta.
      cbv [bind new_Date interact ret cache_set modify success].
      intros H; discriminate H.
    + unfold ret at 1. cbv iota beta.
      unfold Errors.storageError at 1, createError at 1. cbv iota beta.
      unfold ret. intros H. simpl in H. inversion H. right. split; reflexivity.
Qed.

End Ready.

(** X26. An initialized manager has its engine instance, for a client
    that awaits each call before it makes the next: after any sequence of
    such calls, with timer firings and completions of suspended detach
    calls between them, whatever the engine and the scheduler do,
    [initialized] implies that [instance] is set; an error that
    [getUserConnection] then returns is not [NOT_INITIALIZED] but the
    [STORAGE_ERROR] of a rejected attach.  Calls that overlap are not
    covered: a [close()] that runs while [init()] waits for the engine
    drops the instance before [init] sets [initialized]. *)
Theorem initialized_has_instance (w : World) (cfg : DuckPondConfig)
    (calls : list Call) (userId : string) (err : DuckPondError) :
  initialized (run_calls w calls (new_DuckPond cfg)) = true ->
  (exists inst, instance (run_calls w calls (new_DuckPond cfg)) = Some inst)
  /\ (fst (getUserConnection w userId (run_calls w calls (new_DuckPond cfg)))
      = Normal (Left err) ->
      code err = STORAGE_ERROR
      /\ message err = "Failed to attach user database").
Proof.
  intros Hi.
  assert (ready (run_calls w calls (new_DuckPond cfg))) as Hr.
  { apply ready_run_calls. unfold ready. simpl. discriminate. }
  specialize (Hr Hi). split.
  - destruct (instance (run_calls w calls (new_DuckPond cfg))) as [inst|];
      [now exists inst|contradiction].
  - intros H. destruct (@getUserConnection_error w userId _ err H)
      as [(_ & [Hb|Hn])|Hs]; [congruence|contradiction|exact Hs].
Qed.

Lemma initialized_has_instance_witness :
  exists inst,
    instance (run_calls attach_fails [CallInit; CallQuery "a" "SELECT 1"]
                (new_DuckPond (config_with 2 Duckdb))) = Some inst.
Proof.
  refine (proj1 (@initialized_has_instance attach_fails (config_with 2 Duckdb)
                   [CallInit; CallQuery "a" "SELECT 1"] "a"
                   {| code := STORAGE_ERROR;
                      message := "Failed to attach user database";
                      cause := None; context := None |} _)).
  reflexivity.
Defined.

(** ** [listUsers] and [isAttached] *)

(** X27. [listUsers] and [isAttached] agree: in every state a tenant is
    attached exactly when [listUsers] lists it, and the count reported is
    the number of tenants listed. *)
Theorem listUsers_lists_attached (s : Pond) (userId : string) :
  (isAttached userId s = true <-> In userId (users (listUsers s)))
  /\ count (listUsers s) = Z.of_nat (List.length (users (listUsers s))).
Proof.
  split.
  - unfold isAttached, LRUCache.has, listUsers. cbn [users].
    apply has_In_keys.
  - unfold listUsers. cbn [count users LRUCache.getStats LRUCache.stats_size].
    unfold JsMap.size, LRUCache.keys. now rewrite keys_length.
Qed.

Lemma listUsers_lists_attached_witness :
  In "b"
    (users (listUsers
              (pond_with Parquet 10
                 [("a", tenant "a" 1%nat 0); ("b", tenant "b" 2%nat 5)]))).
Proof.
  apply (proj1 (@listUsers_lists_attached
                  (pond_with Parquet 10
                     [("a", tenant "a" 1%nat 0); ("b", tenant "b" 2%nat 5)])
                  "b")).
  reflexivity.
Defined.

(** ** Recency *)

Section Recency.

Lemma In_without k key ks : k <> key -> In k ks -> In k (without key ks).
Proof.
  intros Hne Hin. unfold without. apply filter_In. split; [exact Hin|].
  destruct (String.eqb_spec k key); [contradiction|reflexivity].
Qed.

Lemma not_In_without key ks : ~ In key (without key ks).
Proof.
  unfold without. intros H. apply filter_In in H. destruct H as (_ & H).
  now rewrite String.eqb_refl in H.
Qed.

Lemma not_In_remove key (m : JsMap.t) : ~ In key (JsMap.keys (JsMap.remove key m)).
Proof. rewrite keys_remove. apply not_In_without. Qed.

End Recency.

(** X28. A hit makes the key the most recently used: after [get] of a
    cached key, the key is last in the order of the cache, the other keys
    keep their order, and as long as another key is cached it is not the
    one the next eviction takes. *)
Theorem hit_is_most_recent (now : Z) (key : string) (c : LRUCache.t) :
  LRUCache.has key c = true ->
  LRUCache.keys (snd (LRUCache.get now key c))
  = without key (LRUCache.keys c) ++ [key]
  /\ forall k, k <> key -> In k (LRUCache.keys c) ->
       LRUCache.getLRU (snd (LRUCache.get now key c)) <> Some key.
Proof.
  intros Hh.
  assert (LRUCache.keys (snd (LRUCache.get now key c))
          = without key (LRUCache.keys c) ++ [key]) as E.
  { rewrite keys_after_get. unfold keys_get.
    unfold LRUCache.has in Hh. rewrite has_mem in Hh.
    unfold LRUCache.keys. now rewrite Hh. }
  split; [exact E|].
  intros k Hne Hin. rewrite getLRU_keys, E.
  pose proof (@In_without k key (LRUCache.keys c) Hne Hin) as Hin'.
  pose proof (@not_In_without key (LRUCache.keys c)) as Hout.
  destruct (without key (LRUCache.keys c)) as [|k0 ks]; [contradiction|].
  simpl. intros H. inversion H; subst k0. apply Hout. now left.
Qed.

Lemma hit_is_most_recent_witness :
  LRUCache.keys
    (snd (LRUCache.get 30 "a"
            (LRUCache.mk [("a", tenant "a" 0%nat 10); ("b", tenant "b" 1%nat 20)] 2)))
  = without "a" ["a"; "b"] ++ ["a"].
Proof.
  apply (proj1 (@hit_is_most_recent 30 "a"
                  (LRUCache.mk
                     [("a", tenant "a" 0%nat 10); ("b", tenant "b" 1%nat 20)] 2)
                  eq_refl)).
Defined.

(** X29. A key that was just used is not stale: for a timeout that is
    not negative, [getStale] taken at the instant of a [get] does not
    report the key of that [get]. *)
Theorem used_is_not_stale (now timeout : Z) (key : string) (c : LRUCache.t) :
  0 <= timeout ->
  mem key (LRUCache.getStale now timeout (snd (LRUCache.get now key c))) = false.
Proof.
  intros Ht.
  destruct (mem key (LRUCache.getStale now timeout (snd (LRUCache.get now key c))))
    eqn:Em; [|reflexivity].
  exfalso. apply mem_In in Em. revert Em. unfold LRUCache.getStale.
  destruct (JsMap.get key (LRUCache.cache c)) as [item|] eqn:Hg.
  - rewrite (@get_present now key c item Hg). cbn [snd LRUCache.cache].
    rewrite filter_app, map_app. intros H. apply in_app_or in H.
    destruct H as [H|H].
    + apply in_map_iff in H. destruct H as (kv & E & Hin).
      apply filter_In in Hin. destruct Hin as (Hin & _).
      apply (@not_In_remove key (LRUCache.cache c)).
      unfold JsMap.keys. apply in_map_iff. exists kv. split; assumption.
    + unfold set_lastAccess in H. simpl in H.
      replace (now - now) with 0 in H by lia.
      destruct (Z.gtb_spec 0 timeout) as [Hgt|_]; [lia|]. destruct H.
  - rewrite (@get_absent now key c Hg). cbn [snd]. intros H.
    apply in_map_iff in H. destruct H as (kv & E & Hin).
    apply filter_In in Hin. destruct Hin as (Hin & _).
    assert (In key (JsMap.keys (LRUCache.cache c))) as Hk
      by (unfold JsMap.keys; rewrite <- E; now apply in_map).
    apply get_In_keys in Hk. contradiction.
Qed.

Lemma used_is_not_stale_witness :
  mem "a"
    (LRUCache.getStale 1000000 300000
       (snd (LRUCache.get 1000000 "a"
               (LRUCache.mk
                  [("a", tenant "a" 0%nat 10); ("b", tenant "b" 1%nat 20)] 2))))
  = false.
Proof.
  apply (@used_is_not_stale 1000000 300000 "a"
           (LRUCache.mk
              [("a", tenant "a" 0%nat 10); ("b", tenant "b" 1%nat 20)] 2)).
  lia.
Defined.

(** ** [LRUCache] over shared objects *)

Section LRUCacheRefFacts.

Import LRUCacheRef.

Implicit Types (m : RefMap) (c : LRUCacheRef.t) (h : Heap).

Lemma lookup_remove_same key m : lookup key (remove key m) = None.
Proof.
  induction m as [|[k r] m IH]; simpl; auto.
  destruct (String.eqb k key) eqn:E; simpl; auto. now rewrite E.
Qed.

Lemma lookup_remove_other key k m :
  k <> key -> lookup k (remove key m) = lookup k m.
Proof.
  intros Hne. induction m as [|[k' r] m IH]; simpl; auto.
  destruct (String.eqb_spec k' key) as [->|Hne']; simpl.
  - destruct (String.eqb_spec key k); [congruence|exact IH].
  - now rewrite IH.
Qed.

Lemma insert_fresh key r m :
  lookup key m = None -> insert key r m = m ++ [(key, r)].
Proof.
  induction m as [|[k r0] m IH]; simpl; auto.
  destruct (String.eqb k key); [discriminate|].
  intros H. now rewrite IH.
Qed.

Lemma lookup_app key m1 m2 :
  lookup key (m1 ++ m2)
  = match lookup key m1 with Some r => Some r | None => lookup key m2 end.
Proof.
  induction m1 as [|[k r] m1 IH]; simpl; auto.
  destruct (String.eqb k key); auto.
Qed.

Lemma lookup_In key m r : lookup key m = Some r -> In (key, r) m.
Proof.
  induction m as [|[k r0] m IH]; simpl; [discriminate|].
  destruct (String.eqb_spec k key) as [->|Hne].
  - intros H. inversion H. now left.
  - intros H. right. now apply IH.
Qed.

Lemma lookup_None_keys key m : lookup key m = None <-> ~ In key (map fst m).
Proof.
  induction m as [|[k r] m IH]; simpl; [tauto|].
  destruct (String.eqb_spec k key) as [->|Hne].
  - split; [discriminate|]. intros H. exfalso. apply H. now left.
  - rewrite IH. tauto.
Qed.

Lemma remove_unlisted key m : lookup key m = None -> remove key m = m.
Proof.
  induction m as [|[k r] m IH]; simpl; auto.
  destruct (String.eqb k key); [discriminate|]. simpl.
  intros H. now rewrite IH.
Qed.

Lemma remove_first k r m :
  NoDup (map fst ((k, r) :: m)) -> remove k ((k, r) :: m) = m.
Proof.
  intros H. inversion H; subst. unfold remove. simpl.
  rewrite String.eqb_refl. simpl. apply remove_unlisted.
  now apply lookup_None_keys.
Qed.

Lemma remove_shorter key m :
  NoDup (map fst m) ->
  (List.length (remove key m)
   + match lookup key m with Some _ => 1 | None => 0 end
   = List.length m)%nat.
Proof.
  induction m as [|[k r] m IH]; simpl; [reflexivity|].
  intros H. inversion H as [|? ? Hnot Hnd]; subst. specialize (IH Hnd).
  destruct (String.eqb_spec k key) as [->|Hne]; simpl.
  - apply lookup_None_keys in Hnot. rewrite Hnot in IH.
    rewrite (@remove_unlisted key m Hnot) in *. lia.
  - destruct (lookup key m); lia.
Qed.

Lemma remove_incl key m kr : In kr (remove key m) -> In kr m.
Proof. unfold remove. intros H. apply filter_In in H. tauto. Qed.

(** *** The cache by value *)

(** The entries of a map of references, by value. *)
Local Abbreviation val h m := (map (fun kr => (fst kr, h (snd kr))) m).

Lemma val_get h key m :
  JsMap.get key (val h m) = option_map h (lookup key m).
Proof.
  induction m as [|[k r] m IH]; simpl; auto.
  destruct (String.eqb k key); auto.
Qed.

Lemma val_remove h key m :
  val h (remove key m) = JsMap.remove key (val h m).
Proof.
  unfold remove, JsMap.remove. induction m as [|[k r] m IH]; simpl; auto.
  destruct (String.eqb k key); simpl; now rewrite IH.
Qed.

Lemma val_insert h key r m :
  val h (insert key r m) = JsMap.set key (h r) (val h m).
Proof.
  induction m as [|[k r0] m IH]; simpl; auto.
  destruct (String.eqb k key); simpl; now rewrite ?IH.
Qed.

Lemma val_stamp h now r m :
  ~ In r (map snd m) -> val (stamp now r h) m = val h m.
Proof.
  intros H. apply map_ext_in. intros [k r0] Hin. simpl. unfold stamp.
  destruct (Nat.eqb_spec r0 r) as [->|Hne]; [|reflexivity].
  exfalso. apply H. apply in_map_iff. now exists (k, r).
Qed.

Lemma refs_remove key m r : In r (map snd (remove key m)) -> In r (map snd m).
Proof.
  intros H. apply in_map_iff in H. destruct H as (kr & E & Hin).
  apply in_map_iff. exists kr. split; [exact E|].
  now apply remove_incl with (key := key).
Qed.

Lemma NoDup_refs_remove key m :
  NoDup (map snd m) -> NoDup (map snd (remove key m)).
Proof.
  induction m as [|[k r] m IH]; simpl; [constructor|].
  intros H. inversion H as [|? ? Hnot Hnd]; subst.
  destruct (String.eqb k key); simpl; [now apply IH|].
  constructor; [|now apply IH].
  intros Hin. apply Hnot. now apply refs_remove with (key := key).
Qed.

(** The object found under a key is stored under no other key when no
    object is shared. *)
Lemma unshared_hit key m r :
  NoDup (map snd m) -> lookup key m = Some r ->
  ~ In r (map snd (remove key m)).
Proof.
  induction m as [|[k r0] m IH]; simpl; [discriminate|].
  intros H. inversion H as [|? ? Hnot Hnd]; subst.
  destruct (String.eqb_spec k key) as [->|Hne]; simpl.
  - intros E. inversion E; subst r0.
    intros Hin. apply Hnot. now apply refs_remove with (key := key).
  - intros E [->|Hin].
    + apply Hnot. apply lookup_In in E.
      apply in_map_iff. now exists (key, r).
    + now apply (IH Hnd E).
Qed.

Lemma refs_insert_fresh key r m :
  lookup key m = None -> map snd (insert key r m) = map snd m ++ [r].
Proof. intros H. rewrite (@insert_fresh key r m H), map_app. reflexivity. Qed.

Lemma NoDup_snoc (l : list Ref) r : NoDup l -> ~ In r l -> NoDup (l ++ [r]).
Proof.
  intros Hl Hr. induction l as [|x l IH]; simpl.
  - constructor; [tauto|constructor].
  - inversion Hl; subst. constructor.
    + intros Hin. apply in_app_or in Hin. destruct Hin as [Hin|[->|[]]].
      * contradiction.
      * apply Hr. now left.
    + apply IH; [assumption|]. intros Hin. apply Hr. now right.
Qed.

Lemma by_value_evictLRU c :
  by_value (evictLRU c) = LRUCache.evictLRU (by_value c)
  /\ heap (evictLRU c) = heap c
  /\ (forall r, In r (map snd (cache (evictLRU c))) -> In r (map snd (cache c)))
  /\ (unshared c -> unshared (evictLRU c)).
Proof.
  unfold evictLRU, LRUCache.evictLRU, getLRU, LRUCache.getLRU, by_value,
    entries, unshared.
  cbn [LRUCache.cache LRUCache.maxSize].
  destruct (cache c) as [|[k r] m] eqn:E.
  - cbn [map]. rewrite E. cbn [map]. auto.
  - cbn [map fst snd heap cache maxSize]. repeat split.
    + f_equal. rewrite val_remove. reflexivity.
    + intros r0. exact (@refs_remove k ((k, r) :: m) r0).
    + exact (@NoDup_refs_remove k ((k, r) :: m)).
Qed.

(** [set] of an object that is not stored is [LRUCache.set] of its value. *)
Lemma set_by_value now key value c :
  unstored value c ->
  by_value (set now key value c)
  = LRUCache.set now key (heap c value) (by_value c).
Proof.
  intros Hv. unfold set, LRUCache.set.
  set (c1 := if has key c then _ else c).
  assert (by_value c1
          = (if JsMap.has key (LRUCache.cache (by_value c))
             then LRUCache.mk (JsMap.remove key (LRUCache.cache (by_value c)))
                    (LRUCache.maxSize (by_value c))
             else by_value c)
          /\ heap c1 = heap c
          /\ forall r, In r (map snd (cache c1)) -> In r (map snd (cache c)))
    as (E1 & Hh1 & Hr1).
  { unfold c1, has, JsMap.has. cbn [by_value LRUCache.cache LRUCache.maxSize].
    unfold entries at 1. rewrite val_get.
    destruct (lookup key (cache c)); simpl.
    - split; [unfold by_value, entries; simpl; now rewrite val_remove|].
      split; [reflexivity|]. intros r0. apply refs_remove.
    - auto. }
  rewrite <- E1. clearbody c1.
  set (c2 := if size c1 >=? maxSize c1 then evictLRU c1 else c1).
  assert (by_value c2
          = (if JsMap.size (LRUCache.cache (by_value c1))
                >=? LRUCache.maxSize (by_value c1)
             then LRUCache.evictLRU (by_value c1) else by_value c1)
          /\ heap c2 = heap c1
          /\ forall r, In r (map snd (cache c2)) -> In r (map snd (cache c1)))
    as (E2 & Hh2 & Hr2).
  { unfold c2, JsMap.size, size. cbn [by_value LRUCache.cache LRUCache.maxSize].
    unfold entries at 1. rewrite length_map.
    destruct (Z.of_nat (List.length (cache c1)) >=? maxSize c1).
    - destruct (by_value_evictLRU c1) as (H1 & H2 & H3 & _). auto.
    - auto. }
  rewrite <- E2. clearbody c2.
  unfold by_value, entries. cbn [heap cache maxSize LRUCache.cache
                                   LRUCache.maxSize].
  f_equal. rewrite val_insert.
  assert (~ In value (map snd (cache c2))) as Hfresh
    by (intros Hin; apply Hv; auto).
  rewrite (@val_stamp (heap c2) now value (cache c2) Hfresh), Hh2, Hh1. f_equal.
  unfold stamp. now rewrite Nat.eqb_refl.
Qed.

(** [get] is [LRUCache.get] when no object is shared. *)
Lemma get_by_value now key c :
  unshared c ->
  by_value (snd (get now key c)) = snd (LRUCache.get now key (by_value c))
  /\ option_map (heap (snd (get now key c))) (fst (get now key c))
     = fst (LRUCache.get now key (by_value c)).
Proof.
  intros Hu. unfold get, LRUCache.get.
  cbn [by_value LRUCache.cache LRUCache.maxSize]. unfold entries at 1 3.
  rewrite val_get.
  destruct (lookup key (cache c)) as [r|] eqn:E; simpl; [|auto].
  pose proof (@unshared_hit key (cache c) r Hu E) as Hfresh.
  unfold by_value, entries. cbn [heap cache maxSize]. split.
  - f_equal. rewrite val_insert, (@val_stamp (heap c) now r _ Hfresh), val_remove.
    f_equal. unfold stamp. now rewrite Nat.eqb_refl.
  - unfold stamp. now rewrite Nat.eqb_refl.
Qed.

Lemma unshared_set now key value c :
  unshared c -> unstored value c -> unshared (set now key value c).
Proof.
  intros Hu Hv. unfold set.
  set (c1 := if has key c then _ else c).
  assert (lookup key (cache c1) = None /\ unshared c1 /\ unstored value c1)
    as (Hk1 & Hu1 & Hv1).
  { unfold c1, has. destruct (lookup key (cache c)) eqn:E; simpl.
    - split; [apply lookup_remove_same|].
      split; [now apply NoDup_refs_remove|].
      intros Hin. apply Hv. now apply refs_remove with (key := key).
    - auto. }
  clearbody c1.
  set (c2 := if size c1 >=? maxSize c1 then evictLRU c1 else c1).
  assert (lookup key (cache c2) = None /\ unshared c2 /\ unstored value c2)
    as (Hk2 & Hu2 & Hv2).
  { unfold c2. destruct (size c1 >=? maxSize c1); [|auto].
    destruct (by_value_evictLRU c1) as (_ & _ & H3 & H4).
    split; [|split; [auto|intros Hin; apply Hv1; auto]].
    unfold evictLRU, getLRU. revert Hk1.
    destruct (cache c1) as [|[k r] m] eqn:Ec; simpl; intros Hk1;
      [now rewrite Ec|].
    destruct (String.eqb_spec k key) as [->|Hne]; [discriminate|].
    rewrite String.eqb_refl. simpl. now rewrite lookup_remove_other by auto. }
  unfold unshared. cbn [cache].
  rewrite (@refs_insert_fresh key value (cache c2) Hk2). now apply NoDup_snoc.
Qed.

Lemma unshared_get now key c : unshared c -> unshared (snd (get now key c)).
Proof.
  intros Hu. unfold get.
  destruct (lookup key (cache c)) as [r|] eqn:E; simpl; [|exact Hu].
  unfold unshared. cbn [cache].
  rewrite (@refs_insert_fresh key r _ (lookup_remove_same key (cache c))).
  apply NoDup_snoc; [now apply NoDup_refs_remove|now apply unshared_hit].
Qed.

End LRUCacheRefFacts.

(** X2. At capacity, [set] of a new key evicts the least recently used
    key and no other: the map then holds the same objects under the
    remaining keys, in their order, followed by the object of the caller
    under the new key; and the one object that is modified is the
    caller's, whose [lastAccess] is assigned.  A remaining entry therefore
    reads as before unless it holds that very object. *)
Theorem set_evicts_oldest_only (now : Z) (key : string)
    (value : LRUCacheRef.Ref) (c : LRUCacheRef.t) (k : string)
    (r0 : LRUCacheRef.Ref) (rest : LRUCacheRef.RefMap) :
  LRUCacheRef.cache c = (k, r0) :: rest ->
  NoDup (LRUCacheRef.keys c) ->
  LRUCacheRef.has key c = false ->
  LRUCacheRef.size c >= LRUCacheRef.maxSize c ->
  LRUCacheRef.cache (LRUCacheRef.set now key value c) = rest ++ [(key, value)]
  /\ (forall r,
        LRUCacheRef.heap (LRUCacheRef.set now key value c) r
        = if Nat.eqb r value then set_lastAccess now (LRUCacheRef.heap c r)
          else LRUCacheRef.heap c r)
  /\ LRUCacheRef.getLRU c = Some k
  /\ LRUCacheRef.has k (LRUCacheRef.set now key value c) = false
  /\ LRUCacheRef.size (LRUCacheRef.set now key value c) = LRUCacheRef.size c.
Proof.
  intros Hc Hnd Hh Hsz.
  assert (LRUCacheRef.lookup key rest = None /\ k <> key) as (Hrest & Hne).
  { unfold LRUCacheRef.has in Hh. rewrite Hc in Hh. simpl in Hh.
    destruct (String.eqb_spec k key) as [->|Hne]; [discriminate|].
    split; [|exact Hne]. now destruct (LRUCacheRef.lookup key rest). }
  unfold LRUCacheRef.keys in Hnd. rewrite Hc in Hnd.
  assert (LRUCacheRef.set now key value c
          = LRUCacheRef.mk (LRUCacheRef.stamp now value (LRUCacheRef.heap c))
              (rest ++ [(key, value)]) (LRUCacheRef.maxSize c)) as E.
  { unfold LRUCacheRef.set. rewrite Hh.
    destruct (Z.geb_spec (LRUCacheRef.size c) (LRUCacheRef.maxSize c)); [|lia].
    unfold LRUCacheRef.evictLRU, LRUCacheRef.getLRU. rewrite Hc.
    cbn [LRUCacheRef.heap LRUCacheRef.cache LRUCacheRef.maxSize].
    rewrite (@remove_first k r0 rest Hnd). now rewrite (@insert_fresh key value rest Hrest). }
  rewrite E. cbn [LRUCacheRef.heap LRUCacheRef.cache].
  split; [reflexivity|]. split; [reflexivity|].
  split; [unfold LRUCacheRef.getLRU; now rewrite Hc|]. split.
  - unfold LRUCacheRef.has. cbn [LRUCacheRef.cache]. rewrite lookup_app.
    inversion Hnd as [|? ? Hnot _]; subst.
    apply lookup_None_keys in Hnot. rewrite Hnot. simpl.
    destruct (String.eqb_spec key k); [congruence|reflexivity].
  - unfold LRUCacheRef.size. cbn [LRUCacheRef.cache].
    rewrite Hc, length_app. simpl. lia.
Qed.

Lemma set_evicts_oldest_only_witness :
  LRUCacheRef.cache
    (LRUCacheRef.set 30 "c" 1%nat
       (LRUCacheRef.mk
          (fun r => tenant "t" r (10 * Z.of_nat r))
          [("a", 0%nat); ("b", 1%nat)] 2))
  = [("b", 1%nat)] ++ [("c", 1%nat)]
  /\ lastAccess
       (LRUCacheRef.heap
          (LRUCacheRef.set 30 "c" 1%nat
             (LRUCacheRef.mk
                (fun r => tenant "t" r (10 * Z.of_nat r))
                [("a", 0%nat); ("b", 1%nat)] 2)) 1%nat)
     = 30.
Proof.
  destruct (@set_evicts_oldest_only 30 "c" 1%nat
              (LRUCacheRef.mk
                 (fun r => tenant "t" r (10 * Z.of_nat r))
                 [("a", 0%nat); ("b", 1%nat)] 2)
              "a" 0%nat [("b", 1%nat)]) as (H1 & H2 & _).
  - reflexivity.
  - repeat constructor; simpl; intuition discriminate.
  - reflexivity.
  - unfold LRUCacheRef.size. simpl. lia.
  - split; [exact H1|]. now rewrite (H2 1%nat).
Defined.

(** X3. When no room has to be made, [set] evicts nothing: if the key is
    cached and the cache is within its capacity, or the key is new and the
    cache is below capacity, the map then holds the same objects under the
    other keys, in their order, followed by the object of the caller under
    its key; the one object that is modified is the caller's, whose
    [lastAccess] is assigned, under whichever keys it is stored. *)
Theorem set_without_eviction (now : Z) (key : string)
    (value : LRUCacheRef.Ref) (c : LRUCacheRef.t) :
  (LRUCacheRef.has key c = true
   /\ LRUCacheRef.size c <= LRUCacheRef.maxSize c)
  \/ (LRUCacheRef.has key c = false
      /\ LRUCacheRef.size c < LRUCacheRef.maxSize c) ->
  NoDup (LRUCacheRef.keys c) ->
  LRUCacheRef.cache (LRUCacheRef.set now key value c)
  = LRUCacheRef.remove key (LRUCacheRef.cache c) ++ [(key, value)]
  /\ (forall r,
        LRUCacheRef.heap (LRUCacheRef.set now key value c) r
        = if Nat.eqb r value then set_lastAccess now (LRUCacheRef.heap c r)
          else LRUCacheRef.heap c r).
Proof.
  intros H Hnd. unfold LRUCacheRef.keys in Hnd.
  pose proof (@remove_shorter key (LRUCacheRef.cache c) Hnd) as Hlen.
  unfold LRUCacheRef.set, LRUCacheRef.has, LRUCacheRef.size in *.
  destruct H as [[Hh Hsz]|[Hh Hsz]].
  - destruct (LRUCacheRef.lookup key (LRUCacheRef.cache c)) eqn:E;
      [|discriminate].
    cbn [LRUCacheRef.heap LRUCacheRef.cache LRUCacheRef.maxSize].
    destruct (Z.geb_spec
                (Z.of_nat (List.length
                             (LRUCacheRef.remove key (LRUCacheRef.cache c))))
                (LRUCacheRef.maxSize c)); [lia|].
    cbn [LRUCacheRef.heap LRUCacheRef.cache].
    split; [apply insert_fresh, lookup_remove_same|reflexivity].
  - destruct (LRUCacheRef.lookup key (LRUCacheRef.cache c)) eqn:E;
      [discriminate|].
    destruct (Z.geb_spec (Z.of_nat (List.length (LRUCacheRef.cache c)))
                (LRUCacheRef.maxSize c)); [lia|].
    cbn [LRUCacheRef.heap LRUCacheRef.cache].
    rewrite (@remove_unlisted key (LRUCacheRef.cache c) E).
    split; [now apply insert_fresh|reflexivity].
Qed.

Lemma set_without_eviction_witness :
  LRUCacheRef.cache
    (LRUCacheRef.set 20 "b" 0%nat
       (LRUCacheRef.mk (fun r => tenant "t" r 10) [("a", 0%nat)] 2))
  = LRUCacheRef.remove "b" [("a", 0%nat)] ++ [("b", 0%nat)]
  /\ LRUCacheRef.heap
       (LRUCacheRef.set 20 "b" 0%nat
          (LRUCacheRef.mk (fun r => tenant "t" r 10) [("a", 0%nat)] 2)) 0%nat
     = tenant "t" 0%nat 20.
Proof.
  destruct (@set_without_eviction 20 "b" 0%nat
              (LRUCacheRef.mk (fun r => tenant "t" r 10) [("a", 0%nat)] 2))
    as (H1 & H2).
  - right. split; [reflexivity|]. unfold LRUCacheRef.size. simpl. lia.
  - repeat constructor; simpl; intuition discriminate.
  - split; [exact H1|exact (H2 0%nat)].
Defined.

(** X4. [get] changes neither which keys are cached nor which object each
    key holds; it returns the object found, if any, and the one object
    that is modified is that one, whose [lastAccess] is assigned, under
    whichever keys it is stored; with distinct keys the size is
    unchanged. *)
Theorem get_keeps_contents (now : Z) (key : string) (c : LRUCacheRef.t) :
  (forall k,
     LRUCacheRef.lookup k (LRUCacheRef.cache (snd (LRUCacheRef.get now key c)))
     = LRUCacheRef.lookup k (LRUCacheRef.cache c))
  /\ fst (LRUCacheRef.get now key c)
     = LRUCacheRef.lookup key (LRUCacheRef.cache c)
  /\ (forall r,
        LRUCacheRef.heap (snd (LRUCacheRef.get now key c)) r
        = match LRUCacheRef.lookup key (LRUCacheRef.cache c) with
          | Some item =>
              if Nat.eqb r item then set_lastAccess now (LRUCacheRef.heap c r)
              else LRUCacheRef.heap c r
          | None => LRUCacheRef.heap c r
          end)
  /\ (NoDup (LRUCacheRef.keys c) ->
      LRUCacheRef.size (snd (LRUCacheRef.get now key c)) = LRUCacheRef.size c).
Proof.
  unfold LRUCacheRef.get.
  destruct (LRUCacheRef.lookup key (LRUCacheRef.cache c)) as [item|] eqn:E;
    cbn [fst snd LRUCacheRef.heap LRUCacheRef.cache]; [|auto].
  rewrite (@insert_fresh key item _ (lookup_remove_same key (LRUCacheRef.cache c))).
  split; [|split; [reflexivity|split; [reflexivity|]]].
  - intros k. rewrite lookup_app.
    destruct (String.eqb_spec k key) as [->|Hne].
    + rewrite lookup_remove_same. simpl. now rewrite String.eqb_refl.
    + rewrite lookup_remove_other by assumption.
      destruct (LRUCacheRef.lookup k (LRUCacheRef.cache c)); [reflexivity|].
      simpl. destruct (String.eqb_spec key k); [congruence|reflexivity].
  - intros Hnd. unfold LRUCacheRef.size, LRUCacheRef.keys in *.
    cbn [LRUCacheRef.cache]. rewrite length_app. simpl.
    pose proof (@remove_shorter key (LRUCacheRef.cache c) Hnd) as Hlen. rewrite E in Hlen. lia.
Qed.

Lemma get_keeps_contents_witness :
  LRUCacheRef.size
    (snd (LRUCacheRef.get 30 "a"
            (LRUCacheRef.mk (fun r => tenant "t" r 10)
               [("a", 0%nat); ("b", 1%nat)] 2)))
  = 2.
Proof.
  destruct (@get_keeps_contents 30 "a"
              (LRUCacheRef.mk (fun r => tenant "t" r 10)
                 [("a", 0%nat); ("b", 1%nat)] 2))
    as (_ & _ & _ & H4).
  apply H4. repeat constructor; simpl; intuition discriminate.
Defined.

(** X30. The cache by value is exact for a client that shares no object:
    when no object is stored under two keys and the object given to [set]
    is not stored yet (as for [DuckPond], which gives [set] a new object
    every time), [set], [get] and [delete] on the shared objects are,
    read by value, [LRUCache.set], [LRUCache.get] and [LRUCache.delete];
    and afterwards still no object is stored under two keys. *)
Theorem by_value_is_exact (now : Z) (key : string) (value : LRUCacheRef.Ref)
    (c : LRUCacheRef.t) :
  LRUCacheRef.unshared c ->
  LRUCacheRef.unstored value c ->
  (LRUCacheRef.by_value (LRUCacheRef.set now key value c)
   = LRUCache.set now key (LRUCacheRef.heap c value) (LRUCacheRef.by_value c)
   /\ LRUCacheRef.unshared (LRUCacheRef.set now key value c))
  /\ (LRUCacheRef.by_value (snd (LRUCacheRef.get now key c))
      = snd (LRUCache.get now key (LRUCacheRef.by_value c))
      /\ option_map (LRUCacheRef.heap (snd (LRUCacheRef.get now key c)))
           (fst (LRUCacheRef.get now key c))
         = fst (LRUCache.get now key (LRUCacheRef.by_value c))
      /\ LRUCacheRef.unshared (snd (LRUCacheRef.get now key c)))
  /\ (LRUCacheRef.by_value (snd (LRUCacheRef.delete key c))
      = snd (LRUCache.delete key (LRUCacheRef.by_value c))
      /\ fst (LRUCacheRef.delete key c)
         = fst (LRUCache.delete key (LRUCacheRef.by_value c))
      /\ LRUCacheRef.unshared (snd (LRUCacheRef.delete key c))).
Proof.
  intros Hu Hv. split; [|split].
  - split; [now apply set_by_value|now apply unshared_set].
  - destruct (@get_by_value now key c Hu) as (H1 & H2).
    split; [exact H1|]. split; [exact H2|now apply unshared_get].
  - unfold LRUCacheRef.delete, LRUCache.delete, JsMap.delete,
      LRUCacheRef.by_value, LRUCacheRef.entries, LRUCacheRef.has, JsMap.has.
    cbn [fst snd LRUCacheRef.heap LRUCacheRef.cache LRUCacheRef.maxSize
         LRUCache.cache LRUCache.maxSize].
    rewrite val_remove, val_get. split; [reflexivity|]. split.
    + now destruct (LRUCacheRef.lookup key (LRUCacheRef.cache c)).
    + now apply NoDup_refs_remove.
Qed.

Lemma by_value_is_exact_witness :
  LRUCacheRef.by_value
    (LRUCacheRef.set 30 "c" 2%nat
       (LRUCacheRef.mk (fun r => tenant "t" r (10 * Z.of_nat r))
          [("a", 0%nat); ("b", 1%nat)] 2))
  = LRUCache.set 30 "c" (tenant "t" 2%nat 20)
      (LRUCacheRef.by_value
         (LRUCacheRef.mk (fun r => tenant "t" r (10 * Z.of_nat r))
            [("a", 0%nat); ("b", 1%nat)] 2)).
Proof.
  apply (@by_value_is_exact 30 "c" 2%nat
           (LRUCacheRef.mk (fun r => tenant "t" r (10 * Z.of_nat r))
              [("a", 0%nat); ("b", 1%nat)] 2)).
  - unfold LRUCacheRef.unshared. simpl.
    repeat constructor; simpl; intuition discriminate.
  - unfold LRUCacheRef.unstored. simpl. intuition discriminate.
Defined.

(** One object stored under two keys: the second [set] assigns its
    [lastAccess], which then reads 20 under both keys. *)
Example shared_object_under_two_keys :
  LRUCacheRef.entries
    (LRUCacheRef.set 20 "b" 0%nat
       (LRUCacheRef.set 10 "a" 0%nat
          (LRUCacheRef.mk (fun r => tenant "t" r 0) [] 2)))
  = [("a", tenant "t" 0%nat 20); ("b", tenant "t" 0%nat 20)].
Proof. reflexivity. Qed.
